(** * aws-cost-notification-app: the date range, the billing message and the
      notification workflow of [lambda_function.py]

    The development embeds [DateHelper], [BillingMessageFormatter.format] and
    [CostNotificationService.notify] together with the parts of the Python
    runtime they call ([date]/[datetime] arithmetic, [datetime.strptime] with
    the format [%Y-%m-%d], [isoformat], [strftime], [round] and the [.3f]
    format specification), and proves the properties of the specification
    about them. *)

From Stdlib Require Import ZArith List Bool Lia String Ascii SpecFloat.
Import ListNotations.
Local Open Scope Z_scope.

(* ===================================================================== *)
(** * Python values *)
(* ===================================================================== *)

(** ** Strings

    A Python [str] is a sequence of Unicode code points. *)

Definition char := Z.
Definition str := list char.

Definition ord (a : ascii) : char := Z.of_N (N_of_ascii a).

(** Literals are written as they stand in the (UTF-8) source file and
    decoded into code points. *)
Fixpoint utf8_decode (bs : list Z) : str :=
  match bs with
  | [] => []
  | b0 :: r0 =>
      if b0 <? 128 then b0 :: utf8_decode r0
      else match r0 with
      | [] => [b0]
      | b1 :: r1 =>
          if b0 <? 224 then
            (Z.lor (Z.shiftl (Z.land b0 31) 6) (Z.land b1 63)) :: utf8_decode r1
          else match r1 with
          | [] => [b0; b1]
          | b2 :: r2 =>
              if b0 <? 240 then
                (Z.lor (Z.shiftl (Z.land b0 15) 12)
                   (Z.lor (Z.shiftl (Z.land b1 63) 6) (Z.land b2 63)))
                  :: utf8_decode r2
              else match r2 with
              | [] => [b0; b1; b2]
              | b3 :: r3 =>
                  (Z.lor (Z.shiftl (Z.land b0 7) 18)
                     (Z.lor (Z.shiftl (Z.land b1 63) 12)
                        (Z.lor (Z.shiftl (Z.land b2 63) 6) (Z.land b3 63))))
                    :: utf8_decode r3
              end
          end
      end
  end.

Definition u (s : string) : str :=
  utf8_decode (map ord (list_ascii_of_string s)).

(** [==] on two [str] values. *)
Fixpoint str_eqb (a b : str) : bool :=
  match a, b with
  | [], [] => true
  | x :: a', y :: b' => (x =? y) && str_eqb a' b'
  | _, _ => false
  end.

(** [<=] on two [str] values: lexicographic, by code point. *)
Fixpoint str_leb (a b : str) : bool :=
  match a, b with
  | [], _ => true
  | _ :: _, [] => false
  | x :: a', y :: b' => (x <? y) || ((x =? y) && str_leb a' b')
  end.

(** ** Decimal rendering of integers: [%d] and [%0wd] *)

Definition digit_char (k : Z) : char := 48 + k.

Fixpoint uint_chars (d : Decimal.uint) : str :=
  match d with
  | Decimal.Nil => []
  | Decimal.D0 d => digit_char 0 :: uint_chars d
  | Decimal.D1 d => digit_char 1 :: uint_chars d
  | Decimal.D2 d => digit_char 2 :: uint_chars d
  | Decimal.D3 d => digit_char 3 :: uint_chars d
  | Decimal.D4 d => digit_char 4 :: uint_chars d
  | Decimal.D5 d => digit_char 5 :: uint_chars d
  | Decimal.D6 d => digit_char 6 :: uint_chars d
  | Decimal.D7 d => digit_char 7 :: uint_chars d
  | Decimal.D8 d => digit_char 8 :: uint_chars d
  | Decimal.D9 d => digit_char 9 :: uint_chars d
  end.

(** [%d] for a non-negative integer. *)
Definition fmt_d (n : Z) : str := uint_chars (N.to_uint (Z.to_N n)).

(** [%0wd] for a non-negative integer: at least [w] digits, zero filled. *)
Definition fmt_0d (w : nat) (n : Z) : str :=
  let s := fmt_d n in
  repeat (digit_char 0) (w - List.length s) ++ s.

(** ** Exceptions *)

Inductive exn := ValueError | OverflowError.

Inductive result (A : Type) : Type :=
| Ok (a : A)
| Raise (e : exn).
Arguments Ok {A} a.
Arguments Raise {A} e.

Definition bind {A B} (c : result A) (k : A -> result B) : result B :=
  match c with
  | Ok a => k a
  | Raise e => Raise e
  end.

Notation "x <- c ;; k" := (bind c (fun x => k))
  (at level 61, c at next level, right associativity).

(* ===================================================================== *)
(** * The [datetime] module *)
(* ===================================================================== *)

Record date := mkdate { year : Z; month : Z; day : Z }.

(** A [datetime] is a date with a time of day, here in microseconds after
    midnight. *)
Record datetime := mkdatetime { dt_date : date; dt_time : Z }.

Definition MINYEAR : Z := 1.
Definition MAXYEAR : Z := 9999.
Definition MAXORDINAL : Z := 3652059.

Definition is_leap (y : Z) : bool :=
  (y mod 4 =? 0) && (negb (y mod 100 =? 0) || (y mod 400 =? 0)).

Definition days_in_month_table : list Z :=
  [0; 31; 28; 31; 30; 31; 30; 31; 31; 30; 31; 30; 31].

Definition days_before_month_table : list Z :=
  [0; 0; 31; 59; 90; 120; 151; 181; 212; 243; 273; 304; 334].

Definition days_in_month (y m : Z) : Z :=
  if (m =? 2) && is_leap y then 29
  else nth (Z.to_nat m) days_in_month_table 0.

Definition days_before_month (y m : Z) : Z :=
  let days := nth (Z.to_nat m) days_before_month_table 0 in
  if (2 <? m) && is_leap y then days + 1 else days.

Definition days_before_year (y : Z) : Z :=
  let y := y - 1 in
  y * 365 + y / 4 - y / 100 + y / 400.

Definition DI4Y : Z := 1461.
Definition DI100Y : Z := 36524.
Definition DI400Y : Z := 146097.

Definition ymd_to_ord (y m d : Z) : Z :=
  days_before_year y + days_before_month y m + d.

Definition ord_to_ymd (ordinal : Z) : date :=
  let ordinal := ordinal - 1 in
  let n400 := ordinal / DI400Y in
  let n := ordinal mod DI400Y in
  let y := n400 * 400 + 1 in
  let n100 := n / DI100Y in
  let n := n mod DI100Y in
  let n4 := n / DI4Y in
  let n := n mod DI4Y in
  let n1 := n / 365 in
  let n := n mod 365 in
  let y := y + n100 * 100 + n4 * 4 + n1 in
  if (n1 =? 4) || (n100 =? 4) then mkdate (y - 1) 12 31
  else
    let leapyear := (n1 =? 3) && (negb (n4 =? 24) || (n100 =? 3)) in
    let m := Z.shiftr (n + 50) 5 in
    let preceding :=
      nth (Z.to_nat m) days_before_month_table 0
      + (if (2 <? m) && leapyear then 1 else 0) in
    let '(m, preceding) :=
      if n <? preceding then (m - 1, preceding - days_in_month y (m - 1))
      else (m, preceding) in
    mkdate y m (n - preceding + 1).

(** The argument check of the [date] and [datetime] constructors. *)
Definition valid_date (d : date) : bool :=
  (MINYEAR <=? year d) && (year d <=? MAXYEAR)
  && (1 <=? month d) && (month d <=? 12)
  && (1 <=? day d) && (day d <=? days_in_month (year d) (month d)).

Definition check_date_args (y m d : Z) : result date :=
  if valid_date (mkdate y m d) then Ok (mkdate y m d) else Raise ValueError.

(** [date.min]. *)
Definition date_min : date := mkdate 1 1 1.

(** Brings a day number that left its month back into the calendar; the
    month is in range. *)
Definition normalize_y_m_d (y m d : Z) : result date :=
  let dim := days_in_month y m in
  let in_range (r : date) : result date :=
    if (MINYEAR <=? year r) && (year r <=? MAXYEAR) then Ok r
    else Raise OverflowError in
  if (d <? 1) || (dim <? d) then
    if d =? 0 then
      let m := m - 1 in
      if 0 <? m then in_range (mkdate y m (days_in_month y m))
      else in_range (mkdate (y - 1) 12 31)
    else if d =? dim + 1 then
      let m := m + 1 in
      if 12 <? m then in_range (mkdate (y + 1) 1 1)
      else in_range (mkdate y m 1)
    else
      let ordinal := ymd_to_ord y m 1 + d - 1 in
      if (ordinal <? 1) || (MAXORDINAL <? ordinal) then Raise OverflowError
      else Ok (ord_to_ymd ordinal)
  else in_range (mkdate y m d).

(** [dt + timedelta(days=n)] and [dt - timedelta(days=n)]: the time of day
    is kept, the day number moves. *)
Definition datetime_add_days (dt : datetime) (n : Z) : result datetime :=
  let d := dt_date dt in
  r <- normalize_y_m_d (year d) (month d) (day d + n) ;;
  Ok (mkdatetime r (dt_time dt)).

Definition datetime_sub_days (dt : datetime) (n : Z) : result datetime :=
  let d := dt_date dt in
  r <- normalize_y_m_d (year d) (month d) (day d + n * -1) ;;
  Ok (mkdatetime r (dt_time dt)).

(** [d.replace(day=n)]. *)
Definition date_replace_day (d : date) (n : Z) : result date :=
  check_date_args (year d) (month d) n.

Definition datetime_replace_day (dt : datetime) (n : Z) : result datetime :=
  r <- check_date_args (year (dt_date dt)) (month (dt_date dt)) n ;;
  Ok (mkdatetime r (dt_time dt)).

(** [d.isoformat()]: [%04d-%02d-%02d]. *)
Definition isoformat (d : date) : str :=
  fmt_0d 4 (year d) ++ u "-" ++ fmt_0d 2 (month d) ++ u "-" ++ fmt_0d 2 (day d).

(** [dt.strftime('%m/%d')]. *)
Definition strftime_md (dt : datetime) : str :=
  fmt_0d 2 (month (dt_date dt)) ++ u "/" ++ fmt_0d 2 (day (dt_date dt)).

(** ** [datetime.strptime(s, '%Y-%m-%d')]

    [_strptime] turns the format into the regular expression
    [(?P<Y>\d\d\d\d)-(?P<m>1[0-2]|0[1-9]|[1-9])-(?P<d>3[0-1]|[1-2]\d|0[1-9]|[1-9]| [1-9])],
    matches it at the start of the text (ignoring case, which is nothing
    to digits and hyphens), refuses text left over, converts the groups
    with [int] and builds the [datetime], at midnight. *)

Inductive regex :=
| Chr (c : char)
| Range (lo hi : char)
| Digit
| Seq (r1 r2 : regex)
| Alt (r1 r2 : regex).

Definition re_Y : regex := Seq Digit (Seq Digit (Seq Digit Digit)).

Definition re_m : regex :=
  Alt (Seq (Chr (ord "1")) (Range (ord "0") (ord "2")))
 (Alt (Seq (Chr (ord "0")) (Range (ord "1") (ord "9")))
      (Range (ord "1") (ord "9"))).

Definition re_d : regex :=
  Alt (Seq (Chr (ord "3")) (Range (ord "0") (ord "1")))
 (Alt (Seq (Range (ord "1") (ord "2")) Digit)
 (Alt (Seq (Chr (ord "0")) (Range (ord "1") (ord "9")))
 (Alt (Range (ord "1") (ord "9"))
      (Seq (Chr (ord " ")) (Range (ord "1") (ord "9")))))).

(** The decimal digits of ASCII. *)
Definition ascii_decimal (c : char) : option Z :=
  if (48 <=? c) && (c <=? 57) then Some (c - 48) else None.

Section Strptime.

(** [\d] and [int] accept every character of the Unicode category Nd; the
    table belongs to the interpreter and is a parameter here: [nd c] is
    the value of the decimal digit [c]. *)
Variable nd : char -> option Z.

Definition one_char (p : char -> bool) (s : str) : list (str * str) :=
  match s with
  | c :: r => if p c then [([c], r)] else []
  | [] => []
  end.

(** The ways [r] matches at the head of [s], in the order the
    backtracking matcher tries them: the text matched and the text left. *)
Fixpoint run (r : regex) (s : str) : list (str * str) :=
  match r with
  | Chr c => one_char (Z.eqb c) s
  | Range lo hi => one_char (fun x => (lo <=? x) && (x <=? hi)) s
  | Digit => one_char (fun x => match nd x with Some _ => true | None => false end) s
  | Seq r1 r2 =>
      flat_map (fun m1 =>
        map (fun m2 => (fst m1 ++ fst m2, snd m2)) (run r2 (snd m1)))
        (run r1 s)
  | Alt r1 r2 => run r1 s ++ run r2 s
  end.

(** The first match of the whole expression: the groups [Y], [m], [d] and
    the text after the match. *)
Definition strptime_match (s : str) : option (str * str * str * str) :=
  hd_error
    (flat_map (fun gY =>
     flat_map (fun sep1 =>
     flat_map (fun gm =>
     flat_map (fun sep2 =>
     map (fun gd => (fst gY, fst gm, fst gd, snd gd))
       (run re_d (snd sep2)))
       (run (Chr (ord "-")) (snd gm)))
       (run re_m (snd sep1)))
       (run (Chr (ord "-")) (snd gY)))
       (run re_Y s)).

Fixpoint digits_value (acc : Z) (s : str) : option Z :=
  match s with
  | [] => Some acc
  | c :: r =>
      match nd c with
      | Some k => digits_value (10 * acc + k) r
      | None => None
      end
  end.

Fixpoint lstrip (s : str) : str :=
  match s with
  | c :: r => if c =? ord " " then lstrip r else s
  | [] => []
  end.

(** [int(s)] on the text of a group: decimal digits, after blanks. *)
Definition py_int (s : str) : result Z :=
  match lstrip s with
  | [] => Raise ValueError
  | t => match digits_value 0 t with
         | Some n => Ok n
         | None => Raise ValueError
         end
  end.

Definition strptime (s : str) : result datetime :=
  match strptime_match s with
  | None => Raise ValueError
  | Some (gY, gm, gd, rest) =>
      match rest with
      | _ :: _ => Raise ValueError
      | [] =>
          y <- py_int gY ;;
          m <- py_int gm ;;
          d <- py_int gd ;;
          r <- check_date_args y m d ;;
          Ok (mkdatetime r 0)
      end
  end.

End Strptime.

(* ===================================================================== *)
(** * [DateHelper] *)
(* ===================================================================== *)

Section DateHelper.

Variable nd : char -> option Z.

(** [date.today()] reads the clock; the value it returns is the argument
    [today] of the two readers. *)
Definition get_begin_of_month (today : date) : result str :=
  d <- date_replace_day today 1 ;;
  Ok (isoformat d).

Definition get_today (today : date) : result str :=
  Ok (isoformat today).

(** [get_date_range] reads the clock twice, first in
    [get_begin_of_month], then in [get_today]: [t1] and [t2] are the two
    values read. *)
Definition get_date_range_at (t1 t2 : date) : result (str * str) :=
  start_date <- get_begin_of_month t1 ;;
  end_date <- get_today t2 ;;
  if str_eqb start_date end_date then
    dt <- strptime nd start_date ;;
    end_of_month <- datetime_add_days dt (-1) ;;
    begin_of_month <- datetime_replace_day end_of_month 1 ;;
    Ok (isoformat (dt_date begin_of_month), end_date)
  else Ok (start_date, end_date).

(** The call while the clock shows [today] at both readings, as under
    [freeze_time] in the tests. *)
Definition get_date_range (today : date) : result (str * str) :=
  get_date_range_at today today.

End DateHelper.

(* ===================================================================== *)
(** * Floats *)
(* ===================================================================== *)

(** A Python [float] is an IEEE 754 binary64 value. *)
Record float := mkfloat {
  fval : spec_float;
  fvalid : valid_binary 53 1024 fval = true
}.

(** [a / b] rounded to the nearest integer, ties to even ([0 <= a], [0 < b]). *)
Definition div_half_even (a b : Z) : Z :=
  let q := a / b in
  let r := a mod b in
  match 2 * r ?= b with
  | Lt => q
  | Gt => q + 1
  | Eq => if Z.even q then q else q + 1
  end.

(** [m * 2^e * 1000], the thousandths in the magnitude of a finite float,
    rounded to the nearest integer, ties to even. *)
Definition thousandths (m : positive) (e : Z) : Z :=
  if 0 <=? e then Zpos m * 2 ^ e * 1000
  else div_half_even (Zpos m * 1000) (2 ^ (- e)).

(** The double nearest to [n / 1000] with the sign [s], as the decimal to
    binary conversion gives it. *)
Definition double_of_thousandths (s : bool) (n : Z) : spec_float :=
  match n with
  | Zpos p => SFdiv 53 1024 (S754_finite s p 0) (S754_finite false 1000 0)
  | _ => S754_zero s
  end.

(** [round(x, 3)]: infinities and NaN round to themselves; a finite value
    is converted to the decimal with three places nearest to it and back. *)
Definition round3 (x : spec_float) : result spec_float :=
  match x with
  | S754_finite s m e =>
      match double_of_thousandths s (thousandths m e) with
      | S754_infinity _ => Raise OverflowError
      | r => Ok r
      end
  | _ => Ok x
  end.

Definition sign_chars (s : bool) : str := if s then u "-" else [].

Definition fixed3 (s : bool) (n : Z) : str :=
  sign_chars s ++ fmt_d (n / 1000) ++ u "." ++ fmt_0d 3 (n mod 1000).

(** [format(x, '.3f')]. *)
Definition format_3f (x : spec_float) : str :=
  match x with
  | S754_nan => u "nan"
  | S754_infinity s => sign_chars s ++ u "inf"
  | S754_zero s => fixed3 s 0
  | S754_finite s m e => fixed3 s (thousandths m e)
  end.

(** A float literal of the source text with [k] digits after the point:
    the double nearest to [n / 10^k]. *)
Definition float_literal (n : Z) (k : nat) : spec_float :=
  match n with
  | Zpos p => SFdiv 53 1024 (S754_finite false p 0)
                (S754_finite false (Pos.pow 10 (Pos.of_nat k)) 0)
  | Zneg p => SFdiv 53 1024 (S754_finite true p 0)
                (S754_finite false (Pos.pow 10 (Pos.of_nat k)) 0)
  | Z0 => S754_zero false
  end.

(* ===================================================================== *)
(** * Data models *)
(* ===================================================================== *)

Record BillingInfo := mkBillingInfo {
  start : str;
  end_ : str;
  amount : float
}.

Record LineCredentials := mkLineCredentials {
  channel_id : str;
  access_token : str
}.

(* ===================================================================== *)
(** * [BillingMessageFormatter] *)
(* ===================================================================== *)

Section Formatter.

Variable nd : char -> option Z.

(** The body of the [try]. *)
Definition format_try (billing_info : BillingInfo) : result str :=
  dt <- strptime nd (start billing_info) ;;
  let start := strftime_md dt in
  end_today <- strptime nd (end_ billing_info) ;;
  y <- datetime_sub_days end_today 1 ;;
  let end_yesterday := strftime_md y in
  total <- round3 (fval (amount billing_info)) ;;
  Ok (start ++ u "～" ++ end_yesterday ++ u "の請求額は、"
        ++ format_3f total ++ u " USDです。").

(** [except Exception]: the exception is logged and the empty string
    returned.  The log is not part of the model. *)
Definition format (billing_info : BillingInfo) : result str :=
  match format_try billing_info with
  | Ok message => Ok message
  | Raise _ => Ok []
  end.

End Formatter.

(* ===================================================================== *)
(** * [CostNotificationService] *)
(* ===================================================================== *)

(** The collaborators act on the world outside the process (the cost API,
    the settings table, the chat endpoint); [W] is its state.  Each
    interface of the source is a class with its one method.  The log
    records of [notify] are not part of the model. *)

Class CostCalculatorBase (W : Type) := {
  get_billing_info : W -> option BillingInfo * W
}.

Class TokenRepositoryBase (W : Type) := {
  get_credentials : W -> option LineCredentials * W
}.

Class MessageFormatterBase (W : Type) := {
  format_message : BillingInfo -> W -> str * W
}.

(** [LineNotifier(credentials).send(message)]. *)
Class NotifierBase (W : Type) := {
  send : LineCredentials -> str -> W -> bool * W
}.

(** The calls [notify] makes, in order. *)
Inductive call :=
| CallGetBillingInfo
| CallFormat (billing_info : BillingInfo)
| CallGetCredentials
| CallSend (credentials : LineCredentials) (message : str).

Definition is_send (c : call) : bool :=
  match c with CallSend _ _ => true | _ => false end.

Definition sends (tr : list call) : nat := List.length (filter is_send tr).

Section Service.

Context {W : Type}.
Context {cost_calculator : CostCalculatorBase W}.
Context {token_repository : TokenRepositoryBase W}.
Context {message_formatter : MessageFormatterBase W}.
Context {notifier : NotifierBase W}.

(** A computation that changes the world and records its calls. *)
Definition M (A : Type) : Type := W * list call -> A * (W * list call).

Definition ret {A} (a : A) : M A := fun st => (a, st).

Definition mbind {A B} (c : M A) (k : A -> M B) : M B :=
  fun st => let '(a, st') := c st in k a st'.

Definition perform {A} (c : call) (f : W -> A * W) : M A :=
  fun st => let '(a, w') := f (fst st) in (a, (w', snd st ++ [c])).

Notation "x <~ c ;; k" := (mbind c (fun x => k))
  (at level 61, c at next level, right associativity).

Definition notify : M bool :=
  billing_info <~ perform CallGetBillingInfo get_billing_info ;;
  match billing_info with
  | None => ret false
  | Some billing_info =>
      message <~ perform (CallFormat billing_info)
                   (format_message billing_info) ;;
      match message with
      | [] => ret false
      | _ :: _ =>
          credentials <~ perform CallGetCredentials get_credentials ;;
          match credentials with
          | None => ret false
          | Some credentials =>
              success <~ perform (CallSend credentials message)
                           (send credentials message) ;;
              ret success
          end
      end
  end.

End Service.

(** [BillingMessageFormatter] implements [MessageFormatterBase]: it leaves
    the world as it is. *)
Definition BillingMessageFormatter (nd : char -> option Z) (W : Type)
  : MessageFormatterBase W :=
  {| format_message := fun billing_info w =>
       match format nd billing_info with
       | Ok message => (message, w)
       | Raise _ => ([], w)
       end |}.

(* ===================================================================== *)
(** * Notions of the specification and auxiliary definitions *)
(* ===================================================================== *)

(** A text of ASCII characters. *)
Definition is_ascii (s : str) : Prop := Forall (fun c => c < 128) s.

(** The digit table of the interpreter extends the ASCII one. *)
Definition extends_ascii (nd : char -> option Z) : Prop :=
  forall c, c < 128 -> nd c = ascii_decimal c.

(** Checking a decidable property on the integers below a bound. *)
Fixpoint below (n : nat) (p : Z -> bool) : bool :=
  match n with
  | O => true
  | S k => p (Z.of_nat k) && below k p
  end.

(** The ways the expression matches after the year group. *)
Definition md_candidates (s1 : str) : list (str * str * str) :=
  flat_map (fun sep1 =>
  flat_map (fun gm =>
  flat_map (fun sep2 =>
  map (fun gd => (fst gm, fst gd, snd gd))
    (run ascii_decimal re_d (snd sep2)))
    (run ascii_decimal (Chr (ord "-")) (snd gm)))
    (run ascii_decimal re_m (snd sep1)))
    (run ascii_decimal (Chr (ord "-")) s1).

(** The first of them, on a month and a day of two digits each, is the two
    fields with nothing left over. *)
Definition md_check (m d : Z) : bool :=
  match hd_error (md_candidates ([45] ++ fmt_0d 2 m ++ [45] ++ fmt_0d 2 d)) with
  | Some (gm, gd, rest) =>
      str_eqb gm (fmt_0d 2 m) && str_eqb gd (fmt_0d 2 d) && str_eqb rest []
  | None => false
  end.

(** The result is the integer [k]. *)
Definition result_Z_is (r : result Z) (k : Z) : bool :=
  match r with Ok n => n =? k | Raise _ => false end.

(** The first day of the month of [d]. *)
Definition first_of_month (d : date) : date := mkdate (year d) (month d) 1.

(** The day before [d]. *)
Definition previous_day (d : date) : date :=
  if day d =? 1 then
    if month d =? 1 then mkdate (year d - 1) 12 31
    else mkdate (year d) (month d - 1) (days_in_month (year d) (month d - 1))
  else mkdate (year d) (month d) (day d - 1).

(** The first day of the month before the month of [d]. *)
Definition first_of_previous_month (d : date) : date :=
  if month d =? 1 then mkdate (year d - 1) 12 1
  else mkdate (year d) (month d - 1) 1.

(** [<=] on dates. *)
Definition date_leb (a b : date) : bool :=
  (year a <? year b)
  || ((year a =? year b)
      && ((month a <? month b)
          || ((month a =? month b) && (day a <=? day b)))).

(** An ASCII digit. *)
Definition is_digit (c : char) : bool := (48 <=? c) && (c <=? 57).

(** The canonical form of the text of a date: [YYYY-MM-DD]. *)
Definition canonical_text (s : str) : bool :=
  match s with
  | [y3; y2; y1; y0; h1; m1; m0; h2; d1; d0] =>
      is_digit y3 && is_digit y2 && is_digit y1 && is_digit y0
      && (h1 =? 45)
      && is_digit m1 && is_digit m0
      && (h2 =? 45)
      && is_digit d1 && is_digit d0
  | _ => false
  end.

(** A date as [MM/DD]. *)
Definition mm_dd (d : date) : str :=
  [digit_char (month d / 10); digit_char (month d mod 10)] ++ u "/"
  ++ [digit_char (day d / 10); digit_char (day d mod 10)].

(** The message for a period shown from [first] to [last] and an amount
    already rendered. *)
Definition billing_message (first last : date) (amount_text : str) : str :=
  mm_dd first ++ u "～" ++ mm_dd last ++ u "の請求額は、" ++ amount_text
  ++ u " USDです。".

(** Not an infinity and not NaN. *)
Definition finite_with_sign (s : bool) (r : spec_float) : Prop :=
  r = S754_zero s \/ exists m e, r = S754_finite s m e.

(** [n] is an integer nearest to [a / b], the even one at a tie. *)
Definition nearest_even (a b n : Z) : Prop :=
  2 * Z.abs (a - n * b) <= b
  /\ (2 * Z.abs (a - n * b) = b -> Z.even n = true).

(** [l] locates [A / B] between [m] and [m + 1]. *)
Definition loc_ok (m : Z) (l : location) (A B : Z) : Prop :=
  match l with
  | loc_Exact => A = m * B
  | loc_Inexact Lt => m * B < A /\ 2 * A < (2 * m + 1) * B
  | loc_Inexact Eq => 2 * A = (2 * m + 1) * B
  | loc_Inexact Gt => (2 * m + 1) * B < 2 * A /\ A < (m + 1) * B
  end.

(** [n] thousandths with the sign [s] are the magnitude of the finite float
    [x] rounded to three decimals, ties to even.  The magnitude
    [m * 2^e] is the quotient of [m * 2^max(e,0)] by [2^max(-e,0)]. *)
Definition thousandths_of (x : spec_float) (s : bool) (n : Z) : Prop :=
  match x with
  | S754_zero s' => s = s' /\ n = 0
  | S754_finite s' m e =>
      s = s'
      /\ nearest_even (Zpos m * 2 ^ Z.max e 0 * 1000) (2 ^ Z.max (- e) 0) n
  | _ => False
  end.

(** [n] thousandths written with a point and exactly three decimals. *)
Definition three_decimals (s : bool) (n : Z) : str :=
  sign_chars s ++ fmt_d (n / 1000) ++ u "."
  ++ [digit_char (n mod 1000 / 100); digit_char (n mod 1000 / 10 mod 10);
      digit_char (n mod 10)].

(** The amounts of the examples: [123.456], [99.9999], [100.0], [0.0] and
    [float('inf')]. *)
Definition amount_123_456 : float := mkfloat (float_literal 123456 3) eq_refl.

Definition amount_99_9999 : float := mkfloat (float_literal 999999 4) eq_refl.

Definition amount_100 : float := mkfloat (float_literal 1000 1) eq_refl.

Definition amount_zero : float := mkfloat (S754_zero false) eq_refl.

Definition amount_inf : float := mkfloat (S754_infinity false) eq_refl.

(** A [BillingInfo] with its two dates given as literals. *)
Definition example_period (first_text last_text : string) (x : float)
  : BillingInfo :=
  mkBillingInfo (u first_text) (u last_text) x.

(* ===================================================================== *)
(** * [json.dumps] *)
(* ===================================================================== *)

(** The values [LineNotifier.send] serialises: strings, lists and
    dictionaries with string keys, in the order of insertion. *)
Local Unset Elimination Schemes.

Inductive json :=
| JStr (s : str)
| JList (l : list json)
| JObj (members : list (str * json)).

Local Set Elimination Schemes.

Definition hex_digit (k : Z) : char := if k <? 10 then 48 + k else 87 + k.

(** ['{0:04x}'.format(n)] for [n] below [0x10000]. *)
Definition hex4 (n : Z) : str :=
  [hex_digit (n / 4096 mod 16); hex_digit (n / 256 mod 16);
   hex_digit (n / 16 mod 16); hex_digit (n mod 16)].

(** What [encode_basestring_ascii] puts for one character: the quote, the
    backslash and everything outside [' '..'~'] are escaped, characters
    above [0xFFFF] as a surrogate pair. *)
Definition escape_char (c : char) : str :=
  if c =? 34 then [92; 34]
  else if c =? 92 then [92; 92]
  else if c =? 10 then [92; 110]
  else if c =? 13 then [92; 114]
  else if c =? 9 then [92; 116]
  else if c =? 8 then [92; 98]
  else if c =? 12 then [92; 102]
  else if (32 <=? c) && (c <=? 126) then [c]
  else if c <? 65536 then [92; 117] ++ hex4 c
  else
    let n := c - 65536 in
    let s1 := Z.lor 55296 (Z.land (Z.shiftr n 10) 1023) in
    let s2 := Z.lor 56320 (Z.land n 1023) in
    [92; 117] ++ hex4 s1 ++ [92; 117] ++ hex4 s2.

Definition encode_basestring_ascii (s : str) : str :=
  [34] ++ flat_map escape_char s ++ [34].

(** [json.dumps(v)] with its defaults: ASCII only, [', '] between items and
    [': '] after a key. *)
Fixpoint dumps (v : json) : str :=
  match v with
  | JStr s => encode_basestring_ascii s
  | JList l =>
      u "["
      ++ (fix items (l : list json) : str :=
            match l with
            | [] => []
            | x :: r =>
                match r with
                | [] => dumps x
                | _ :: _ => dumps x ++ u ", " ++ items r
                end
            end) l
      ++ u "]"
  | JObj members =>
      u "{"
      ++ (fix items (l : list (str * json)) : str :=
            match l with
            | [] => []
            | kv :: r =>
                match r with
                | [] => encode_basestring_ascii (fst kv) ++ u ": " ++ dumps (snd kv)
                | _ :: _ =>
                    encode_basestring_ascii (fst kv) ++ u ": " ++ dumps (snd kv)
                    ++ u ", " ++ items r
                end
            end) members
      ++ u "}"
  end.

(* ===================================================================== *)
(** * [LineNotifier] *)
(* ===================================================================== *)

(** The arguments of [requests.post]; the URL is [None] when the
    environment does not set it. *)
Record request := mkrequest {
  req_url : option str;
  req_headers : list (str * str);
  req_timeout : Z;
  req_data : str
}.

(** An exception of the HTTP library: a [RequestException], which [send]
    catches, or another one. *)
Inductive raised := RequestException | OtherException.

(** What [requests.post] gives: it raises, or it returns a response with a
    status code, whose [json()] returns or raises. *)
Inductive post_outcome :=
| PostRaised (e : raised)
| PostResponse (status_code : Z) (json_raised : option raised).

Class HttpClient (W : Type) := {
  requests_post : request -> W -> post_outcome * W
}.

Definition line_headers (credentials : LineCredentials) : list (str * str) :=
  [(u "Authorization", u "Bearer " ++ access_token credentials);
   (u "Content-Type", u "application/json")].

Definition line_data (credentials : LineCredentials) (message : str) : json :=
  JObj [(u "to", JStr (channel_id credentials));
        (u "messages",
         JList [JObj [(u "type", JStr (u "text")); (u "text", JStr message)]])].

Definition line_request (credentials : LineCredentials) (api_url : option str)
    (message : str) : request :=
  mkrequest api_url (line_headers credentials) 10
    (dumps (line_data credentials message)).

(** [LineNotifier(credentials, api_url).send(message)]: [Some b] when it
    returns [b], [None] when an exception that is not a
    [RequestException] leaves it. *)
Definition LineNotifier_send {W : Type} {http : HttpClient W}
    (credentials : LineCredentials) (api_url : option str) (message : str)
    (w : W) : option bool * W :=
  let '(outcome, w') :=
    requests_post (line_request credentials api_url message) w in
  match outcome with
  | PostRaised RequestException => (Some false, w')
  | PostRaised OtherException => (None, w')
  | PostResponse status_code None => (Some (status_code =? 200), w')
  | PostResponse _ (Some RequestException) => (Some false, w')
  | PostResponse _ (Some OtherException) => (None, w')
  end.

(* ===================================================================== *)
(** * Reading a JSON text *)
(* ===================================================================== *)

Definition hex_val (c : char) : option Z :=
  if (48 <=? c) && (c <=? 57) then Some (c - 48)
  else if (97 <=? c) && (c <=? 102) then Some (c - 87)
  else if (65 <=? c) && (c <=? 70) then Some (c - 55)
  else None.

Definition read_hex4 (s : str) : option (Z * str) :=
  match s with
  | a :: b :: c :: d :: r =>
      match hex_val a, hex_val b, hex_val c, hex_val d with
      | Some x3, Some x2, Some x1, Some x0 =>
          Some (4096 * x3 + 256 * x2 + 16 * x1 + x0, r)
      | _, _, _, _ => None
      end
  | _ => None
  end.

Definition simple_escape (e : char) : option char :=
  if e =? 34 then Some 34
  else if e =? 92 then Some 92
  else if e =? 47 then Some 47
  else if e =? 98 then Some 8
  else if e =? 102 then Some 12
  else if e =? 110 then Some 10
  else if e =? 114 then Some 13
  else if e =? 116 then Some 9
  else None.

(** The string of a JSON text after its opening quote, as a JSON reader
    takes it (RFC 8259): up to the closing quote, escapes resolved, an
    escaped high surrogate joined with the escaped low surrogate after
    it, no control character; the string and the text left. *)
Fixpoint scanstring (fuel : nat) (s : str) : option (str * str) :=
  match fuel with
  | O => None
  | S fuel =>
      match s with
      | [] => None
      | c :: r =>
          if c =? 34 then Some ([], r)
          else if c =? 92 then
            match r with
            | [] => None
            | e :: r1 =>
                if e =? 117 then
                  match read_hex4 r1 with
                  | None => None
                  | Some (n, r2) =>
                      let single :=
                        match scanstring fuel r2 with
                        | Some (t, rest) => Some (n :: t, rest)
                        | None => None
                        end in
                      if (55296 <=? n) && (n <=? 56319) then
                        match r2 with
                        | 92 :: 117 :: r3 =>
                            match read_hex4 r3 with
                            | None => None
                            | Some (n2, r4) =>
                                if (56320 <=? n2) && (n2 <=? 57343) then
                                  match scanstring fuel r4 with
                                  | Some (t, rest) =>
                                      Some (65536
                                            + Z.lor (Z.shiftl (n - 55296) 10)
                                                (n2 - 56320) :: t, rest)
                                  | None => None
                                  end
                                else single
                            end
                        | _ => single
                        end
                      else single
                  end
                else
                  match simple_escape e with
                  | None => None
                  | Some x =>
                      match scanstring fuel r1 with
                      | Some (t, rest) => Some (x :: t, rest)
                      | None => None
                      end
                  end
            end
          else if c <? 32 then None
          else
            match scanstring fuel r with
            | Some (t, rest) => Some (c :: t, rest)
            | None => None
            end
      end
  end.

(** A string literal at the head of a text. *)
Definition read_string (s : str) : option (str * str) :=
  match s with
  | 34 :: r => scanstring (List.length r) r
  | _ => None
  end.

(** The text after a literal. *)
Fixpoint expect (lit s : str) : option str :=
  match lit, s with
  | [], _ => Some s
  | x :: lit', y :: s' => if x =? y then expect lit' s' else None
  | _ :: _, [] => None
  end.

(** The string literal [key] at the head of a text. *)
Definition expect_string (key s : str) : option str :=
  match read_string s with
  | Some (t, r) => if str_eqb t key then Some r else None
  | None => None
  end.

Definition obind {A B} (c : option A) (k : A -> option B) : option B :=
  match c with
  | Some a => k a
  | None => None
  end.

(** The receiver's reading of a text message: the object with [to] and a
    single text message; the channel and the text. *)
Definition read_text_message (body : str) : option (str * str) :=
  obind (expect (u "{") body) (fun s =>
  obind (expect_string (u "to") s) (fun s =>
  obind (expect (u ": ") s) (fun s =>
  obind (read_string s) (fun to =>
  obind (expect (u ", ") (snd to)) (fun s =>
  obind (expect_string (u "messages") s) (fun s =>
  obind (expect (u ": [{") s) (fun s =>
  obind (expect_string (u "type") s) (fun s =>
  obind (expect (u ": ") s) (fun s =>
  obind (expect_string (u "text") s) (fun s =>
  obind (expect (u ", ") s) (fun s =>
  obind (expect_string (u "text") s) (fun s =>
  obind (expect (u ": ") s) (fun s =>
  obind (read_string s) (fun text =>
  obind (expect (u "}]}") (snd text)) (fun s =>
  match s with
  | [] => Some (fst to, fst text)
  | _ :: _ => None
  end))))))))))))))).

(** Unicode scalar values: code points that are not surrogates. *)
Definition scalar_value (c : char) : Prop :=
  (0 <= c < 55296) \/ (57344 <= c <= 1114111).

(** Printable ASCII. *)
Definition printable (c : char) : Prop := 32 <= c <= 126.

(* ===================================================================== *)
(** * The texts of a date *)
(* ===================================================================== *)

(** The ordinal of a date, [d.toordinal()]. *)
Definition ordinal (d : date) : Z := ymd_to_ord (year d) (month d) (day d).

(** The ways to write a month: two digits, or one below ten. *)
Definition month_texts (m : Z) : list str :=
  fmt_0d 2 m :: (if m <? 10 then [fmt_d m] else []).

(** The ways to write a day: two digits, or below ten one digit, alone or
    after a blank. *)
Definition day_texts (d : Z) : list str :=
  fmt_0d 2 d :: (if d <? 10 then [fmt_d d; u " " ++ fmt_d d] else []).

Definition date_texts (d : date) : list str :=
  flat_map (fun tm =>
    map (fun td => fmt_0d 4 (year d) ++ u "-" ++ tm ++ u "-" ++ td)
      (day_texts (day d)))
    (month_texts (month d)).

(** The characters from [lo] to [hi]. *)
Definition chars_between (lo hi : char) : list char :=
  map (fun k => lo + Z.of_nat k) (seq 0 (Z.to_nat (hi - lo + 1))).

(** The texts an expression matches, with the ASCII digits for [\d]. *)
Fixpoint lang (r : regex) : list str :=
  match r with
  | Chr c => [[c]]
  | Range lo hi => map (fun c => [c]) (chars_between lo hi)
  | Digit => map (fun c => [c]) (chars_between 48 57)
  | Seq r1 r2 => flat_map (fun a => map (app a) (lang r2)) (lang r1)
  | Alt r1 r2 => lang r1 ++ lang r2
  end.

(* ===================================================================== *)
(** * [DynamoDbTokenRepository] *)
(* ===================================================================== *)

(** What the [try] of [_get_value] meets: an exception, from [get_item] or
    from the deserialiser; a response without ['Item'], which is a
    [KeyError]; or an item, deserialised into a dictionary.  The settings
    table holds strings (type [S]), as the annotations of [_get_value] and
    of [LineCredentials] say; the keys of a dictionary are distinct. *)
Inductive get_item_outcome :=
| GetItemRaised
| GetItemResponse (item : option (list (str * str))).

Class DynamoDbClient (W : Type) := {
  get_item : str -> str -> W -> get_item_outcome * W
}.

(** [item.get(key)]. *)
Fixpoint dict_get (key : str) (item : list (str * str)) : option str :=
  match item with
  | [] => None
  | (k, v) :: r => if str_eqb k key then Some v else dict_get key r
  end.

Definition _get_value {W : Type} {client : DynamoDbClient W}
    (table_name key : str) (w : W) : option str * W :=
  let '(outcome, w') := get_item table_name key w in
  match outcome with
  | GetItemRaised => (None, w')
  | GetItemResponse None => (None, w')
  | GetItemResponse (Some item) => (dict_get (u "value") item, w')
  end.

(** [DynamoDbTokenRepository(table_name).get_credentials()].  [None] and
    the empty string are false in [if channel_id and access_token]. *)
Definition DynamoDbTokenRepository_get_credentials {W : Type}
    {client : DynamoDbClient W} (table_name : str) (w : W)
  : option LineCredentials * W :=
  let '(channel_id, w1) := _get_value table_name (u "line_channel_id") w in
  let '(access_token, w2) := _get_value table_name (u "line_access_token") w1 in
  match channel_id, access_token with
  | Some (c :: cs), Some (a :: ts) =>
      (Some (mkLineCredentials (c :: cs) (a :: ts)), w2)
  | _, _ => (None, w2)
  end.

(** [DynamoDbTokenRepository] implements [TokenRepositoryBase]. *)
Definition DynamoDbTokenRepository {W : Type} (client : DynamoDbClient W)
    (table_name : str) : TokenRepositoryBase W :=
  {| get_credentials := DynamoDbTokenRepository_get_credentials table_name |}.

(* ===================================================================== *)
(** * The collaborators of the unit tests *)
(* ===================================================================== *)

(** [Mock(spec=CostCalculatorBase)] with the return value of
    [get_billing_info] set; a mock leaves the world as it is. *)
Definition mock_calculator (W : Type) (return_value : option BillingInfo)
  : CostCalculatorBase W :=
  {| get_billing_info := fun w => (return_value, w) |}.

(** [Mock(spec=TokenRepositoryBase)] with the return value of
    [get_credentials] set. *)
Definition mock_repository (W : Type) (return_value : option LineCredentials)
  : TokenRepositoryBase W :=
  {| get_credentials := fun w => (return_value, w) |}.

(** [Mock(spec=MessageFormatterBase)] with the return value of [format]
    set. *)
Definition mock_formatter (W : Type) (return_value : str)
  : MessageFormatterBase W :=
  {| format_message := fun _ w => (return_value, w) |}.

(** [LineNotifier.send] patched with a return value. *)
Definition mock_send (W : Type) (return_value : bool) : NotifierBase W :=
  {| send := fun _ _ w => (return_value, w) |}.

(** The credentials and the billing information of the service tests. *)
Definition test_credentials : LineCredentials :=
  mkLineCredentials (u "test_channel") (u "test_token").

Definition test_billing_info : BillingInfo :=
  example_period "2025-11-01" "2025-11-22" amount_123_456.

(** A settings table with the rows given, which never fails: a row is the
    value of the key attribute and the item. *)
Definition settings_table (rows : list (str * list (str * str)))
  : DynamoDbClient unit :=
  {| get_item := fun _ key w =>
       (GetItemResponse
          (match find (fun row => str_eqb (fst row) key) rows with
           | Some row => Some (snd row)
           | None => None
           end), w) |}.

Definition test_settings : list (str * list (str * str)) :=
  [(u "line_channel_id",
    [(u "type", u "line_channel_id"); (u "value", u "test_channel")]);
   (u "line_access_token",
    [(u "type", u "line_access_token"); (u "value", u "test_token")])].

(* ===================================================================== *)
(** * Strings and decimal rendering: lemmas *)
(* ===================================================================== *)

Lemma str_eqb_eq (a b : str) : str_eqb a b = true <-> a = b.
Proof.
  revert b; induction a as [|x a IH]; intros [|y b]; simpl; split;
    try congruence; try reflexivity.
  - intros H. apply andb_true_iff in H as [Hx Hr].
    apply Z.eqb_eq in Hx. apply IH in Hr. congruence.
  - intros H. injection H as -> ->. rewrite Z.eqb_refl. simpl.
    now apply IH.
Qed.

Lemma str_eqb_refl (a : str) : str_eqb a a = true.
Proof. now apply str_eqb_eq. Qed.

Lemma str_eqb_app_l (p a b : str) : str_eqb (p ++ a) (p ++ b) = str_eqb a b.
Proof.
  induction p as [|x p IH]; simpl; [reflexivity|].
  now rewrite Z.eqb_refl, IH.
Qed.

Lemma str_leb_app_l (p a b : str) : str_leb (p ++ a) (p ++ b) = str_leb a b.
Proof.
  induction p as [|x p IH]; simpl; [reflexivity|].
  now rewrite Z.ltb_irrefl, Z.eqb_refl, IH.
Qed.

Lemma str_leb_refl (a : str) : str_leb a a = true.
Proof.
  induction a as [|x a IH]; simpl; [reflexivity|].
  now rewrite Z.eqb_refl, IH, orb_true_r.
Qed.

Lemma below_spec (n : nat) (p : Z -> bool) :
  below n p = true -> forall k, 0 <= k < Z.of_nat n -> p k = true.
Proof.
  induction n as [|n IH]; intros H k Hk; [lia|].
  simpl in H. apply andb_true_iff in H as [H0 H1].
  destruct (Z.eq_dec k (Z.of_nat n)) as [->|Hne]; [exact H0|].
  apply IH; [exact H1|lia].
Qed.

Ltac by_enumeration bound k H :=
  pattern k;
  match goal with
  | |- (fun x => ?a = ?b) _ =>
      generalize k H;
      let p := constr:(fun x : Z => str_eqb a b) in
      let Hb := fresh "Hb" in
      assert (Hb : below bound p = true) by (vm_compute; reflexivity);
      let k' := fresh "k" in
      let H' := fresh "H" in
      intros k' H';
      apply str_eqb_eq;
      exact (below_spec bound p Hb k' H')
  end.

Lemma fmt_0d_2 (k : Z) :
  0 <= k < 100 -> fmt_0d 2 k = [digit_char (k / 10); digit_char (k mod 10)].
Proof. intros H. by_enumeration (Z.to_nat 100) k H. Qed.

Lemma fmt_0d_3 (k : Z) :
  0 <= k < 1000 ->
  fmt_0d 3 k = [digit_char (k / 100); digit_char (k / 10 mod 10);
                digit_char (k mod 10)].
Proof. intros H. by_enumeration (Z.to_nat 1000) k H. Qed.

Lemma fmt_0d_4 (k : Z) :
  0 <= k < 10000 ->
  fmt_0d 4 k = [digit_char (k / 1000); digit_char (k / 100 mod 10);
                digit_char (k / 10 mod 10); digit_char (k mod 10)].
Proof. intros H. by_enumeration (Z.to_nat 10000) k H. Qed.

Lemma digit_char_range (k : Z) :
  0 <= k <= 9 -> 48 <= digit_char k <= 57.
Proof. unfold digit_char; lia. Qed.

Lemma ascii_decimal_digit (k : Z) :
  0 <= k <= 9 -> ascii_decimal (digit_char k) = Some k.
Proof.
  intros H. unfold ascii_decimal, digit_char.
  replace (48 <=? 48 + k) with true by (symmetry; apply Z.leb_le; lia).
  replace (48 + k <=? 57) with true by (symmetry; apply Z.leb_le; lia).
  cbn [andb]. f_equal. lia.
Qed.

(* ===================================================================== *)
(** * The matcher: lemmas *)
(* ===================================================================== *)

Lemma ascii_decimal_extends : extends_ascii ascii_decimal.
Proof. intros c _. reflexivity. Qed.

Lemma flat_map_ext_in {A B} (f g : A -> list B) (l : list A) :
  (forall a, In a l -> f a = g a) -> flat_map f l = flat_map g l.
Proof.
  induction l as [|a l IH]; intros H; simpl; [reflexivity|].
  rewrite (H a (or_introl eq_refl)), IH; [reflexivity|].
  intros b Hb. apply H. now right.
Qed.

Lemma one_char_split (p : char -> bool) (s : str) (m : str * str) :
  In m (one_char p s) -> s = fst m ++ snd m.
Proof.
  destruct s as [|c r]; simpl; [tauto|].
  destruct (p c); simpl; [|tauto].
  intros [<-|[]]. reflexivity.
Qed.

Lemma run_split (nd : char -> option Z) (r : regex) :
  forall (s : str) (m : str * str), In m (run nd r s) -> s = fst m ++ snd m.
Proof.
  induction r as [c|lo hi| |r1 IH1 r2 IH2|r1 IH1 r2 IH2]; intros s m Hm;
    simpl in Hm.
  - eapply one_char_split; eassumption.
  - eapply one_char_split; eassumption.
  - eapply one_char_split; eassumption.
  - apply in_flat_map in Hm as [m1 [H1 Hm]].
    apply in_map_iff in Hm as [m2 [<- H2]]. simpl.
    rewrite (IH1 _ _ H1), (IH2 _ _ H2) at 1. now rewrite app_assoc.
  - apply in_app_or in Hm as [Hm|Hm]; eauto.
Qed.

Lemma is_ascii_app (a b : str) : is_ascii (a ++ b) <-> is_ascii a /\ is_ascii b.
Proof. apply Forall_app. Qed.

Lemma run_is_ascii (nd : char -> option Z) (r : regex) (s : str) (m : str * str) :
  is_ascii s -> In m (run nd r s) -> is_ascii (fst m) /\ is_ascii (snd m).
Proof.
  intros Hs Hm. apply run_split in Hm. rewrite Hm in Hs.
  now apply is_ascii_app.
Qed.

Section AsciiText.

Variable nd : char -> option Z.
Hypothesis nd_ascii : extends_ascii nd.

Lemma one_char_digit_ascii (s : str) :
  is_ascii s ->
  one_char (fun x => match nd x with Some _ => true | None => false end) s
  = one_char (fun x => match ascii_decimal x with Some _ => true | None => false end) s.
Proof.
  destruct s as [|c r]; simpl; [reflexivity|].
  intros H. inversion H; subst. now rewrite nd_ascii.
Qed.

Lemma run_ascii (r : regex) :
  forall s, is_ascii s -> run nd r s = run ascii_decimal r s.
Proof.
  induction r as [c|lo hi| |r1 IH1 r2 IH2|r1 IH1 r2 IH2]; intros s Hs; simpl.
  - reflexivity.
  - reflexivity.
  - now apply one_char_digit_ascii.
  - rewrite IH1 by assumption. apply flat_map_ext_in. intros m1 H1.
    rewrite IH2; [reflexivity|].
    now apply (run_is_ascii ascii_decimal r1 s m1).
  - now rewrite IH1, IH2.
Qed.

Lemma strptime_match_ascii (s : str) :
  is_ascii s -> strptime_match nd s = strptime_match ascii_decimal s.
Proof.
  intros Hs. unfold strptime_match. f_equal.
  rewrite run_ascii by assumption.
  apply flat_map_ext_in. intros gY HY.
  apply (run_is_ascii _ _ _ _ Hs) in HY as [_ H1].
  apply flat_map_ext_in. intros sep1 Hsep1.
  apply (run_is_ascii _ _ _ _ H1) in Hsep1 as [_ H2].
  rewrite run_ascii by assumption.
  apply flat_map_ext_in. intros gm Hgm.
  apply (run_is_ascii _ _ _ _ H2) in Hgm as [_ H3].
  apply flat_map_ext_in. intros sep2 Hsep2.
  apply (run_is_ascii _ _ _ _ H3) in Hsep2 as [_ H4].
  now rewrite run_ascii.
Qed.

Lemma digits_value_ascii (s : str) :
  forall acc, is_ascii s ->
  digits_value nd acc s = digits_value ascii_decimal acc s.
Proof.
  induction s as [|c r IH]; intros acc Hs; simpl; [reflexivity|].
  inversion Hs; subst. rewrite nd_ascii by assumption.
  destruct (ascii_decimal c); [now apply IH|reflexivity].
Qed.

Lemma lstrip_is_ascii (s : str) : is_ascii s -> is_ascii (lstrip s).
Proof.
  induction s as [|c r IH]; intros Hs; simpl; [constructor|].
  destruct (c =? ord " "); [|assumption].
  inversion Hs; subst. now apply IH.
Qed.

Lemma py_int_ascii (s : str) :
  is_ascii s -> py_int nd s = py_int ascii_decimal s.
Proof.
  intros Hs. unfold py_int.
  destruct (lstrip s) as [|c r] eqn:E; [reflexivity|].
  rewrite digits_value_ascii; [reflexivity|].
  rewrite <- E. now apply lstrip_is_ascii.
Qed.

Lemma strptime_match_split (s gY gm gd rest : str) :
  strptime_match ascii_decimal s = Some (gY, gm, gd, rest) ->
  exists sep1 sep2, s = gY ++ sep1 ++ gm ++ sep2 ++ gd ++ rest.
Proof.
  unfold strptime_match. intros H.
  assert (Hin : In (gY, gm, gd, rest)
    (flat_map (fun gY =>
     flat_map (fun sep1 =>
     flat_map (fun gm =>
     flat_map (fun sep2 =>
     map (fun gd => (fst gY, fst gm, fst gd, snd gd))
       (run ascii_decimal re_d (snd sep2)))
       (run ascii_decimal (Chr (ord "-")) (snd gm)))
       (run ascii_decimal re_m (snd sep1)))
       (run ascii_decimal (Chr (ord "-")) (snd gY)))
       (run ascii_decimal re_Y s))).
  { destruct (flat_map _ _) as [|x l]; simpl in H; [discriminate|].
    injection H as ->. now left. }
  clear H.
  apply in_flat_map in Hin as [mY [HY Hin]].
  apply in_flat_map in Hin as [m1 [H1 Hin]].
  apply in_flat_map in Hin as [mm [Hm Hin]].
  apply in_flat_map in Hin as [m2 [H2 Hin]].
  apply in_map_iff in Hin as [md [E Hd]].
  injection E as <- <- <- <-.
  apply run_split in HY, H1, Hm, H2, Hd.
  exists (fst m1), (fst m2). congruence.
Qed.

(** On ASCII text the parser only consults the ASCII part of the table. *)
Lemma strptime_ascii (s : str) :
  is_ascii s -> strptime nd s = strptime ascii_decimal s.
Proof.
  intros Hs. unfold strptime. rewrite strptime_match_ascii by assumption.
  destruct (strptime_match ascii_decimal s) as [[[[gY gm] gd] rest]|] eqn:E;
    [|reflexivity].
  destruct rest; [|reflexivity].
  apply strptime_match_split in E as [sep1 [sep2 E]].
  rewrite E in Hs.
  repeat (apply is_ascii_app in Hs as [? Hs]).
  now rewrite !py_int_ascii.
Qed.

End AsciiText.

(* ===================================================================== *)
(** * Dates: lemmas *)
(* ===================================================================== *)

Lemma days_in_month_bounds (y m : Z) :
  1 <= m <= 12 -> 28 <= days_in_month y m <= 31.
Proof.
  intros H. unfold days_in_month.
  assert (C : m = 1 \/ m = 2 \/ m = 3 \/ m = 4 \/ m = 5 \/ m = 6 \/ m = 7
              \/ m = 8 \/ m = 9 \/ m = 10 \/ m = 11 \/ m = 12) by lia.
  destruct (is_leap y);
    repeat (destruct C as [->|C]; [simpl; lia|]); subst; simpl; lia.
Qed.

Lemma valid_date_bounds (d : date) :
  valid_date d = true ->
  1 <= year d <= 9999 /\ 1 <= month d <= 12
  /\ 1 <= day d <= days_in_month (year d) (month d) /\ day d <= 31.
Proof.
  unfold valid_date, MINYEAR, MAXYEAR. intros H.
  repeat (apply andb_true_iff in H as [H ?]).
  repeat match goal with
         | H : (_ <=? _) = true |- _ => apply Z.leb_le in H
         end.
  assert (1 <= month d <= 12) as Hm by lia.
  pose proof (days_in_month_bounds (year d) (month d) Hm). lia.
Qed.

Lemma valid_date_intro (y m d : Z) :
  1 <= y <= 9999 -> 1 <= m <= 12 -> 1 <= d <= days_in_month y m ->
  valid_date (mkdate y m d) = true.
Proof.
  intros Hy Hm Hd. unfold valid_date, MINYEAR, MAXYEAR. simpl.
  repeat (apply andb_true_iff; split); apply Z.leb_le; lia.
Qed.

Lemma check_date_args_valid (d : date) :
  valid_date d = true -> check_date_args (year d) (month d) (day d) = Ok d.
Proof.
  intros H. unfold check_date_args. destruct d as [y m dd]. simpl in *.
  now rewrite H.
Qed.

Lemma dash : u "-" = [45].
Proof. reflexivity. Qed.

Lemma isoformat_eq (d : date) :
  isoformat d
  = fmt_0d 4 (year d) ++ [45] ++ fmt_0d 2 (month d) ++ [45] ++ fmt_0d 2 (day d).
Proof. reflexivity. Qed.

Lemma is_ascii_digits (l : list Z) :
  Forall (fun k => 0 <= k <= 9) l -> is_ascii (map digit_char l).
Proof.
  induction 1 as [|k l Hk _ IH]; simpl; constructor; [|exact IH].
  unfold digit_char; lia.
Qed.

Lemma div_digit (k a b : Z) :
  0 < a -> 0 <= k < a * 10 -> 0 <= k / a mod 10 <= 9.
Proof.
  intros Ha Hk. pose proof (Z.mod_pos_bound (k / a) 10). lia.
Qed.

Lemma is_ascii_fmt_0d_2 (k : Z) : 0 <= k < 100 -> is_ascii (fmt_0d 2 k).
Proof.
  intros H. rewrite fmt_0d_2 by assumption.
  apply (is_ascii_digits [k / 10; k mod 10]).
  repeat constructor;
    first [apply Z.div_pos; lia | apply Z.mod_pos_bound; lia
          | pose proof (Z.mod_pos_bound k 10); lia
          | apply Z.lt_succ_r, Z.div_lt_upper_bound; lia].
Qed.

Lemma is_ascii_fmt_0d_4 (k : Z) : 0 <= k < 10000 -> is_ascii (fmt_0d 4 k).
Proof.
  intros H. rewrite fmt_0d_4 by assumption.
  apply (is_ascii_digits [k / 1000; k / 100 mod 10; k / 10 mod 10; k mod 10]).
  repeat constructor;
    first [apply Z.div_pos; lia
          | pose proof (Z.mod_pos_bound (k / 100) 10); lia
          | pose proof (Z.mod_pos_bound (k / 10) 10); lia
          | pose proof (Z.mod_pos_bound k 10); lia
          | apply Z.lt_succ_r, Z.div_lt_upper_bound; lia].
Qed.

Lemma is_ascii_isoformat (d : date) :
  valid_date d = true -> is_ascii (isoformat d).
Proof.
  intros H. apply valid_date_bounds in H as (Hy & Hm & Hd & Hd').
  rewrite isoformat_eq.
  apply is_ascii_app; split; [apply is_ascii_fmt_0d_4; lia|].
  apply is_ascii_app; split; [repeat constructor|].
  apply is_ascii_app; split; [apply is_ascii_fmt_0d_2; lia|].
  apply is_ascii_app; split; [repeat constructor|].
  apply is_ascii_fmt_0d_2; lia.
Qed.

(* ===================================================================== *)
(** * Parsing what [isoformat] prints *)
(* ===================================================================== *)

Lemma map_flat_map_comm {A B C} (f : B -> C) (g : A -> list B) (l : list A) :
  map f (flat_map g l) = flat_map (fun x => map f (g x)) l.
Proof.
  induction l as [|a l IH]; simpl; [reflexivity|].
  now rewrite map_app, IH.
Qed.

Lemma strptime_match_md (s : str) :
  strptime_match ascii_decimal s
  = hd_error
      (flat_map (fun gY =>
         map (fun t => (fst gY, fst (fst t), snd (fst t), snd t))
           (md_candidates (snd gY)))
         (run ascii_decimal re_Y s)).
Proof.
  unfold strptime_match, md_candidates. f_equal.
  apply flat_map_ext. intros gY.
  rewrite map_flat_map_comm. apply flat_map_ext. intros sep1.
  rewrite map_flat_map_comm. apply flat_map_ext. intros gm.
  rewrite map_flat_map_comm. apply flat_map_ext. intros sep2.
  rewrite map_map. reflexivity.
Qed.

Lemma one_char_digit (k : Z) (r : str) :
  0 <= k <= 9 ->
  one_char (fun x => match ascii_decimal x with Some _ => true | None => false end)
    (digit_char k :: r)
  = [([digit_char k], r)].
Proof. intros H. simpl. now rewrite ascii_decimal_digit. Qed.

Lemma four_digits (k : Z) :
  0 <= k < 10000 ->
  0 <= k / 1000 <= 9 /\ 0 <= k / 100 mod 10 <= 9
  /\ 0 <= k / 10 mod 10 <= 9 /\ 0 <= k mod 10 <= 9.
Proof.
  intros H.
  pose proof (Z.mod_pos_bound (k / 100) 10).
  pose proof (Z.mod_pos_bound (k / 10) 10).
  pose proof (Z.mod_pos_bound k 10).
  assert (0 <= k / 1000) by (apply Z.div_pos; lia).
  assert (k / 1000 < 10) by (apply Z.div_lt_upper_bound; lia).
  lia.
Qed.

Lemma run_re_Y (y : Z) (rest : str) :
  0 <= y < 10000 ->
  run ascii_decimal re_Y (fmt_0d 4 y ++ rest) = [(fmt_0d 4 y, rest)].
Proof.
  intros H. rewrite fmt_0d_4 by assumption.
  destruct (four_digits y H) as (H3 & H2 & H1 & H0).
  unfold re_Y. cbn [run]. rewrite <- !app_comm_cons, app_nil_l.
  rewrite (one_char_digit _ _ H3). cbn [flat_map fst snd app].
  rewrite (one_char_digit _ _ H2). cbn [flat_map fst snd app].
  rewrite (one_char_digit _ _ H1). cbn [flat_map fst snd app].
  rewrite (one_char_digit _ _ H0). reflexivity.
Qed.

Lemma md_candidates_ok (m d : Z) :
  1 <= m <= 12 -> 1 <= d <= 31 ->
  hd_error (md_candidates ([45] ++ fmt_0d 2 m ++ [45] ++ fmt_0d 2 d))
  = Some (fmt_0d 2 m, fmt_0d 2 d, []).
Proof.
  intros Hm Hd.
  assert (Hall : below 13 (fun m => below 32 (fun d =>
            (m <? 1) || (d <? 1) || md_check m d)) = true)
    by (vm_compute; reflexivity).
  pose proof (below_spec _ _ Hall m ltac:(simpl; lia)) as H1.
  pose proof (below_spec _ _ H1 d ltac:(simpl; lia)) as H2.
  replace (m <? 1) with false in H2 by (symmetry; apply Z.ltb_ge; lia).
  replace (d <? 1) with false in H2 by (symmetry; apply Z.ltb_ge; lia).
  simpl in H2. unfold md_check in H2.
  destruct (hd_error _) as [[[gm gd] rest]|]; [|discriminate].
  apply andb_true_iff in H2 as [H2 Hr]. apply andb_true_iff in H2 as [Hgm Hgd].
  apply str_eqb_eq in Hgm, Hgd, Hr. now subst.
Qed.

Lemma result_Z_is_eq (r : result Z) (k : Z) : result_Z_is r k = true -> r = Ok k.
Proof.
  destruct r; simpl; [|discriminate]. intros H. apply Z.eqb_eq in H. now subst.
Qed.

Lemma py_int_fmt_0d_4 (k : Z) :
  0 <= k < 10000 -> py_int ascii_decimal (fmt_0d 4 k) = Ok k.
Proof.
  intros H. apply result_Z_is_eq.
  assert (Hall : below (Z.to_nat 10000)
            (fun k => result_Z_is (py_int ascii_decimal (fmt_0d 4 k)) k) = true)
    by (vm_compute; reflexivity).
  exact (below_spec _ _ Hall k H).
Qed.

Lemma py_int_fmt_0d_2 (k : Z) :
  0 <= k < 100 -> py_int ascii_decimal (fmt_0d 2 k) = Ok k.
Proof.
  intros H. apply result_Z_is_eq.
  assert (Hall : below (Z.to_nat 100)
            (fun k => result_Z_is (py_int ascii_decimal (fmt_0d 2 k)) k) = true)
    by (vm_compute; reflexivity).
  exact (below_spec _ _ Hall k H).
Qed.

(** [strptime] reads back the date [isoformat] printed, at midnight. *)
Lemma strptime_isoformat (nd : char -> option Z) (d : date) :
  extends_ascii nd -> valid_date d = true ->
  strptime nd (isoformat d) = Ok (mkdatetime d 0).
Proof.
  intros Hnd Hv.
  rewrite (strptime_ascii nd Hnd) by now apply is_ascii_isoformat.
  pose proof (valid_date_bounds d Hv) as (Hy & Hm & Hd & Hd').
  unfold strptime. rewrite strptime_match_md, isoformat_eq.
  rewrite run_re_Y by lia. cbn [flat_map fst snd].
  rewrite app_nil_r.
  destruct (md_candidates _) as [|t l] eqn:E.
  - pose proof (md_candidates_ok (month d) (day d) Hm ltac:(lia)) as Hc.
    rewrite E in Hc. discriminate.
  - pose proof (md_candidates_ok (month d) (day d) Hm ltac:(lia)) as Hc.
    rewrite E in Hc. simpl in Hc. injection Hc as ->.
    cbn [map hd_error fst snd].
    rewrite py_int_fmt_0d_4 by lia. cbn [bind].
    rewrite !py_int_fmt_0d_2 by lia. cbn [bind].
    rewrite check_date_args_valid by assumption. reflexivity.
Qed.

Lemma fmt_0d_2_inj (a b : Z) :
  0 <= a < 100 -> 0 <= b < 100 -> fmt_0d 2 a = fmt_0d 2 b -> a = b.
Proof.
  intros Ha Hb. rewrite !fmt_0d_2 by assumption.
  intros H. injection H as H1 H0. unfold digit_char in H1, H0.
  pose proof (Z.div_mod a 10). pose proof (Z.div_mod b 10). lia.
Qed.

Lemma str_eqb_neq (a b : str) : a <> b -> str_eqb a b = false.
Proof.
  intros H. destruct (str_eqb a b) eqn:E; [|reflexivity].
  apply str_eqb_eq in E. contradiction.
Qed.

(* ===================================================================== *)
(** * The calendar: lemmas *)
(* ===================================================================== *)

Lemma is_digit_digit_char (k : Z) : 0 <= k <= 9 -> is_digit (digit_char k) = true.
Proof.
  intros H. unfold is_digit, digit_char.
  apply andb_true_iff; split; apply Z.leb_le; lia.
Qed.

Lemma two_digits (k : Z) :
  0 <= k < 100 -> 0 <= k / 10 <= 9 /\ 0 <= k mod 10 <= 9.
Proof.
  intros H. pose proof (Z.mod_pos_bound k 10).
  assert (0 <= k / 10) by (apply Z.div_pos; lia).
  assert (k / 10 < 10) by (apply Z.div_lt_upper_bound; lia).
  lia.
Qed.

Lemma canonical_text_isoformat (d : date) :
  valid_date d = true -> canonical_text (isoformat d) = true.
Proof.
  intros H. apply valid_date_bounds in H as (Hy & Hm & Hd & Hd').
  rewrite isoformat_eq, fmt_0d_4, !fmt_0d_2 by lia.
  destruct (four_digits (year d)) as (? & ? & ? & ?); [lia|].
  destruct (two_digits (month d)) as (? & ?); [lia|].
  destruct (two_digits (day d)) as (? & ?); [lia|].
  cbn [app canonical_text].
  rewrite !is_digit_digit_char by assumption. reflexivity.
Qed.

(** The day count of the calendar moves back by one on [previous_day]. *)
Lemma days_before_next_month (y m : Z) :
  1 <= m < 12 ->
  days_before_month y m + days_in_month y m = days_before_month y (m + 1).
Proof.
  intros H. unfold days_before_month, days_in_month.
  assert (C : m = 1 \/ m = 2 \/ m = 3 \/ m = 4 \/ m = 5 \/ m = 6 \/ m = 7
              \/ m = 8 \/ m = 9 \/ m = 10 \/ m = 11) by lia.
  destruct (is_leap y);
    repeat (destruct C as [->|C]; [reflexivity|]); subst; reflexivity.
Qed.

Lemma days_before_year_next (y : Z) :
  1 <= y ->
  days_before_year (y + 1) = days_before_year y + days_before_month y 12 + 31.
Proof.
  intros H. unfold days_before_year, days_before_month, is_leap.
  replace (y + 1 - 1) with y by lia.
  change (nth (Z.to_nat 12) days_before_month_table 0) with 334.
  change (2 <? 12) with true. cbn [andb].
  destruct (y mod 4 =? 0) eqn:E4; destruct (y mod 100 =? 0) eqn:E100;
    destruct (y mod 400 =? 0) eqn:E400; cbn [andb orb negb];
    rewrite ?Z.eqb_eq, ?Z.eqb_neq in *;
    Z.div_mod_to_equations; lia.
Qed.

Lemma ymd_to_ord_previous_day (d : date) :
  valid_date d = true -> d <> date_min ->
  ymd_to_ord (year (previous_day d)) (month (previous_day d)) (day (previous_day d))
  = ymd_to_ord (year d) (month d) (day d) - 1.
Proof.
  intros Hv Hne. pose proof (valid_date_bounds d Hv) as (Hy & Hm & Hd & Hd').
  destruct d as [y m dd]. simpl in *. unfold previous_day, ymd_to_ord. simpl.
  destruct (dd =? 1) eqn:Ed.
  - apply Z.eqb_eq in Ed. subst dd.
    destruct (m =? 1) eqn:Em.
    + apply Z.eqb_eq in Em. subst m. simpl.
      assert (y <> 1) by (intros ->; now apply Hne).
      pose proof (days_before_year_next (y - 1) ltac:(lia)) as E.
      replace (y - 1 + 1) with y in E by lia.
      change (days_before_month y 1) with 0. lia.
    + apply Z.eqb_neq in Em. simpl.
      pose proof (days_before_next_month y (m - 1) ltac:(lia)) as E.
      replace (m - 1 + 1) with m in E by lia. lia.
  - simpl. lia.
Qed.

(* ===================================================================== *)
(** * One day back *)
(* ===================================================================== *)

Lemma previous_day_valid (d : date) :
  valid_date d = true -> d <> date_min -> valid_date (previous_day d) = true.
Proof.
  intros Hv Hne. pose proof (valid_date_bounds d Hv) as (Hy & Hm & Hd & Hd').
  destruct d as [y m dd]. simpl in *. unfold previous_day. simpl.
  destruct (dd =? 1) eqn:Ed.
  - apply Z.eqb_eq in Ed. subst dd.
    destruct (m =? 1) eqn:Em.
    + apply Z.eqb_eq in Em. subst m.
      assert (y <> 1) by (intros ->; now apply Hne).
      apply valid_date_intro; [lia|lia|].
      pose proof (days_in_month_bounds (y - 1) 12). 
      change (days_in_month (y - 1) 12) with 31. lia.
    + apply Z.eqb_neq in Em.
      pose proof (days_in_month_bounds y (m - 1)).
      apply valid_date_intro; lia.
  - apply Z.eqb_neq in Ed. apply valid_date_intro; lia.
Qed.

Lemma normalize_one_day_back (d : date) :
  valid_date d = true -> d <> date_min ->
  normalize_y_m_d (year d) (month d) (day d - 1) = Ok (previous_day d).
Proof.
  intros Hv Hne. pose proof (valid_date_bounds d Hv) as (Hy & Hm & Hd & Hd').
  destruct d as [y m dd]. simpl in *.
  unfold normalize_y_m_d, previous_day, MINYEAR, MAXYEAR. simpl.
  destruct (dd =? 1) eqn:Ed.
  - apply Z.eqb_eq in Ed. subst dd. simpl.
    destruct (m =? 1) eqn:Em.
    + apply Z.eqb_eq in Em. subst m. simpl.
      assert (y <> 1) by (intros ->; now apply Hne).
      replace (1 <=? y - 1) with true by (symmetry; apply Z.leb_le; lia).
      replace (y - 1 <=? 9999) with true by (symmetry; apply Z.leb_le; lia).
      reflexivity.
    + apply Z.eqb_neq in Em.
      replace (0 <? m - 1) with true by (symmetry; apply Z.ltb_lt; lia).
      replace (1 <=? y) with true by (symmetry; apply Z.leb_le; lia).
      replace (y <=? 9999) with true by (symmetry; apply Z.leb_le; lia).
      reflexivity.
  - apply Z.eqb_neq in Ed.
    replace (dd - 1 <? 1) with false by (symmetry; apply Z.ltb_ge; lia).
    replace (days_in_month y m <? dd - 1) with false
      by (symmetry; apply Z.ltb_ge; lia).
    simpl.
    replace (1 <=? y) with true by (symmetry; apply Z.leb_le; lia).
    replace (y <=? 9999) with true by (symmetry; apply Z.leb_le; lia).
    reflexivity.
Qed.

Lemma datetime_add_minus_one (d : date) (t : Z) :
  valid_date d = true -> d <> date_min ->
  datetime_add_days (mkdatetime d t) (-1) = Ok (mkdatetime (previous_day d) t).
Proof.
  intros Hv Hne. unfold datetime_add_days. simpl.
  change (day d + -1) with (day d - 1).
  now rewrite normalize_one_day_back.
Qed.

Lemma datetime_sub_one (d : date) (t : Z) :
  valid_date d = true -> d <> date_min ->
  datetime_sub_days (mkdatetime d t) 1 = Ok (mkdatetime (previous_day d) t).
Proof.
  intros Hv Hne. unfold datetime_sub_days. simpl.
  change (day d + 1 * -1) with (day d - 1).
  now rewrite normalize_one_day_back.
Qed.

Lemma datetime_sub_one_min (t : Z) :
  datetime_sub_days (mkdatetime date_min t) 1 = Raise OverflowError.
Proof. reflexivity. Qed.

(* ===================================================================== *)
(** * [DateHelper.get_date_range] *)
(* ===================================================================== *)

Lemma first_of_month_valid (d : date) :
  valid_date d = true -> valid_date (first_of_month d) = true.
Proof.
  intros Hv. pose proof (valid_date_bounds d Hv) as (Hy & Hm & Hd & Hd').
  apply valid_date_intro; lia.
Qed.

Lemma get_begin_of_month_ok (today : date) :
  valid_date today = true ->
  get_begin_of_month today = Ok (isoformat (first_of_month today)).
Proof.
  intros Hv. unfold get_begin_of_month, date_replace_day.
  pose proof (check_date_args_valid _ (first_of_month_valid _ Hv)) as E.
  simpl in E. now rewrite E.
Qed.

Lemma isoformat_first_eqb (today : date) :
  valid_date today = true ->
  str_eqb (isoformat (first_of_month today)) (isoformat today)
  = (day today =? 1).
Proof.
  intros Hv. pose proof (valid_date_bounds _ Hv) as (Hy & Hm & Hd & Hd').
  rewrite !isoformat_eq. simpl year; simpl month; simpl day.
  rewrite !str_eqb_app_l.
  destruct (day today =? 1) eqn:E.
  - apply Z.eqb_eq in E. rewrite E. apply str_eqb_refl.
  - apply Z.eqb_neq in E. apply str_eqb_neq. intros H.
    apply fmt_0d_2_inj in H; lia.
Qed.

Lemma first_of_previous_day (d : date) :
  day d = 1 -> first_of_month (previous_day d) = first_of_previous_month d.
Proof.
  intros H. unfold previous_day, first_of_previous_month, first_of_month.
  rewrite H. simpl. now destruct (month d =? 1).
Qed.

Section DateRange.

Variable nd : char -> option Z.
Hypothesis nd_ascii : extends_ascii nd.

Lemma get_date_range_other_day (today : date) :
  valid_date today = true -> day today <> 1 ->
  get_date_range nd today
  = Ok (isoformat (first_of_month today), isoformat today).
Proof.
  intros Hv Hd. unfold get_date_range, get_date_range_at.
  rewrite get_begin_of_month_ok by assumption. unfold get_today.
  cbn [bind]. rewrite isoformat_first_eqb by assumption.
  now replace (day today =? 1) with false by (symmetry; now apply Z.eqb_neq).
Qed.

Lemma get_date_range_first_day (today : date) :
  valid_date today = true -> day today = 1 -> today <> date_min ->
  get_date_range nd today
  = Ok (isoformat (first_of_month (previous_day today)), isoformat today).
Proof.
  intros Hv Hd Hne. unfold get_date_range, get_date_range_at.
  rewrite get_begin_of_month_ok by assumption. unfold get_today.
  cbn [bind]. rewrite isoformat_first_eqb by assumption.
  rewrite Hd. cbn [Z.eqb Pos.eqb].
  pose proof (first_of_month_valid _ Hv) as Hf.
  rewrite strptime_isoformat by assumption. cbn [bind].
  assert (Ef : first_of_month today = today)
    by (destruct today; simpl in *; subst; reflexivity).
  rewrite Ef, datetime_add_minus_one by assumption. cbn [bind].
  unfold datetime_replace_day. cbn [dt_date dt_time].
  pose proof (check_date_args_valid _
                (first_of_month_valid _ (previous_day_valid _ Hv Hne))) as E.
  simpl in E. rewrite E. reflexivity.
Qed.

Lemma get_date_range_min :
  get_date_range nd date_min = Raise OverflowError.
Proof.
  unfold get_date_range, get_date_range_at.
  rewrite get_begin_of_month_ok by reflexivity. unfold get_today.
  cbn [bind]. rewrite isoformat_first_eqb by reflexivity.
  change (day date_min =? 1) with true. cbn iota.
  rewrite strptime_isoformat by (assumption || reflexivity).
  reflexivity.
Qed.

End DateRange.

(* ===================================================================== *)
(** * Floats: [round(x, 3)] never overflows *)
(* ===================================================================== *)

Lemma digits2_pos_size (p : positive) : digits2_pos p = Pos.size p.
Proof. induction p; simpl; congruence. Qed.

Lemma Zdigits2_log2 (p : positive) :
  Zdigits2 (Zpos p) = Z.log2 (Zpos p) + 1.
Proof.
  simpl. rewrite digits2_pos_size.
  destruct p; simpl; try reflexivity; rewrite Pos2Z.inj_succ; lia.
Qed.

Lemma Zdigits2_nonneg (z : Z) : 0 <= Zdigits2 z.
Proof. destruct z; simpl; lia. Qed.

Lemma Zdigits2_upper (z k : Z) :
  0 <= k -> 0 <= z < 2 ^ k -> Zdigits2 z <= k.
Proof.
  intros Hk [H0 H1]. destruct z as [|p|p]; [simpl; lia| |lia].
  rewrite Zdigits2_log2.
  assert (Z.log2 (Zpos p) < k) by (apply Z.log2_lt_pow2; lia). lia.
Qed.

Lemma Zdigits2_lower (z k : Z) :
  0 <= k -> 2 ^ k <= z -> k + 1 <= Zdigits2 z.
Proof.
  intros Hk H. assert (0 < 2 ^ k) by (apply Z.pow_pos_nonneg; lia).
  destruct z as [|p|p]; [lia| |lia].
  rewrite Zdigits2_log2.
  assert (k <= Z.log2 (Zpos p)) by (apply Z.log2_le_pow2; lia). lia.
Qed.

Lemma fexp_eq (k : Z) : fexp 53 1024 k = Z.max (k - 53) (-1074).
Proof. reflexivity. Qed.

Lemma bounded_facts (m : positive) (e : Z) :
  bounded 53 1024 m e = true ->
  -1074 <= e <= 971 /\ Zpos m < 2 ^ 53 /\ (-1074 < e -> 2 ^ 52 <= Zpos m).
Proof.
  unfold bounded, canonical_mantissa. intros H.
  apply andb_true_iff in H as [Hc He].
  apply Z.eqb_eq in Hc. apply Z.leb_le in He.
  change (1024 - 53) with 971 in He.
  rewrite fexp_eq in Hc.
  change (Zpos (digits2_pos m)) with (Zdigits2 (Zpos m)) in Hc.
  rewrite Zdigits2_log2 in Hc.
  assert (Hlog : Z.log2 (Zpos m) <= 52) by lia.
  repeat split; try lia.
  - apply Z.log2_lt_pow2; lia.
  - intros Hlt. apply Z.log2_le_pow2; lia.
Qed.

(** [iter_pos] is iteration. *)
Lemma iter_pos_nat {A} (f : A -> A) (p : positive) :
  forall x, iter_pos f p x = Nat.iter (Pos.to_nat p) f x.
Proof.
  induction p as [p IH|p IH|]; intros x; simpl iter_pos.
  - rewrite !IH, Pos2Nat.inj_xI.
    replace (S (2 * Pos.to_nat p))%nat
      with (Pos.to_nat p + (Pos.to_nat p + 1))%nat by lia.
    rewrite !Nat.iter_add. reflexivity.
  - rewrite !IH, Pos2Nat.inj_xO.
    replace (2 * Pos.to_nat p)%nat with (Pos.to_nat p + Pos.to_nat p)%nat by lia.
    rewrite Nat.iter_add. reflexivity.
  - reflexivity.
Qed.

Lemma shr_1_bounds (r : shr_record) :
  0 <= shr_m r -> 0 <= shr_m (shr_1 r) <= shr_m r.
Proof.
  destruct r as [m r s]. simpl. intros H.
  destruct m as [|p|p]; [simpl; lia| |lia].
  destruct p; simpl; lia.
Qed.

Lemma iter_shr_1_bounds (k : nat) (r : shr_record) :
  0 <= shr_m r -> 0 <= shr_m (Nat.iter k shr_1 r) <= shr_m r.
Proof.
  intros H. induction k as [|k IH]; simpl; [lia|].
  pose proof (shr_1_bounds (Nat.iter k shr_1 r) ltac:(lia)). lia.
Qed.

Lemma shr_1_exact (a : Z) :
  0 <= a ->
  shr_1 (Build_shr_record (2 * a) false false) = Build_shr_record a false false.
Proof.
  intros H. destruct a as [|p|p]; [reflexivity|reflexivity|lia].
Qed.

Lemma iter_shr_1_exact (k : nat) (a : Z) :
  0 <= a ->
  Nat.iter k shr_1 (Build_shr_record (a * 2 ^ Z.of_nat k) false false)
  = Build_shr_record a false false.
Proof.
  intros H. revert a H. induction k as [|k IH]; intros a H.
  - simpl. now rewrite Z.mul_1_r.
  - rewrite Nat.iter_succ_r.
    replace (a * 2 ^ Z.of_nat (S k)) with (2 * (a * 2 ^ Z.of_nat k))
      by (rewrite Nat2Z.inj_succ, Z.pow_succ_r; lia).
    rewrite shr_1_exact by (apply Z.mul_nonneg_nonneg; [lia|apply Z.pow_nonneg; lia]).
    now apply IH.
Qed.

Lemma shr_fexp_snd (m e : Z) (l : location) :
  snd (shr_fexp 53 1024 m e l) = Z.max e (fexp 53 1024 (Zdigits2 m + e)).
Proof.
  unfold shr_fexp, shr.
  destruct (fexp 53 1024 (Zdigits2 m + e) - e) as [|p|p] eqn:E; simpl; lia.
Qed.

Lemma shr_record_of_loc_m (m : Z) (l : location) :
  shr_m (shr_record_of_loc m l) = m.
Proof. destruct l as [|[]]; reflexivity. Qed.

Lemma shr_fexp_m_bounds (m e : Z) (l : location) :
  0 <= m -> 0 <= shr_m (fst (shr_fexp 53 1024 m e l)) <= m.
Proof.
  intros H. unfold shr_fexp, shr.
  destruct (fexp 53 1024 (Zdigits2 m + e) - e) as [|p|p]; simpl;
    rewrite ?iter_pos_nat.
  - rewrite shr_record_of_loc_m. lia.
  - pose proof (iter_shr_1_bounds (Pos.to_nat p) (shr_record_of_loc m l)) as B.
    rewrite shr_record_of_loc_m in B. now apply B.
  - rewrite shr_record_of_loc_m. lia.
Qed.

Lemma round_nearest_even_bounds (m : Z) (l : location) :
  m <= round_nearest_even m l <= m + 1.
Proof.
  destruct l as [|[]]; simpl; try lia. destruct (Z.even m); lia.
Qed.

(** Rounding a small magnitude gives a finite float. *)
Lemma binary_round_aux_small (sx : bool) (mx ex : Z) (lx : location) :
  0 <= mx < 2 ^ 62 -> ex <= 0 ->
  finite_with_sign sx (binary_round_aux 53 1024 sx mx ex lx).
Proof.
  intros Hm He. unfold binary_round_aux.
  pose proof (shr_fexp_snd mx ex lx) as E1.
  pose proof (shr_fexp_m_bounds mx ex lx ltac:(lia)) as B1.
  destruct (shr_fexp 53 1024 mx ex lx) as [mrs' e']. simpl in E1, B1.
  set (m1 := round_nearest_even (shr_m mrs') (loc_of_shr_record mrs')).
  pose proof (round_nearest_even_bounds (shr_m mrs') (loc_of_shr_record mrs')) as R.
  fold m1 in R.
  pose proof (shr_fexp_snd m1 e' loc_Exact) as E2.
  pose proof (shr_fexp_m_bounds m1 e' loc_Exact ltac:(lia)) as B2.
  destruct (shr_fexp 53 1024 m1 e' loc_Exact) as [mrs'' e'']. simpl in E2, B2.
  assert (D1 : Zdigits2 mx <= 62) by (apply Zdigits2_upper; lia).
  assert (D2 : Zdigits2 m1 <= 63).
  { apply Zdigits2_upper; [lia|]. split; [lia|].
    change (2 ^ 63) with (2 ^ 62 + 2 ^ 62). lia. }
  rewrite fexp_eq in E1, E2.
  destruct (shr_m mrs'') as [|p|p] eqn:Em.
  - now left.
  - replace (e'' <=? 1024 - 53) with true by (symmetry; apply Z.leb_le; lia).
    right. eauto.
  - lia.
Qed.

Lemma div_half_even_bounds (a b : Z) :
  a / b <= div_half_even a b <= a / b + 1.
Proof.
  unfold div_half_even.
  destruct (2 * (a mod b) ?= b); [destruct (Z.even (a / b))| |]; lia.
Qed.

Lemma thousandths_nonneg (m : positive) (e : Z) : 0 <= thousandths m e.
Proof.
  unfold thousandths. destruct (0 <=? e) eqn:E.
  - apply Z.leb_le in E.
    assert (0 <= 2 ^ e) by (apply Z.pow_nonneg; lia). nia.
  - apply Z.leb_gt in E.
    assert (0 < 2 ^ (- e)) by (apply Z.pow_pos_nonneg; lia).
    pose proof (div_half_even_bounds (Zpos m * 1000) (2 ^ (- e))).
    assert (0 <= Zpos m * 1000 / 2 ^ (- e)) by (apply Z.div_pos; lia).
    lia.
Qed.

Lemma thousandths_small (m : positive) (e : Z) :
  Zpos m < 2 ^ 53 -> e < 0 -> thousandths m e < 2 ^ 62.
Proof.
  intros Hm He. unfold thousandths.
  replace (0 <=? e) with false by (symmetry; apply Z.leb_gt; lia).
  pose proof (div_half_even_bounds (Zpos m * 1000) (2 ^ (- e))) as B.
  assert (H2 : 2 ^ 1 <= 2 ^ (- e)) by (apply Z.pow_le_mono_r; lia).
  change (2 ^ 1) with 2 in H2.
  assert (Zpos m * 1000 / 2 ^ (- e) <= Zpos m * 1000 / 2)
    by (apply Z.div_le_compat_l; lia).
  assert (Zpos m * 1000 / 2 < 2 ^ 53 * 500)
    by (apply Z.div_lt_upper_bound; lia).
  change (2 ^ 62) with (2 ^ 53 * 512). lia.
Qed.

Lemma Zdigits2_spec (p : positive) :
  2 ^ (Zdigits2 (Zpos p) - 1) <= Zpos p < 2 ^ Zdigits2 (Zpos p).
Proof.
  rewrite Zdigits2_log2.
  replace (Z.log2 (Zpos p) + 1 - 1) with (Z.log2 (Zpos p)) by lia.
  replace (Z.log2 (Zpos p) + 1) with (Z.succ (Z.log2 (Zpos p))) by lia.
  apply Z.log2_spec. lia.
Qed.

(** The scaled dividend of the division by [1000]. *)
Lemma SFdiv_core_binary_1000 (p : positive) :
  exists s, 0 <= s
    /\ s = - Z.min (fexp 53 1024 (Zdigits2 (Zpos p) - 10)) 0
    /\ SFdiv_core_binary 53 1024 (Zpos p) 0 1000 0
       = (Zpos p * 2 ^ s / 1000, - s,
          new_location 1000 ((Zpos p * 2 ^ s) mod 1000)).
Proof.
  exists (- Z.min (fexp 53 1024 (Zdigits2 (Zpos p) - 10)) 0).
  split; [lia|]. split; [reflexivity|].
  unfold SFdiv_core_binary.
  change (Zdigits2 1000) with 10.
  replace (Zdigits2 (Zpos p) + 0 - (10 + 0)) with (Zdigits2 (Zpos p) - 10) by lia.
  change (0 - 0) with 0.
  set (e' := Z.min (fexp 53 1024 (Zdigits2 (Zpos p) - 10)) 0).
  replace (0 - e') with (- e') by lia.
  assert (He' : e' <= 0) by (unfold e'; lia).
  assert (Em : match - e' with
               | 0 => Zpos p
               | Zpos _ => Z.shiftl (Zpos p) (- e')
               | Zneg _ => 0
               end = Zpos p * 2 ^ (- e')).
  { destruct (- e') as [|q|q] eqn:E; [simpl; lia| |lia].
    rewrite Z.shiftl_mul_pow2 by lia. reflexivity. }
  rewrite Em.
  unfold Z.div, Z.modulo.
  destruct (Z.div_eucl (Zpos p * 2 ^ (- e')) 1000) as [q r].
  rewrite Z.opp_involutive. reflexivity.
Qed.

Lemma SFdiv_1000_small (s : bool) (p : positive) :
  Zpos p < 2 ^ 62 ->
  finite_with_sign s
    (SFdiv 53 1024 (S754_finite s p 0) (S754_finite false 1000 0)).
Proof.
  intros Hp. unfold SFdiv.
  destruct (SFdiv_core_binary_1000 p) as (k & Hk & Ek & ->).
  rewrite xorb_false_r.
  apply binary_round_aux_small; [|lia].
  pose proof (Zdigits2_spec p) as [_ Hd].
  assert (D : Zdigits2 (Zpos p) <= 62) by (apply Zdigits2_upper; lia).
  pose proof (Zdigits2_nonneg (Zpos p)) as D0.
  rewrite fexp_eq in Ek.
  assert (Hk' : k <= 63 - Zdigits2 (Zpos p)) by lia.
  assert (Hpow : Zpos p * 2 ^ k < 2 ^ 63).
  { assert (2 ^ k <= 2 ^ (63 - Zdigits2 (Zpos p)))
      by (apply Z.pow_le_mono_r; lia).
    assert (0 < 2 ^ k) by (apply Z.pow_pos_nonneg; lia).
    assert (2 ^ Zdigits2 (Zpos p) * 2 ^ (63 - Zdigits2 (Zpos p)) = 2 ^ 63).
    { rewrite <- Z.pow_add_r by lia. f_equal. lia. }
    nia. }
  assert (0 < 2 ^ k) by (apply Z.pow_pos_nonneg; lia).
  split.
  - apply Z.div_pos; [nia|lia].
  - apply Z.div_lt_upper_bound; [lia|].
    change (2 ^ 63) with (2 * 2 ^ 62) in Hpow. lia.
Qed.

Lemma Zdigits2_scaled (m : positive) (j : Z) :
  2 ^ 52 <= Zpos m < 2 ^ 53 -> 0 <= j -> Zdigits2 (Zpos m * 2 ^ j) = 53 + j.
Proof.
  intros [Hl Hu] Hj.
  assert (Hp : 0 < 2 ^ j) by (apply Z.pow_pos_nonneg; lia).
  assert (E52 : 2 ^ (52 + j) = 2 ^ 52 * 2 ^ j) by (apply Z.pow_add_r; lia).
  assert (E53 : 2 ^ (53 + j) = 2 ^ 53 * 2 ^ j) by (apply Z.pow_add_r; lia).
  apply Z.le_antisymm.
  - apply Zdigits2_upper; [lia|]. rewrite E53. nia.
  - replace (53 + j) with (52 + j + 1) by lia.
    apply Zdigits2_lower; [lia|]. rewrite E52. nia.
Qed.

(** Shifting out [j] zero bits of a full mantissa is exact. *)
Lemma shr_fexp_exact (m : positive) (e j : Z) :
  2 ^ 52 <= Zpos m < 2 ^ 53 -> 0 <= j -> -1074 <= e ->
  shr_fexp 53 1024 (Zpos m * 2 ^ j) (e - j) loc_Exact
  = (Build_shr_record (Zpos m) false false, e).
Proof.
  intros Hm Hj He. unfold shr_fexp.
  rewrite Zdigits2_scaled by assumption. rewrite fexp_eq.
  replace (Z.max (53 + j + (e - j) - 53) (-1074) - (e - j)) with j by lia.
  unfold shr, shr_record_of_loc.
  destruct j as [|q|q]; [|clear Hj|lia].
  - rewrite Z.mul_1_r. f_equal. lia.
  - rewrite iter_pos_nat.
    rewrite <- (positive_nat_Z q) at 1.
    rewrite iter_shr_1_exact by lia. f_equal. lia.
Qed.

Lemma SFdiv_1000_exact (s : bool) (m p : positive) (e : Z) :
  bounded 53 1024 m e = true -> 0 <= e ->
  Zpos p = Zpos m * 2 ^ e * 1000 ->
  SFdiv 53 1024 (S754_finite s p 0) (S754_finite false 1000 0)
  = S754_finite s m e.
Proof.
  intros Hb He Hp. pose proof (bounded_facts m e Hb) as (Hr & Hu & Hl).
  specialize (Hl ltac:(lia)).
  unfold SFdiv.
  destruct (SFdiv_core_binary_1000 p) as (k & Hk & _ & ->).
  rewrite xorb_false_r.
  assert (E : Zpos p * 2 ^ k = Zpos m * 2 ^ (e + k) * 1000).
  { rewrite Hp, Z.pow_add_r by lia. ring. }
  rewrite E, Z_div_mult, Z_mod_mult by lia.
  change (new_location 1000 0) with loc_Exact.
  unfold binary_round_aux.
  replace (- k) with (e - (e + k)) by lia.
  rewrite shr_fexp_exact by lia.
  cbn [shr_m loc_of_shr_record round_nearest_even].
  pose proof (shr_fexp_exact m e 0 ltac:(lia) ltac:(lia) ltac:(lia)) as E0.
  rewrite Z.mul_1_r, Z.sub_0_r in E0. rewrite E0.
  cbn [shr_m].
  now replace (e <=? 1024 - 53) with true by (symmetry; apply Z.leb_le; lia).
Qed.

(** [round(x, 3)] of a finite float is a finite float of the same sign. *)
Lemma round3_finite (s : bool) (m : positive) (e : Z) :
  bounded 53 1024 m e = true ->
  exists r, round3 (S754_finite s m e) = Ok r /\ finite_with_sign s r.
Proof.
  intros Hb. pose proof (bounded_facts m e Hb) as (Hr & Hu & Hl).
  unfold round3, double_of_thousandths.
  pose proof (thousandths_nonneg m e) as Hn.
  destruct (thousandths m e) as [|p|p] eqn:En; [| |lia].
  - exists (S754_zero s). split; [reflexivity|now left].
  - destruct (Z_lt_le_dec e 0) as [Hneg|Hpos].
    + pose proof (thousandths_small m e Hu Hneg) as Hs. rewrite En in Hs.
      pose proof (SFdiv_1000_small s p Hs) as F.
      destruct F as [F|(m' & e' & F)]; rewrite F; eexists; split;
        try reflexivity; [now left|right; eauto].
    + assert (Ep : Zpos p = Zpos m * 2 ^ e * 1000).
      { rewrite <- En. unfold thousandths.
        now replace (0 <=? e) with true by (symmetry; apply Z.leb_le; lia). }
      rewrite (SFdiv_1000_exact s m p e Hb Hpos Ep).
      eexists; split; [reflexivity|right; eauto].
Qed.

Lemma round3_total (x : float) : exists r, round3 (fval x) = Ok r.
Proof.
  destruct x as [[s|s| |s m e] Hv]; simpl; eauto.
  destruct (round3_finite s m e Hv) as (r & Hr & _). eauto.
Qed.

(* ===================================================================== *)
(** * [BillingMessageFormatter.format] *)
(* ===================================================================== *)

Lemma strftime_md_mm_dd (d : date) (t : Z) :
  valid_date d = true -> strftime_md (mkdatetime d t) = mm_dd d.
Proof.
  intros Hv. pose proof (valid_date_bounds d Hv) as (Hy & Hm & Hd & Hd').
  unfold strftime_md, mm_dd. cbn [dt_date].
  now rewrite !fmt_0d_2 by lia.
Qed.

Lemma strptime_valid (nd : char -> option Z) (s : str) (dt : datetime) :
  strptime nd s = Ok dt -> valid_date (dt_date dt) = true /\ dt_time dt = 0.
Proof.
  unfold strptime.
  destruct (strptime_match nd s) as [[[[gY gm] gd] rest]|]; [|discriminate].
  destruct rest; [|discriminate].
  destruct (py_int nd gY) as [y|]; [|discriminate].
  destruct (py_int nd gm) as [m|]; [|discriminate].
  destruct (py_int nd gd) as [d|]; [|discriminate].
  cbn [bind]. unfold check_date_args.
  destruct (valid_date (mkdate y m d)) eqn:E; [|discriminate].
  cbn [bind]. intros H. injection H as <-. now split.
Qed.

Section FormatLemmas.

Variable nd : char -> option Z.

Lemma format_never_raises (bi : BillingInfo) :
  exists message, format nd bi = Ok message.
Proof. unfold format. destruct (format_try nd bi); eauto. Qed.

Lemma format_parsed (bi : BillingInfo) (dts dte : datetime) :
  strptime nd (start bi) = Ok dts ->
  strptime nd (end_ bi) = Ok dte ->
  dt_date dte <> date_min ->
  exists total,
    round3 (fval (amount bi)) = Ok total
    /\ format nd bi
       = Ok (billing_message (dt_date dts) (previous_day (dt_date dte))
               (format_3f total)).
Proof.
  intros Hs He Hne.
  destruct (strptime_valid _ _ _ Hs) as [Hvs _].
  destruct (strptime_valid _ _ _ He) as [Hve _].
  destruct (round3_total (amount bi)) as [total Ht].
  exists total. split; [exact Ht|].
  unfold format, format_try. rewrite Hs, He. cbn [bind].
  destruct dts as [ds ts], dte as [de te]. cbn [dt_date] in *.
  rewrite datetime_sub_one by assumption. cbn [bind]. rewrite Ht. cbn [bind].
  rewrite !strftime_md_mm_dd
    by (assumption || now apply previous_day_valid).
  reflexivity.
Qed.

Lemma format_end_min (bi : BillingInfo) (dts dte : datetime) :
  strptime nd (start bi) = Ok dts ->
  strptime nd (end_ bi) = Ok dte ->
  dt_date dte = date_min ->
  format nd bi = Ok [].
Proof.
  intros Hs He Hmin. unfold format, format_try. rewrite Hs, He. cbn [bind].
  destruct dte as [de te]. cbn [dt_date] in Hmin. subst de.
  now rewrite datetime_sub_one_min.
Qed.

Lemma format_unparsed_start (bi : BillingInfo) (e : exn) :
  strptime nd (start bi) = Raise e -> format nd bi = Ok [].
Proof. intros H. unfold format, format_try. now rewrite H. Qed.

Lemma format_unparsed_end (bi : BillingInfo) (e : exn) :
  strptime nd (end_ bi) = Raise e -> format nd bi = Ok [].
Proof.
  intros H. unfold format, format_try. rewrite H.
  now destruct (strptime nd (start bi)).
Qed.

End FormatLemmas.

Lemma billing_message_nonempty (first last : date) (amount_text : str) :
  billing_message first last amount_text <> [].
Proof. unfold billing_message, mm_dd. discriminate. Qed.

(* ===================================================================== *)
(** * Floats: rounding twice shows the same digits *)
(* ===================================================================== *)

Lemma div_half_even_nearest (a b : Z) :
  0 < b -> nearest_even a b (div_half_even a b).
Proof.
  intros Hb. unfold nearest_even, div_half_even.
  pose proof (Z.div_mod a b ltac:(lia)) as E.
  pose proof (Z.mod_pos_bound a b Hb) as R.
  destruct (Z.compare_spec (2 * (a mod b)) b) as [C|C|C].
  - destruct (Z.even (a / b)) eqn:Ev.
    + split; [nia|]. intros _. exact Ev.
    + split; [nia|]. intros _.
      replace (a / b + 1) with (Z.succ (a / b)) by lia.
      rewrite Z.even_succ, <- Z.negb_even, Ev. reflexivity.
  - split; [nia|intros Hc; exfalso; nia].
  - split; [nia|intros Hc; exfalso; nia].
Qed.

Lemma nearest_even_unique (a b n : Z) :
  0 < b -> nearest_even a b n -> div_half_even a b = n.
Proof.
  intros Hb [Hn Ht]. unfold div_half_even.
  pose proof (Z.div_mod a b ltac:(lia)) as E.
  pose proof (Z.mod_pos_bound a b Hb) as R.
  assert (Hq : n = a / b \/ n = a / b + 1) by nia.
  destruct Hq as [->| ->].
  - destruct (Z.compare_spec (2 * (a mod b)) b) as [C|C|C].
    + rewrite Ht by nia. reflexivity.
    + reflexivity.
    + exfalso. nia.
  - destruct (Z.compare_spec (2 * (a mod b)) b) as [C|C|C].
    + assert (Ev : Z.even (a / b + 1) = true) by (apply Ht; nia).
      replace (a / b + 1) with (Z.succ (a / b)) in Ev by lia.
      rewrite Z.even_succ, <- Z.negb_even in Ev.
      destruct (Z.even (a / b)); [discriminate|reflexivity].
    + exfalso. nia.
    + reflexivity.
Qed.

Lemma new_location_1000_ok (A : Z) :
  loc_ok (A / 1000) (new_location 1000 (A mod 1000)) A 1000.
Proof.
  pose proof (Z.div_mod A 1000 ltac:(lia)) as E.
  pose proof (Z.mod_pos_bound A 1000 ltac:(lia)) as R.
  change (new_location 1000 (A mod 1000))
    with (if A mod 1000 =? 0 then loc_Exact
          else loc_Inexact (2 * (A mod 1000) ?= 1000)).
  destruct (A mod 1000 =? 0) eqn:E0.
  - apply Z.eqb_eq in E0. unfold loc_ok. lia.
  - apply Z.eqb_neq in E0.
    destruct (Z.compare_spec (2 * (A mod 1000)) 1000) as [C|C|C];
      unfold loc_ok; lia.
Qed.

Lemma loc_of_shr_record_of_loc (m : Z) (l : location) :
  loc_of_shr_record (shr_record_of_loc m l) = l.
Proof. destruct l as [|[]]; reflexivity. Qed.

Lemma shr_1_ok (x : shr_record) (A B : Z) :
  0 <= shr_m x -> 0 < B ->
  loc_ok (shr_m x) (loc_of_shr_record x) A B ->
  loc_ok (shr_m (shr_1 x)) (loc_of_shr_record (shr_1 x)) A (2 * B)
  /\ shr_m (shr_1 x) = shr_m x / 2.
Proof.
  destruct x as [m r s]. cbn [shr_m]. intros Hm HB H.
  destruct m as [|p|p]; [| |lia].
  - destruct r, s;
      cbn [shr_1 shr_m loc_of_shr_record loc_ok orb] in *;
      (split; [lia|reflexivity]).
  - destruct p as [p|p|]; destruct r, s;
      cbn [shr_1 shr_m loc_of_shr_record loc_ok orb] in *;
      (split; [lia|]);
      first [apply Z.div_unique with (r := 1); lia
            | apply Z.div_unique with (r := 0); lia].
Qed.

Lemma round_nearest_even_ok (m : Z) (l : location) (A B : Z) :
  0 < B -> loc_ok m l A B ->
  m * B <= A < (m + 1) * B
  /\ ((round_nearest_even m l = m /\ 2 * (A - m * B) <= B)
      \/ (round_nearest_even m l = m + 1 /\ 2 * ((m + 1) * B - A) <= B)).
Proof.
  intros HB H. destruct l as [|[]]; cbn [loc_ok round_nearest_even] in *.
  - split; [lia|]. left. split; lia.
  - split; [lia|]. destruct (Z.even m); [left|right]; split; lia.
  - split; [lia|]. left. split; lia.
  - split; [lia|]. right. split; lia.
Qed.

Lemma Zdigits2_exact (z k : Z) :
  0 <= k -> 2 ^ k <= z < 2 ^ (k + 1) -> Zdigits2 z = k + 1.
Proof.
  intros Hk [Hl Hu]. apply Z.le_antisymm.
  - apply Zdigits2_upper; [lia|].
    assert (0 < 2 ^ k) by (apply Z.pow_pos_nonneg; lia). lia.
  - now apply Zdigits2_lower.
Qed.

(** The first shift of [binary_round_aux] on a quotient of 53 or 54 bits. *)
Lemma shr_fexp_stage1 (mz ez : Z) (lz : location) (A B : Z) :
  2 ^ 52 <= mz < 2 ^ 54 -> -1074 <= ez -> 0 < B -> loc_ok mz lz A B ->
  exists x j,
    shr_fexp 53 1024 mz ez lz = (x, ez + j)
    /\ (j = 0 \/ j = 1)
    /\ 2 ^ 52 <= shr_m x < 2 ^ 53
    /\ loc_ok (shr_m x) (loc_of_shr_record x) A (B * 2 ^ j).
Proof.
  intros Hm He HB Hl. unfold shr_fexp.
  destruct (Z_lt_le_dec mz (2 ^ 53)) as [Hlt|Hge].
  - rewrite (Zdigits2_exact mz 52) by lia. rewrite fexp_eq.
    replace (Z.max (52 + 1 + ez - 53) (-1074) - ez) with 0 by lia.
    cbn [shr].
    exists (shr_record_of_loc mz lz), 0.
    rewrite shr_record_of_loc_m, loc_of_shr_record_of_loc, Z.add_0_r.
    change (2 ^ 0) with 1. rewrite Z.mul_1_r.
    repeat split; auto; lia.
  - rewrite (Zdigits2_exact mz 53) by lia. rewrite fexp_eq.
    replace (Z.max (53 + 1 + ez - 53) (-1074) - ez) with 1 by lia.
    cbn [shr iter_pos].
    exists (shr_1 (shr_record_of_loc mz lz)), 1.
    destruct (shr_1_ok (shr_record_of_loc mz lz) A B) as [Hok Hdiv].
    + rewrite shr_record_of_loc_m. lia.
    + exact HB.
    + now rewrite shr_record_of_loc_m, loc_of_shr_record_of_loc.
    + rewrite shr_record_of_loc_m in Hdiv.
      change (2 ^ 1) with 2. rewrite (Z.mul_comm B 2).
      repeat split; auto.
      * rewrite Hdiv. apply Z.div_le_lower_bound; lia.
      * rewrite Hdiv. apply Z.div_lt_upper_bound; lia.
Qed.

(** The second shift: only a mantissa that rounded up to [2^53] moves. *)
Lemma shr_fexp_stage2 (m1 e1 : Z) :
  2 ^ 52 <= m1 <= 2 ^ 53 -> -1074 <= e1 ->
  exists (m2 : positive) (e2 : Z),
    shr_fexp 53 1024 m1 e1 loc_Exact = (Build_shr_record (Zpos m2) false false, e2)
    /\ e1 <= e2 <= e1 + 1
    /\ Zpos m2 * 2 ^ (e2 - e1) = m1.
Proof.
  intros Hm He.
  destruct (Z_lt_le_dec m1 (2 ^ 53)) as [Hlt|Hge].
  - destruct m1 as [|q|q]; try lia.
    exists q, e1.
    pose proof (shr_fexp_exact q e1 0 ltac:(lia) ltac:(lia) He) as E.
    rewrite Z.mul_1_r, Z.sub_0_r in E. rewrite E.
    rewrite Z.sub_diag. change (2 ^ 0) with 1. repeat split; lia.
  - assert (m1 = 2 ^ 53) by lia. subst m1.
    exists 4503599627370496%positive, (e1 + 1).
    pose proof (shr_fexp_exact 4503599627370496 (e1 + 1) 1
                  ltac:(lia) ltac:(lia) ltac:(lia)) as E.
    replace (e1 + 1 - 1) with e1 in E by lia.
    change (Zpos 4503599627370496 * 2 ^ 1) with (2 ^ 53) in E. rewrite E.
    replace (e1 + 1 - e1) with 1 by lia.
    repeat split; lia.
Qed.

(** The division by [1000]: the mantissa before the last shift is the
    quotient rounded to nearest, ties to even. *)
Lemma SFdiv_1000_rounds (s : bool) (p : positive) :
  Zpos p < 2 ^ 62 ->
  exists (m2 : positive) (e2 m1 m1' e1 : Z),
    SFdiv 53 1024 (S754_finite s p 0) (S754_finite false 1000 0)
    = S754_finite s m2 e2
    /\ e1 <= 0 /\ e1 <= e2 /\ Zpos m2 * 2 ^ (e2 - e1) = m1'
    /\ 2 ^ 52 <= m1
    /\ m1 * 1000 <= Zpos p * 2 ^ (- e1) < (m1 + 1) * 1000
    /\ ((m1' = m1 /\ 2 * (Zpos p * 2 ^ (- e1) - m1 * 1000) <= 1000)
        \/ (m1' = m1 + 1
            /\ 2 * ((m1 + 1) * 1000 - Zpos p * 2 ^ (- e1)) <= 1000)).
Proof.
  intros Hp. unfold SFdiv.
  destruct (SFdiv_core_binary_1000 p) as (k & Hk & Ek & ->).
  rewrite xorb_false_r.
  pose proof (Zdigits2_spec p) as [Hdl Hdu].
  assert (D : Zdigits2 (Zpos p) <= 62) by (apply Zdigits2_upper; lia).
  assert (D0 : 1 <= Zdigits2 (Zpos p)) by (simpl; lia).
  rewrite fexp_eq in Ek.
  assert (Hk' : k = 63 - Zdigits2 (Zpos p)) by lia.
  set (A := Zpos p * 2 ^ k).
  assert (HA : 2 ^ 62 <= A < 2 ^ 63).
  { unfold A.
    assert (E62 : 2 ^ (Zdigits2 (Zpos p) - 1) * 2 ^ k = 2 ^ 62)
      by (rewrite <- Z.pow_add_r by lia; f_equal; lia).
    assert (E63 : 2 ^ Zdigits2 (Zpos p) * 2 ^ k = 2 ^ 63)
      by (rewrite <- Z.pow_add_r by lia; f_equal; lia).
    assert (0 < 2 ^ k) by (apply Z.pow_pos_nonneg; lia).
    split; nia. }
  assert (Hmz : 2 ^ 52 <= A / 1000 < 2 ^ 54).
  { split; [apply Z.div_le_lower_bound; lia
           |apply Z.div_lt_upper_bound; lia]. }
  unfold binary_round_aux.
  destruct (shr_fexp_stage1 (A / 1000) (- k) (new_location 1000 (A mod 1000))
              A 1000 Hmz ltac:(lia) ltac:(lia) (new_location_1000_ok A))
    as (x & j & -> & Hj & Hx & Hloc).
  set (m1 := shr_m x) in *.
  set (m1' := round_nearest_even m1 (loc_of_shr_record x)).
  assert (HBj : 0 < 1000 * 2 ^ j) by (destruct Hj as [-> | ->]; reflexivity).
  destruct (round_nearest_even_ok m1 (loc_of_shr_record x) A (1000 * 2 ^ j)
              HBj Hloc) as [Hfloor Hround].
  fold m1' in Hround.
  assert (Hm1' : 2 ^ 52 <= m1' <= 2 ^ 53) by lia.
  destruct (shr_fexp_stage2 m1' (- k + j) Hm1' ltac:(lia))
    as (m2 & e2 & -> & He2 & Hm2).
  cbn [shr_m].
  replace (e2 <=? 1024 - 53) with true by (symmetry; apply Z.leb_le; lia).
  exists m2, e2, m1, m1', (- k + j).
  assert (EA : A = Zpos p * 2 ^ (- (- k + j)) * 2 ^ j).
  { unfold A. rewrite <- Z.mul_assoc, <- Z.pow_add_r by lia.
    do 2 f_equal. lia. }
  assert (Hj' : 0 < 2 ^ j) by (destruct Hj as [-> | ->]; reflexivity).
  split; [reflexivity|]. split; [lia|]. split; [lia|].
  split; [exact Hm2|]. split; [lia|]. split; [nia|].
  destruct Hround as [[E1 H1]|[E1 H1]]; [left|right]; split; try exact E1; nia.
Qed.

(** The double nearest to [p / 1000] is no further from it than the double
    [m * 2^e] that [p] was rounded from; so it rounds back to [p]. *)
Lemma nearest_transfer (m e p m1 m1' e1 : Z) :
  0 < m < 2 ^ 53 -> e < 0 -> e1 <= 0 ->
  nearest_even (m * 1000) (2 ^ (- e)) p ->
  2 ^ 52 <= m1 ->
  m1 * 1000 <= p * 2 ^ (- e1) < (m1 + 1) * 1000 ->
  ((m1' = m1 /\ 2 * (p * 2 ^ (- e1) - m1 * 1000) <= 1000)
   \/ (m1' = m1 + 1 /\ 2 * ((m1 + 1) * 1000 - p * 2 ^ (- e1)) <= 1000)) ->
  nearest_even (m1' * 1000) (2 ^ (- e1)) p.
Proof.
  intros Hm He He1 [Hx Htie] Hm1 Hfloor Hround.
  unfold nearest_even.
  set (E := 2 ^ (- e)) in *. set (b := 2 ^ (- e1)) in *.
  assert (HE : 0 < E) by (apply Z.pow_pos_nonneg; lia).
  assert (Hb : 0 < b) by (apply Z.pow_pos_nonneg; lia).
  destruct (Z_le_gt_dec e1 e) as [Hg|Hg].
  - (* the grid of [m * 2^e] is no finer than the grid of the result *)
    set (G := 2 ^ (e - e1)).
    assert (HG : 0 < G) by (apply Z.pow_pos_nonneg; lia).
    assert (EbG : b = E * G).
    { unfold b, E, G. rewrite <- Z.pow_add_r by lia. f_equal. lia. }
    set (M := m * G).
    assert (EM : M * 1000 - p * b = G * (m * 1000 - p * E))
      by (unfold M; rewrite EbG; ring).
    assert (HM : 2 * Z.abs (M * 1000 - p * b) <= b).
    { rewrite EM, Z.abs_mul, (Z.abs_eq G) by lia. rewrite EbG. nia. }
    assert (Hnear : Z.abs (m1' * 1000 - p * b) <= Z.abs (M * 1000 - p * b)).
    { destruct Hround as [[-> H1]|[-> H1]]; lia. }
    split; [lia|].
    intros Ht. apply Htie.
    assert (2 * Z.abs (M * 1000 - p * b) = b) by lia.
    rewrite EM, Z.abs_mul, (Z.abs_eq G) in H by lia.
    rewrite EbG in H. nia.
  - (* the grid of [m * 2^e] is finer: [m * 2^e] lies below the result *)
    set (H := 2 ^ (e1 - e)).
    assert (HH : 2 <= H).
    { unfold H. change 2 with (2 ^ 1) at 1. apply Z.pow_le_mono_r; lia. }
    assert (EEH : E = b * H).
    { unfold b, E, H. rewrite <- Z.pow_add_r by lia. f_equal. lia. }
    assert (Hlow : m * 1000 < m1 * 1000 * H) by nia.
    assert (Hup : m1 * 1000 * H <= p * E) by (rewrite EEH; nia).
    assert (Hd : 2 * (p * E - m * 1000) <= E) by lia.
    assert (Hstrict : 2 * (p * b - m1 * 1000) < b) by nia.
    split.
    + destruct Hround as [[-> H1]|[-> H1]]; lia.
    + intros Ht. exfalso. destruct Hround as [[-> H1]|[-> H1]]; lia.
Qed.

(** A float whose thousandths are nearest to [p] prints as [p]. *)
Lemma thousandths_of_nearest (m2 : positive) (e2 e1 p : Z) :
  e1 <= 0 -> e1 <= e2 ->
  nearest_even (Zpos m2 * 2 ^ (e2 - e1) * 1000) (2 ^ (- e1)) p ->
  thousandths m2 e2 = p.
Proof.
  intros He1 He2 [Hn Ht]. unfold thousandths.
  assert (Hb : 0 < 2 ^ (- e1)) by (apply Z.pow_pos_nonneg; lia).
  destruct (0 <=? e2) eqn:E.
  - apply Z.leb_le in E.
    assert (Eq : 2 ^ (e2 - e1) = 2 ^ e2 * 2 ^ (- e1))
      by (rewrite <- Z.pow_add_r by lia; f_equal; lia).
    rewrite Eq in Hn.
    assert (0 <= 2 ^ e2) by (apply Z.pow_nonneg; lia).
    set (t := Zpos m2 * 2 ^ e2 * 1000) in *.
    replace (Zpos m2 * (2 ^ e2 * 2 ^ (- e1)) * 1000 - p * 2 ^ (- e1))
      with ((t - p) * 2 ^ (- e1)) in Hn by (unfold t; ring).
    rewrite Z.abs_mul, (Z.abs_eq (2 ^ (- e1))) in Hn by lia.
    nia.
  - apply Z.leb_gt in E.
    apply nearest_even_unique; [apply Z.pow_pos_nonneg; lia|].
    set (F := 2 ^ (e2 - e1)) in *.
    assert (HF : 0 < F) by (apply Z.pow_pos_nonneg; lia).
    assert (Eb : 2 ^ (- e1) = 2 ^ (- e2) * F).
    { unfold F. rewrite <- Z.pow_add_r by lia. f_equal. lia. }
    assert (Hb2 : 0 < 2 ^ (- e2)) by (apply Z.pow_pos_nonneg; lia).
    assert (Ed : Zpos m2 * F * 1000 - p * 2 ^ (- e1)
                 = F * (Zpos m2 * 1000 - p * 2 ^ (- e2)))
      by (rewrite Eb; ring).
    rewrite Ed, Z.abs_mul, (Z.abs_eq F) in Hn, Ht by lia.
    rewrite Eb in Hn, Ht.
    split; [nia|]. intros Hc. apply Ht. nia.
Qed.

(** [round(x, 3)] shows the digits of [x]: the two roundings, of the value
    and of the double nearest to the rounded value, agree. *)
Lemma format_3f_round3 (x : float) (r : spec_float) :
  round3 (fval x) = Ok r -> format_3f r = format_3f (fval x).
Proof.
  destruct x as [[s|s| |s m e] Hv]; cbn [fval];
    try (intros H; injection H as <-; reflexivity).
  cbn [valid_binary] in Hv.
  pose proof (bounded_facts m e Hv) as (Hr & Hu & Hl).
  unfold round3, double_of_thousandths.
  pose proof (thousandths_nonneg m e) as Hn.
  destruct (thousandths m e) as [|p|p] eqn:En; [| |lia].
  - intros H. injection H as <-. cbn [format_3f]. now rewrite En.
  - destruct (Z_lt_le_dec e 0) as [Hneg|Hpos].
    + pose proof (thousandths_small m e Hu Hneg) as Hs. rewrite En in Hs.
      destruct (SFdiv_1000_rounds s p Hs)
        as (m2 & e2 & m1 & m1' & e1 & -> & He1 & He2 & Hm2 & Hm1 & Hfl & Hrd).
      intros H. injection H as <-. cbn [format_3f]. rewrite En. f_equal.
      apply (thousandths_of_nearest m2 e2 e1 (Zpos p) He1 He2).
      rewrite Hm2.
      apply (nearest_transfer (Zpos m) e (Zpos p) m1 m1' e1); try lia;
        try assumption.
      rewrite <- En. unfold thousandths.
      replace (0 <=? e) with false by (symmetry; apply Z.leb_gt; lia).
      apply div_half_even_nearest. apply Z.pow_pos_nonneg; lia.
    + assert (Ep : Zpos p = Zpos m * 2 ^ e * 1000).
      { rewrite <- En. unfold thousandths.
        now replace (0 <=? e) with true by (symmetry; apply Z.leb_le; lia). }
      rewrite (SFdiv_1000_exact s m p e Hv Hpos Ep).
      intros H. injection H as <-. reflexivity.
Qed.

(* ===================================================================== *)
(** * The order of the texts is the order of the dates *)
(* ===================================================================== *)

Ltac split_comparisons :=
  repeat match goal with
         | |- context [?a <? ?b] => destruct (Z.ltb_spec a b)
         | |- context [?a =? ?b] => destruct (Z.eqb_spec a b)
         | |- context [?a <=? ?b] => destruct (Z.leb_spec a b)
         end;
  cbn [orb andb]; try reflexivity; try (exfalso; lia).

Lemma str_leb_fmt_0d_2 (x y : Z) (r1 r2 : str) :
  0 <= x < 100 -> 0 <= y < 100 ->
  str_leb (fmt_0d 2 x ++ r1) (fmt_0d 2 y ++ r2)
  = (x <? y) || ((x =? y) && str_leb r1 r2).
Proof.
  intros Hx Hy. rewrite !fmt_0d_2 by assumption.
  destruct (two_digits x Hx) as [Hx1 Hx0].
  destruct (two_digits y Hy) as [Hy1 Hy0].
  pose proof (Z.div_mod x 10 ltac:(lia)) as Ex.
  pose proof (Z.div_mod y 10 ltac:(lia)) as Ey.
  cbn [app str_leb]. unfold digit_char.
  generalize dependent (x / 10). generalize dependent (x mod 10).
  generalize dependent (y / 10). generalize dependent (y mod 10).
  intros. destruct (str_leb r1 r2); split_comparisons.
Qed.

Lemma str_leb_fmt_0d_4 (x y : Z) (r1 r2 : str) :
  0 <= x < 10000 -> 0 <= y < 10000 ->
  str_leb (fmt_0d 4 x ++ r1) (fmt_0d 4 y ++ r2)
  = (x <? y) || ((x =? y) && str_leb r1 r2).
Proof.
  intros Hx Hy.
  assert (Ex : fmt_0d 4 x = fmt_0d 2 (x / 100) ++ fmt_0d 2 (x mod 100)).
  { revert x Hx. intros k H. by_enumeration (Z.to_nat 10000) k H. }
  assert (Ey : fmt_0d 4 y = fmt_0d 2 (y / 100) ++ fmt_0d 2 (y mod 100)).
  { revert y Hy. intros k H. by_enumeration (Z.to_nat 10000) k H. }
  rewrite Ex, Ey, <- !app_assoc. clear Ex Ey.
  pose proof (Z.div_mod x 100 ltac:(lia)) as Dx.
  pose proof (Z.div_mod y 100 ltac:(lia)) as Dy.
  pose proof (Z.mod_pos_bound x 100 ltac:(lia)) as Mx.
  pose proof (Z.mod_pos_bound y 100 ltac:(lia)) as My.
  assert (0 <= x / 100 < 100)
    by (split; [apply Z.div_pos; lia|apply Z.div_lt_upper_bound; lia]).
  assert (0 <= y / 100 < 100)
    by (split; [apply Z.div_pos; lia|apply Z.div_lt_upper_bound; lia]).
  rewrite !str_leb_fmt_0d_2 by assumption.
  generalize dependent (x / 100). generalize dependent (x mod 100).
  generalize dependent (y / 100). generalize dependent (y mod 100).
  intros. destruct (str_leb r1 r2); split_comparisons.
Qed.

Lemma isoformat_leb (a b : date) :
  valid_date a = true -> valid_date b = true ->
  str_leb (isoformat a) (isoformat b) = date_leb a b.
Proof.
  intros Ha Hb.
  pose proof (valid_date_bounds a Ha) as (Hya & Hma & Hda & Hda').
  pose proof (valid_date_bounds b Hb) as (Hyb & Hmb & Hdb & Hdb').
  rewrite !isoformat_eq.
  rewrite str_leb_fmt_0d_4 by lia.
  cbn [app str_leb]. rewrite Z.ltb_irrefl, Z.eqb_refl. cbn [orb andb].
  rewrite str_leb_fmt_0d_2 by lia.
  cbn [app str_leb]. rewrite Z.ltb_irrefl, Z.eqb_refl. cbn [orb andb].
  rewrite <- (app_nil_r (fmt_0d 2 (day a))), <- (app_nil_r (fmt_0d 2 (day b))).
  rewrite str_leb_fmt_0d_2 by lia.
  unfold date_leb. cbn [str_leb]. rewrite andb_true_r.
  f_equal. f_equal. f_equal. split_comparisons.
Qed.

Lemma date_leb_first_of_month (d : date) :
  valid_date d = true -> date_leb (first_of_month d) d = true.
Proof.
  intros Hv. pose proof (valid_date_bounds d Hv) as (Hy & Hm & Hd & Hd').
  unfold date_leb, first_of_month. cbn [year month day]. split_comparisons.
Qed.

Lemma date_leb_first_of_previous_month (d : date) :
  valid_date d = true -> date_leb (first_of_previous_month d) d = true.
Proof.
  intros Hv. pose proof (valid_date_bounds d Hv) as (Hy & Hm & Hd & Hd').
  unfold date_leb, first_of_previous_month.
  destruct (month d =? 1) eqn:E; cbn [year month day]; split_comparisons.
Qed.

Lemma date_leb_antisym (a b : date) :
  date_leb a b = true -> date_leb b a = true -> a = b.
Proof.
  destruct a as [ya ma da], b as [yb mb db]. unfold date_leb.
  cbn [year month day]. intros H1 H2.
  assert (ya = yb /\ ma = mb /\ da = db) as (-> & -> & ->);
    [|reflexivity].
  revert H1 H2. split_comparisons; intros; try discriminate; lia.
Qed.

Lemma isoformat_inj (a b : date) :
  valid_date a = true -> valid_date b = true ->
  isoformat a = isoformat b -> a = b.
Proof.
  intros Ha Hb E. apply date_leb_antisym.
  - rewrite <- isoformat_leb, E by assumption. apply str_leb_refl.
  - rewrite <- isoformat_leb, E by assumption. apply str_leb_refl.
Qed.

(** The two readings of the clock on either side of midnight: the range is
    the range of the second day. *)
Lemma get_date_range_across_midnight (nd : char -> option Z) (today : date) :
  extends_ascii nd -> valid_date today = true -> today <> date_min ->
  get_date_range_at nd (previous_day today) today = get_date_range nd today.
Proof.
  intros Hnd Hv Hne.
  pose proof (previous_day_valid today Hv Hne) as Hp.
  pose proof (valid_date_bounds today Hv) as (Hy & Hm & Hd & Hd').
  unfold get_date_range_at at 1.
  rewrite get_begin_of_month_ok by assumption. unfold get_today. cbn [bind].
  destruct (Z.eq_dec (day today) 1) as [E|E].
  - rewrite first_of_previous_day by assumption.
    rewrite get_date_range_first_day, first_of_previous_day by assumption.
    rewrite str_eqb_neq; [reflexivity|].
    intros H. apply isoformat_inj in H; [| |exact Hv].
    + unfold first_of_previous_month in H.
      destruct today as [y m d]. cbn [year month day] in *.
      destruct (m =? 1) eqn:Em; injection H; intros; lia.
    + rewrite <- first_of_previous_day by assumption.
      now apply first_of_month_valid.
  - rewrite get_date_range_other_day by assumption.
    assert (Ef : first_of_month (previous_day today) = first_of_month today).
    { unfold previous_day, first_of_month.
      replace (day today =? 1) with false by (symmetry; now apply Z.eqb_neq).
      reflexivity. }
    rewrite Ef, isoformat_first_eqb by assumption.
    now replace (day today =? 1) with false by (symmetry; now apply Z.eqb_neq).
Qed.

(* ===================================================================== *)
(** * The amount as a number with three decimals *)
(* ===================================================================== *)

Lemma fixed3_three_decimals (s : bool) (n : Z) :
  fixed3 s n = three_decimals s n.
Proof.
  unfold fixed3, three_decimals.
  pose proof (Z.mod_pos_bound n 1000 ltac:(lia)) as B.
  rewrite fmt_0d_3 by assumption.
  replace (n mod 1000 mod 10) with (n mod 10)
    by (Z.div_mod_to_equations; lia).
  reflexivity.
Qed.

Lemma thousandths_of_finite (s s' : bool) (m : positive) (e n : Z) :
  thousandths_of (S754_finite s m e) s' n -> s' = s /\ n = thousandths m e.
Proof.
  intros [-> Hn]. split; [reflexivity|]. unfold thousandths.
  destruct (0 <=? e) eqn:E.
  - apply Z.leb_le in E.
    rewrite (Z.max_l e 0), (Z.max_r (- e) 0) in Hn by lia.
    destruct Hn as [Hn _]. change (2 ^ 0) with 1 in Hn. lia.
  - apply Z.leb_gt in E.
    rewrite (Z.max_r e 0), (Z.max_l (- e) 0) in Hn by lia.
    change (2 ^ 0) with 1 in Hn. rewrite Z.mul_1_r in Hn.
    symmetry. apply nearest_even_unique; [apply Z.pow_pos_nonneg; lia|exact Hn].
Qed.

(** Every finite float has its thousandths. *)
Lemma thousandths_of_exists (s : bool) (m : positive) (e : Z) :
  thousandths_of (S754_finite s m e) s (thousandths m e).
Proof.
  split; [reflexivity|]. unfold thousandths.
  destruct (0 <=? e) eqn:E.
  - apply Z.leb_le in E.
    rewrite (Z.max_l e 0), (Z.max_r (- e) 0) by lia.
    change (2 ^ 0) with 1. unfold nearest_even.
    replace (Zpos m * 2 ^ e * 1000 - Zpos m * 2 ^ e * 1000 * 1) with 0 by ring.
    split; [simpl; lia|]. simpl. intros H. discriminate H.
  - apply Z.leb_gt in E.
    rewrite (Z.max_r e 0), (Z.max_l (- e) 0) by lia.
    change (2 ^ 0) with 1. rewrite Z.mul_1_r.
    apply div_half_even_nearest. apply Z.pow_pos_nonneg; lia.
Qed.

Lemma format_3f_thousandths (x : spec_float) (s : bool) (n : Z) :
  thousandths_of x s n -> format_3f x = three_decimals s n.
Proof.
  destruct x as [s'|s'| |s' m e]; cbn [thousandths_of format_3f].
  - intros [-> ->]. apply fixed3_three_decimals.
  - tauto.
  - tauto.
  - intros H. apply thousandths_of_finite in H as [-> ->].
    apply fixed3_three_decimals.
Qed.

Section FormatText.

Variable nd : char -> option Z.

Lemma format_parsed_text (bi : BillingInfo) (dts dte : datetime) :
  strptime nd (start bi) = Ok dts ->
  strptime nd (end_ bi) = Ok dte ->
  dt_date dte <> date_min ->
  format nd bi
  = Ok (billing_message (dt_date dts) (previous_day (dt_date dte))
          (format_3f (fval (amount bi)))).
Proof.
  intros Hs He Hne.
  destruct (format_parsed nd bi dts dte Hs He Hne) as (total & Ht & ->).
  now rewrite (format_3f_round3 _ _ Ht).
Qed.

Hypothesis nd_ascii : extends_ascii nd.

Lemma format_ascii (bi : BillingInfo) :
  is_ascii (start bi) -> is_ascii (end_ bi) ->
  format nd bi = format ascii_decimal bi.
Proof.
  intros Hs He. unfold format, format_try.
  now rewrite !(strptime_ascii nd nd_ascii) by assumption.
Qed.

Lemma format_canonical (bi : BillingInfo) (ds de : date) :
  valid_date ds = true -> valid_date de = true -> de <> date_min ->
  start bi = isoformat ds -> end_ bi = isoformat de ->
  format nd bi
  = Ok (billing_message ds (previous_day de) (format_3f (fval (amount bi)))).
Proof.
  intros Hs He Hne Es Ee.
  apply (format_parsed_text bi (mkdatetime ds 0) (mkdatetime de 0)).
  - rewrite Es. now apply strptime_isoformat.
  - rewrite Ee. now apply strptime_isoformat.
  - exact Hne.
Qed.

End FormatText.

(* ===================================================================== *)
(** * The unit tests of the repository *)
(* ===================================================================== *)

(** [test_date_helper.py], with the clock frozen on the date of each test. *)
Example test_get_date_range :
  map (get_date_range ascii_decimal)
    [mkdate 2025 11 21; mkdate 2025 11 1; mkdate 2025 1 1;
     mkdate 2025 11 30; mkdate 2025 2 28; mkdate 2024 2 29]
  = [Ok (u "2025-11-01", u "2025-11-21");
     Ok (u "2025-10-01", u "2025-11-01");
     Ok (u "2024-12-01", u "2025-01-01");
     Ok (u "2025-11-01", u "2025-11-30");
     Ok (u "2025-02-01", u "2025-02-28");
     Ok (u "2024-02-01", u "2024-02-29")].
Proof. vm_compute. reflexivity. Qed.

(** [test_formatters.py]. *)
Example test_format :
  map (format ascii_decimal)
    [example_period "2025-11-01" "2025-11-22" amount_123_456;
     example_period "2025-11-01" "2025-11-15" amount_99_9999;
     example_period "2025-11-01" "2025-11-22" amount_zero;
     example_period "2024-12-01" "2025-01-01" amount_100;
     example_period "invalid-date" "2025-11-22" amount_100]
  = [Ok (u "11/01～11/21の請求額は、123.456 USDです。");
     Ok (u "11/01～11/14の請求額は、100.000 USDです。");
     Ok (u "11/01～11/21の請求額は、0.000 USDです。");
     Ok (u "12/01～12/31の請求額は、100.000 USDです。");
     Ok []].
Proof. vm_compute. reflexivity. Qed.

(** The literals of the tests are the doubles the interpreter reads. *)
Example float_literals :
  fval amount_123_456 = S754_finite false 8687443681197687 (-46)
  /\ fval amount_99_9999 = S754_finite false 7036867380891982 (-46)
  /\ fval amount_100 = S754_finite false 7036874417766400 (-46)
  /\ round3 (fval amount_99_9999) = Ok (fval amount_100).
Proof. repeat split; vm_compute; reflexivity. Qed.

(* ===================================================================== *)
(** * The properties of the specification: the date range *)
(* ===================================================================== *)

Lemma date_eq_dec (a b : date) : {a = b} + {a <> b}.
Proof. decide equality; apply Z.eq_dec. Qed.

(** C1.  On every date that is not the first of its month the date range
    is the first day of that month and the date itself, both in the form
    [YYYY-MM-DD]. *)
Theorem date_range_other_days (nd : char -> option Z) (today : date) :
  valid_date today = true -> day today <> 1 ->
  get_date_range nd today
  = Ok (isoformat (first_of_month today), isoformat today)
  /\ canonical_text (isoformat (first_of_month today)) = true
  /\ canonical_text (isoformat today) = true.
Proof.
  intros Hv Hd. split; [now apply get_date_range_other_day|].
  split; apply canonical_text_isoformat; [now apply first_of_month_valid|exact Hv].
Qed.

Lemma date_range_other_days_witness :
  valid_date (mkdate 2024 2 29) = true
  /\ day (mkdate 2024 2 29) <> 1
  /\ get_date_range ascii_decimal (mkdate 2024 2 29)
     = Ok (u "2024-02-01", u "2024-02-29").
Proof.
  split; [reflexivity|].
  split; [discriminate|].
  exact (proj1 (date_range_other_days ascii_decimal (mkdate 2024 2 29)
                  eq_refl ltac:(discriminate))).
Defined.

(** C2, as amended.  On the first day of a month, other than
    [0001-01-01], the date range is the first day of the month before and
    the date itself: one day is taken from the date and the result is put
    on its first of month.  The day before is the previous day of the day
    count, whatever the length of the month before, also across the
    change of year. *)
Theorem date_range_first_day (nd : char -> option Z) (today : date) :
  extends_ascii nd -> valid_date today = true -> day today = 1 ->
  today <> date_min ->
  get_date_range nd today
  = Ok (isoformat (first_of_month (previous_day today)), isoformat today)
  /\ first_of_month (previous_day today) = first_of_previous_month today
  /\ ymd_to_ord (year (previous_day today)) (month (previous_day today))
       (day (previous_day today))
     = ymd_to_ord (year today) (month today) (day today) - 1
  /\ canonical_text (isoformat (first_of_month (previous_day today))) = true
  /\ canonical_text (isoformat today) = true.
Proof.
  intros Hnd Hv Hd Hne.
  split; [now apply get_date_range_first_day|].
  split; [now apply first_of_previous_day|].
  split; [now apply ymd_to_ord_previous_day|].
  split; apply canonical_text_isoformat; [|exact Hv].
  apply first_of_month_valid. now apply previous_day_valid.
Qed.

Lemma date_range_first_day_witness :
  extends_ascii ascii_decimal
  /\ valid_date (mkdate 2025 1 1) = true
  /\ day (mkdate 2025 1 1) = 1
  /\ mkdate 2025 1 1 <> date_min
  /\ get_date_range ascii_decimal (mkdate 2025 1 1)
     = Ok (u "2024-12-01", u "2025-01-01").
Proof.
  split; [exact ascii_decimal_extends|].
  split; [reflexivity|].
  split; [reflexivity|].
  split; [discriminate|].
  exact (proj1 (date_range_first_day ascii_decimal (mkdate 2025 1 1)
                  ascii_decimal_extends eq_refl eq_refl ltac:(discriminate))).
Defined.

(** C2 as stated fails on [0001-01-01]: the day before is outside the
    range of [datetime] and the call raises [OverflowError]. *)
Lemma date_range_first_day_counterexample :
  valid_date (mkdate 1 1 1) = true
  /\ day (mkdate 1 1 1) = 1
  /\ get_date_range ascii_decimal (mkdate 1 1 1) = Raise OverflowError
  /\ get_date_range ascii_decimal (mkdate 1 1 1)
     <> Ok (isoformat (first_of_previous_month (mkdate 1 1 1)),
            isoformat (mkdate 1 1 1)).
Proof.
  split; [reflexivity|]. split; [reflexivity|].
  assert (E : get_date_range ascii_decimal (mkdate 1 1 1) = Raise OverflowError)
    by (vm_compute; reflexivity).
  split; [exact E|]. rewrite E. discriminate.
Qed.

(** C7, as amended.  For every valid date other than [0001-01-01] the date
    range is defined and is a function of the date alone: whatever the
    digit table of the interpreter, the call made while the clock shows
    [today] returns one and the same pair, also when midnight fell between
    its two readings of the clock. *)
Theorem date_range_function_of_today (today : date) :
  valid_date today = true -> today <> date_min ->
  exists start_date end_date,
    forall nd, extends_ascii nd ->
      get_date_range nd today = Ok (start_date, end_date)
      /\ get_date_range_at nd (previous_day today) today
         = Ok (start_date, end_date).
Proof.
  intros Hv Hne. destruct (Z.eq_dec (day today) 1) as [Hd|Hd].
  - exists (isoformat (first_of_month (previous_day today))), (isoformat today).
    intros nd Hnd. rewrite get_date_range_across_midnight by assumption.
    split; now apply get_date_range_first_day.
  - exists (isoformat (first_of_month today)), (isoformat today).
    intros nd Hnd. rewrite get_date_range_across_midnight by assumption.
    split; now apply get_date_range_other_day.
Qed.

Lemma date_range_function_of_today_witness :
  valid_date (mkdate 2025 11 1) = true
  /\ mkdate 2025 11 1 <> date_min
  /\ exists start_date end_date,
       forall nd, extends_ascii nd ->
         get_date_range nd (mkdate 2025 11 1) = Ok (start_date, end_date)
         /\ get_date_range_at nd (previous_day (mkdate 2025 11 1))
              (mkdate 2025 11 1)
            = Ok (start_date, end_date).
Proof.
  split; [reflexivity|].
  split; [discriminate|].
  exact (date_range_function_of_today (mkdate 2025 11 1) eq_refl
           ltac:(discriminate)).
Defined.

(** C7 as stated fails on [0001-01-01], a valid date: no pair is
    returned, the call raises. *)
Lemma date_range_total_counterexample :
  valid_date date_min = true
  /\ ~ exists pair, get_date_range ascii_decimal date_min = Ok pair.
Proof.
  split; [reflexivity|].
  intros [pair H].
  rewrite (get_date_range_min ascii_decimal ascii_decimal_extends) in H.
  discriminate.
Qed.

(** C8.  Whatever pair the date range returns for a valid date, its start
    is not after its end, as texts and as the dates they are the canonical
    texts of; the one valid date for which no pair is returned is
    [0001-01-01]. *)
Theorem date_range_ordered (nd : char -> option Z) (today : date) :
  extends_ascii nd -> valid_date today = true ->
  match get_date_range nd today with
  | Ok (start_date, end_date) =>
      str_leb start_date end_date = true
      /\ exists ds de,
           valid_date ds = true /\ valid_date de = true
           /\ start_date = isoformat ds /\ end_date = isoformat de
           /\ date_leb ds de = true
  | Raise _ => today = date_min
  end.
Proof.
  intros Hnd Hv.
  assert (Hgen : forall ds, valid_date ds = true -> date_leb ds today = true ->
            str_leb (isoformat ds) (isoformat today) = true
            /\ exists ds' de,
                 valid_date ds' = true /\ valid_date de = true
                 /\ isoformat ds = isoformat ds' /\ isoformat today = isoformat de
                 /\ date_leb ds' de = true).
  { intros ds Hds Hle. split; [now rewrite isoformat_leb|].
    exists ds, today. now repeat split. }
  destruct (Z.eq_dec (day today) 1) as [Hd|Hd].
  - destruct (get_date_range nd today) as [[s e]|x] eqn:E.
    + assert (Hne : today <> date_min).
      { intros ->. rewrite get_date_range_min in E by assumption. discriminate. }
      rewrite get_date_range_first_day in E by assumption.
      injection E as <- <-.
      rewrite first_of_previous_day by assumption.
      apply Hgen; [|now apply date_leb_first_of_previous_month].
      rewrite <- first_of_previous_day by assumption.
      apply first_of_month_valid. now apply previous_day_valid.
    + destruct (date_eq_dec today date_min) as [Heq|Hne]; [exact Heq|].
      rewrite get_date_range_first_day in E by assumption. discriminate.
  - rewrite get_date_range_other_day by assumption.
    apply Hgen; [now apply first_of_month_valid
                |now apply date_leb_first_of_month].
Qed.

Lemma date_range_ordered_witness :
  extends_ascii ascii_decimal
  /\ valid_date (mkdate 2025 11 1) = true
  /\ match get_date_range ascii_decimal (mkdate 2025 11 1) with
     | Ok (start_date, end_date) =>
         str_leb start_date end_date = true
         /\ exists ds de,
              valid_date ds = true /\ valid_date de = true
              /\ start_date = isoformat ds /\ end_date = isoformat de
              /\ date_leb ds de = true
     | Raise _ => mkdate 2025 11 1 = date_min
     end.
Proof.
  split; [exact ascii_decimal_extends|].
  split; [reflexivity|].
  exact (date_range_ordered ascii_decimal (mkdate 2025 11 1)
           ascii_decimal_extends eq_refl).
Defined.

(* ===================================================================== *)
(** * The properties of the specification: the message *)
(* ===================================================================== *)

(** C3, as amended.  When [start] and [end] are the canonical texts of
    valid dates and [end] is not [0001-01-01], the message is the start as
    [MM/DD], the separator, the day before the end as [MM/DD], the fixed
    phrase, the amount as [.3f] prints it and the closing phrase; the
    amount shown is the amount itself, the rounding by [round] does not
    change what [.3f] prints. *)
Theorem format_valid_period
    (nd : char -> option Z) (bi : BillingInfo) (ds de : date) :
  extends_ascii nd ->
  valid_date ds = true -> valid_date de = true ->
  start bi = isoformat ds -> end_ bi = isoformat de ->
  de <> date_min ->
  format nd bi
  = Ok (mm_dd ds ++ u "～" ++ mm_dd (previous_day de) ++ u "の請求額は、"
          ++ format_3f (fval (amount bi)) ++ u " USDです。").
Proof.
  intros Hnd Hs He Es Ee Hne.
  now apply (format_canonical nd Hnd bi ds de).
Qed.

Lemma format_valid_period_witness :
  extends_ascii ascii_decimal
  /\ valid_date (mkdate 2025 11 1) = true
  /\ valid_date (mkdate 2025 11 22) = true
  /\ u "2025-11-01" = isoformat (mkdate 2025 11 1)
  /\ u "2025-11-22" = isoformat (mkdate 2025 11 22)
  /\ mkdate 2025 11 22 <> date_min
  /\ format ascii_decimal (example_period "2025-11-01" "2025-11-22" amount_123_456)
     = Ok (u "11/01～11/21の請求額は、123.456 USDです。").
Proof.
  split; [exact ascii_decimal_extends|].
  split; [reflexivity|]. split; [reflexivity|].
  split; [reflexivity|]. split; [reflexivity|].
  split; [discriminate|].
  exact (format_valid_period ascii_decimal
           (example_period "2025-11-01" "2025-11-22" amount_123_456)
           (mkdate 2025 11 1) (mkdate 2025 11 22)
           ascii_decimal_extends eq_refl eq_refl eq_refl eq_refl
           ltac:(discriminate)).
Defined.

(** C3 as stated fails when [end] is [0001-01-01], the canonical text of a
    valid date: the day before is out of range, the exception is caught
    and the empty string returned. *)
Lemma format_valid_period_counterexample :
  valid_date (mkdate 2025 11 1) = true
  /\ valid_date (mkdate 1 1 1) = true
  /\ u "2025-11-01" = isoformat (mkdate 2025 11 1)
  /\ u "0001-01-01" = isoformat (mkdate 1 1 1)
  /\ format ascii_decimal (example_period "2025-11-01" "0001-01-01" amount_123_456)
     = Ok [].
Proof. repeat split; vm_compute; reflexivity. Qed.

(** C4.  When [start] or [end] does not parse as a date, [format] returns
    the empty string; it returns, it does not raise. *)
Theorem format_unparsed_dates (nd : char -> option Z) (bi : BillingInfo) :
  (exists e, strptime nd (start bi) = Raise e)
  \/ (exists e, strptime nd (end_ bi) = Raise e) ->
  format nd bi = Ok [].
Proof.
  intros [[e H]|[e H]].
  - now apply (format_unparsed_start nd bi e).
  - now apply (format_unparsed_end nd bi e).
Qed.

Lemma format_unparsed_dates_witness :
  ((exists e, strptime ascii_decimal
                (start (example_period "invalid-date" "2025-11-22" amount_100))
              = Raise e)
   \/ (exists e, strptime ascii_decimal
                   (end_ (example_period "invalid-date" "2025-11-22" amount_100))
                 = Raise e))
  /\ format ascii_decimal (example_period "invalid-date" "2025-11-22" amount_100)
     = Ok [].
Proof.
  assert (H : (exists e, strptime ascii_decimal
                 (start (example_period "invalid-date" "2025-11-22" amount_100))
               = Raise e)
              \/ (exists e, strptime ascii_decimal
                    (end_ (example_period "invalid-date" "2025-11-22" amount_100))
                  = Raise e)).
  { left. exists ValueError. reflexivity. }
  split; [exact H|].
  exact (format_unparsed_dates ascii_decimal
           (example_period "invalid-date" "2025-11-22" amount_100) H).
Defined.

(** C6, as amended.  For valid dates, [end] other than [0001-01-01], and a
    finite amount, the amount in the message is its magnitude rounded to
    the nearest thousandth, ties to even, written with the sign, the
    integer part, a point and exactly three decimals. *)
Theorem format_amount_three_decimals
    (nd : char -> option Z) (bi : BillingInfo) (ds de : date)
    (s : bool) (n : Z) :
  extends_ascii nd ->
  valid_date ds = true -> valid_date de = true ->
  start bi = isoformat ds -> end_ bi = isoformat de ->
  de <> date_min ->
  thousandths_of (fval (amount bi)) s n ->
  format nd bi
  = Ok (billing_message ds (previous_day de) (three_decimals s n)).
Proof.
  intros Hnd Hs He Es Ee Hne Hn.
  rewrite (format_canonical nd Hnd bi ds de) by assumption.
  now rewrite (format_3f_thousandths _ s n Hn).
Qed.

Lemma thousandths_of_99_9999 :
  thousandths_of (fval amount_99_9999) false 100000.
Proof.
  split; [reflexivity|]. split.
  - vm_compute. discriminate.
  - vm_compute. discriminate.
Defined.

Lemma format_amount_three_decimals_witness :
  extends_ascii ascii_decimal
  /\ valid_date (mkdate 2025 11 1) = true
  /\ valid_date (mkdate 2025 11 15) = true
  /\ u "2025-11-01" = isoformat (mkdate 2025 11 1)
  /\ u "2025-11-15" = isoformat (mkdate 2025 11 15)
  /\ mkdate 2025 11 15 <> date_min
  /\ thousandths_of (fval amount_99_9999) false 100000
  /\ format ascii_decimal (example_period "2025-11-01" "2025-11-15" amount_99_9999)
     = Ok (u "11/01～11/14の請求額は、100.000 USDです。").
Proof.
  split; [exact ascii_decimal_extends|].
  split; [reflexivity|]. split; [reflexivity|].
  split; [reflexivity|]. split; [reflexivity|].
  split; [discriminate|].
  split; [exact thousandths_of_99_9999|].
  exact (format_amount_three_decimals ascii_decimal
           (example_period "2025-11-01" "2025-11-15" amount_99_9999)
           (mkdate 2025 11 1) (mkdate 2025 11 15) false 100000
           ascii_decimal_extends eq_refl eq_refl eq_refl eq_refl
           ltac:(discriminate) thousandths_of_99_9999).
Defined.

(** C6 as stated fails on an amount that is not finite: for an infinite
    amount the message shows [inf], without point or decimals. *)
Lemma format_amount_counterexample :
  valid_date (mkdate 2025 11 1) = true
  /\ valid_date (mkdate 2025 11 22) = true
  /\ u "2025-11-01" = isoformat (mkdate 2025 11 1)
  /\ u "2025-11-22" = isoformat (mkdate 2025 11 22)
  /\ format ascii_decimal (example_period "2025-11-01" "2025-11-22" amount_inf)
     = Ok (u "11/01～11/21の請求額は、inf USDです。").
Proof. repeat split; vm_compute; reflexivity. Qed.

(** C9, as amended.  When [start] and [end] both parse, [format] does not
    compare them: it returns a message that is not empty whatever their
    order and whatever the amount, unless [end] is [0001-01-01]; then, and
    only then, it returns the empty string. *)
Theorem format_ignores_order
    (nd : char -> option Z) (bi : BillingInfo) (dts dte : datetime) :
  strptime nd (start bi) = Ok dts ->
  strptime nd (end_ bi) = Ok dte ->
  (dt_date dte <> date_min ->
   format nd bi
   = Ok (billing_message (dt_date dts) (previous_day (dt_date dte))
           (format_3f (fval (amount bi))))
   /\ format nd bi <> Ok [])
  /\ (dt_date dte = date_min -> format nd bi = Ok []).
Proof.
  intros Hs He. split.
  - intros Hne. rewrite (format_parsed_text nd bi dts dte Hs He Hne).
    split; [reflexivity|]. intros H. injection H as H.
    now apply billing_message_nonempty in H.
  - intros Hmin. now apply (format_end_min nd bi dts dte).
Qed.

(** The end before the start: the message shows a last day before the
    first. *)
Lemma format_ignores_order_witness :
  strptime ascii_decimal (start (example_period "2025-11-22" "2025-11-01" amount_100))
  = Ok (mkdatetime (mkdate 2025 11 22) 0)
  /\ strptime ascii_decimal (end_ (example_period "2025-11-22" "2025-11-01" amount_100))
     = Ok (mkdatetime (mkdate 2025 11 1) 0)
  /\ mkdate 2025 11 1 <> date_min
  /\ format ascii_decimal (example_period "2025-11-22" "2025-11-01" amount_100)
     = Ok (u "11/22～10/31の請求額は、100.000 USDです。").
Proof.
  split; [reflexivity|]. split; [reflexivity|]. split; [discriminate|].
  exact (proj1 (proj1 (format_ignores_order ascii_decimal
                         (example_period "2025-11-22" "2025-11-01" amount_100)
                         (mkdatetime (mkdate 2025 11 22) 0)
                         (mkdatetime (mkdate 2025 11 1) 0) eq_refl eq_refl)
                  ltac:(discriminate))).
Defined.

(** C9 as stated fails when [end] is [0001-01-01]: both texts parse and
    the empty string is returned, through the exception branch. *)
Lemma format_ignores_order_counterexample :
  strptime ascii_decimal (start (example_period "2025-11-01" "0001-01-01" amount_100))
  = Ok (mkdatetime (mkdate 2025 11 1) 0)
  /\ strptime ascii_decimal (end_ (example_period "2025-11-01" "0001-01-01" amount_100))
     = Ok (mkdatetime (mkdate 1 1 1) 0)
  /\ format_try ascii_decimal (example_period "2025-11-01" "0001-01-01" amount_100)
     = Raise OverflowError
  /\ format ascii_decimal (example_period "2025-11-01" "0001-01-01" amount_100)
     = Ok [].
Proof. repeat split; vm_compute; reflexivity. Qed.

(** C10.  The parser is lenient: [2025-1-5] is not in the canonical form,
    yet [format] accepts it and shows it padded, as [01/05]. *)
Theorem format_accepts_unpadded (nd : char -> option Z) (x : float) :
  extends_ascii nd ->
  canonical_text (u "2025-1-5") = false
  /\ format nd (example_period "2025-1-5" "2025-11-22" x)
     = Ok (u "01/05～11/21の請求額は、" ++ format_3f (fval x) ++ u " USDです。").
Proof.
  intros Hnd. split; [reflexivity|].
  apply (format_parsed_text nd (example_period "2025-1-5" "2025-11-22" x)
           (mkdatetime (mkdate 2025 1 5) 0) (mkdatetime (mkdate 2025 11 22) 0)).
  - rewrite (strptime_ascii nd Hnd) by (repeat constructor). reflexivity.
  - rewrite (strptime_ascii nd Hnd) by (repeat constructor). reflexivity.
  - discriminate.
Qed.

Lemma format_accepts_unpadded_witness :
  extends_ascii ascii_decimal
  /\ canonical_text (u "2025-1-5") = false
  /\ format ascii_decimal (example_period "2025-1-5" "2025-11-22" amount_100)
     = Ok (u "01/05～11/21の請求額は、100.000 USDです。").
Proof.
  split; [exact ascii_decimal_extends|].
  exact (format_accepts_unpadded ascii_decimal amount_100 ascii_decimal_extends).
Defined.

(* ===================================================================== *)
(** * The properties of the specification: the workflow *)
(* ===================================================================== *)

Section ServiceProperties.

Context {W : Type}.
Context {cost_calculator : CostCalculatorBase W}.
Context {token_repository : TokenRepositoryBase W}.
Context {message_formatter : MessageFormatterBase W}.
Context {notifier : NotifierBase W}.

(** C5.  Whatever the collaborators do, [notify] calls them in order and
    stops at the first that yields nothing: no billing information, an
    empty message or no credentials end the run with [False], the later
    collaborators are not called and nothing is sent; otherwise the
    message is sent once, with the credentials fetched, and the result
    of [send] is returned. *)
Theorem notify_short_circuits (w : W) :
  let '(billing_info, w1) := get_billing_info w in
  match billing_info with
  | None =>
      notify (w, []) = (false, (w1, [CallGetBillingInfo]))
  | Some bi =>
      let '(message, w2) := format_message bi w1 in
      match message with
      | [] =>
          notify (w, [])
          = (false, (w2, [CallGetBillingInfo; CallFormat bi]))
      | _ :: _ =>
          let '(credentials, w3) := get_credentials w2 in
          match credentials with
          | None =>
              notify (w, [])
              = (false, (w3, [CallGetBillingInfo; CallFormat bi;
                              CallGetCredentials]))
          | Some c =>
              let '(success, w4) := send c message w3 in
              notify (w, [])
              = (success, (w4, [CallGetBillingInfo; CallFormat bi;
                                CallGetCredentials; CallSend c message]))
          end
      end
  end.
Proof.
  unfold notify, mbind, perform, ret. cbn [fst snd app].
  destruct (get_billing_info w) as [[bi|] w1]; [|reflexivity].
  cbn [fst snd app].
  destruct (format_message bi w1) as [[|c0 message] w2]; [reflexivity|].
  cbn [fst snd app].
  destruct (get_credentials w2) as [[c|] w3]; [|reflexivity].
  cbn [fst snd app].
  destruct (send c (c0 :: message) w3) as [success w4]. reflexivity.
Qed.

(** At most one message is sent in a run, and none when the run fails
    before the send. *)
Lemma notify_sends_at_most_once (w : W) :
  (sends (snd (snd (notify (w, [])))) <= 1)%nat.
Proof.
  unfold notify, mbind, perform, ret. cbn [fst snd app].
  destruct (get_billing_info w) as [[bi|] w1]; [|cbn; lia].
  cbn [fst snd app].
  destruct (format_message bi w1) as [[|c0 message] w2]; [cbn; lia|].
  cbn [fst snd app].
  destruct (get_credentials w2) as [[c|] w3]; [|cbn; lia].
  cbn [fst snd app].
  destruct (send c (c0 :: message) w3) as [success w4]. cbn. lia.
Qed.

End ServiceProperties.

(** With [BillingMessageFormatter] as the formatter, billing information
    whose dates do not parse ends the run before the credentials are
    fetched. *)
Lemma notify_unparsed_dates
    {W : Type} {cc : CostCalculatorBase W} {tr : TokenRepositoryBase W}
    {nt : NotifierBase W} (nd : char -> option Z) (w w1 : W)
    (bi : BillingInfo) (e : exn) :
  get_billing_info w = (Some bi, w1) ->
  strptime nd (start bi) = Raise e ->
  @notify W cc tr (BillingMessageFormatter nd W) nt (w, [])
  = (false, (w1, [CallGetBillingInfo; CallFormat bi])).
Proof.
  intros Hb Hs.
  unfold notify, mbind, perform, ret. cbn [fst snd app].
  rewrite Hb. cbn [fst snd app format_message BillingMessageFormatter].
  rewrite (format_unparsed_start nd bi e Hs). reflexivity.
Qed.

(* ===================================================================== *)
(** * Further properties: the date range *)
(* ===================================================================== *)

Lemma ordinal_first_of_month (d : date) :
  ordinal d - ordinal (first_of_month d) = day d - 1.
Proof. unfold ordinal, first_of_month, ymd_to_ord. cbn [year month day]. lia. Qed.

Lemma first_of_month_previous_day (d : date) :
  day d <> 1 -> first_of_month (previous_day d) = first_of_month d.
Proof.
  intros H. unfold previous_day, first_of_month.
  now replace (day d =? 1) with false by (symmetry; now apply Z.eqb_neq).
Qed.

Lemma get_date_range_yesterday (nd : char -> option Z) (today : date) :
  extends_ascii nd -> valid_date today = true -> today <> date_min ->
  get_date_range nd today
  = Ok (isoformat (first_of_month (previous_day today)), isoformat today).
Proof.
  intros Hnd Hv Hne. destruct (Z.eq_dec (day today) 1) as [E|E].
  - now apply get_date_range_first_day.
  - rewrite first_of_month_previous_day by assumption.
    now apply get_date_range_other_day.
Qed.

(** X1.  The test [start_date == end_date] of [get_date_range] compares
    two texts; it holds exactly on the first day of a month. *)
Theorem first_of_month_test (today : date) :
  valid_date today = true ->
  exists start_date end_date,
    get_begin_of_month today = Ok start_date
    /\ get_today today = Ok end_date
    /\ (str_eqb start_date end_date = true <-> day today = 1).
Proof.
  intros Hv. exists (isoformat (first_of_month today)), (isoformat today).
  split; [now apply get_begin_of_month_ok|]. split; [reflexivity|].
  rewrite isoformat_first_eqb by assumption. apply Z.eqb_eq.
Qed.

Lemma first_of_month_test_witness :
  valid_date (mkdate 2025 11 30) = true
  /\ exists start_date end_date,
       get_begin_of_month (mkdate 2025 11 30) = Ok start_date
       /\ get_today (mkdate 2025 11 30) = Ok end_date
       /\ (str_eqb start_date end_date = true <-> day (mkdate 2025 11 30) = 1).
Proof.
  split; [reflexivity|].
  exact (first_of_month_test (mkdate 2025 11 30) eq_refl).
Defined.

(** X2.  [get_date_range] reads the clock twice.  When midnight falls
    between the two readings, the range is the range of the day that has
    begun. *)
Theorem clock_read_across_midnight (nd : char -> option Z) (today : date) :
  extends_ascii nd -> valid_date today = true -> today <> date_min ->
  get_date_range_at nd (previous_day today) today = get_date_range nd today.
Proof. apply get_date_range_across_midnight. Qed.

Lemma clock_read_across_midnight_witness :
  extends_ascii ascii_decimal
  /\ valid_date (mkdate 2026 1 1) = true
  /\ mkdate 2026 1 1 <> date_min
  /\ get_date_range_at ascii_decimal (mkdate 2025 12 31) (mkdate 2026 1 1)
     = Ok (u "2025-12-01", u "2026-01-01").
Proof.
  split; [exact ascii_decimal_extends|].
  split; [reflexivity|]. split; [discriminate|].
  exact (eq_trans
           (clock_read_across_midnight ascii_decimal (mkdate 2026 1 1)
              ascii_decimal_extends eq_refl ltac:(discriminate))
           eq_refl).
Defined.

(** X3.  The range returned is never empty: it starts on the first day of
    the month of yesterday and ends today, strictly later, after as many
    days as the day number of yesterday, between 1 and 31. *)
Theorem date_range_not_empty (nd : char -> option Z) (today : date) :
  extends_ascii nd -> valid_date today = true -> today <> date_min ->
  exists first,
    first = first_of_month (previous_day today)
    /\ get_date_range nd today = Ok (isoformat first, isoformat today)
    /\ valid_date first = true
    /\ ordinal today - ordinal first = day (previous_day today)
    /\ 1 <= ordinal today - ordinal first <= 31
    /\ str_leb (isoformat today) (isoformat first) = false.
Proof.
  intros Hnd Hv Hne. exists (first_of_month (previous_day today)).
  pose proof (previous_day_valid today Hv Hne) as Hp.
  pose proof (first_of_month_valid _ Hp) as Hf.
  pose proof (valid_date_bounds _ Hp) as (_ & _ & Hd & Hd').
  pose proof (ymd_to_ord_previous_day today Hv Hne) as Ho.
  fold (ordinal (previous_day today)) in Ho. fold (ordinal today) in Ho.
  pose proof (ordinal_first_of_month (previous_day today)) as Hm.
  assert (Hlen : ordinal today - ordinal (first_of_month (previous_day today))
                 = day (previous_day today)) by lia.
  split; [reflexivity|].
  split; [now apply get_date_range_yesterday|].
  split; [exact Hf|]. split; [exact Hlen|]. split; [lia|].
  rewrite isoformat_leb by assumption.
  destruct (date_leb today (first_of_month (previous_day today))) eqn:E;
    [|reflexivity].
  exfalso.
  assert (Hle : date_leb (first_of_month (previous_day today)) today = true).
  { destruct (Z.eq_dec (day today) 1) as [E1|E1].
    - rewrite first_of_previous_day by assumption.
      now apply date_leb_first_of_previous_month.
    - rewrite first_of_month_previous_day by assumption.
      now apply date_leb_first_of_month. }
  pose proof (date_leb_antisym _ _ E Hle) as Heq.
  rewrite <- Heq in Hlen. lia.
Qed.

Lemma date_range_not_empty_witness :
  extends_ascii ascii_decimal
  /\ valid_date (mkdate 2024 3 1) = true
  /\ mkdate 2024 3 1 <> date_min
  /\ exists first,
       first = first_of_month (previous_day (mkdate 2024 3 1))
       /\ get_date_range ascii_decimal (mkdate 2024 3 1)
          = Ok (isoformat first, isoformat (mkdate 2024 3 1))
       /\ valid_date first = true
       /\ ordinal (mkdate 2024 3 1) - ordinal first
          = day (previous_day (mkdate 2024 3 1))
       /\ 1 <= ordinal (mkdate 2024 3 1) - ordinal first <= 31
       /\ str_leb (isoformat (mkdate 2024 3 1)) (isoformat first) = false.
Proof.
  split; [exact ascii_decimal_extends|].
  split; [reflexivity|]. split; [discriminate|].
  exact (date_range_not_empty ascii_decimal (mkdate 2024 3 1)
           ascii_decimal_extends eq_refl ltac:(discriminate)).
Defined.

(** X4.  [strptime] with the format [%Y-%m-%d] undoes [isoformat]: the text
    of a date is read back as that date at midnight. *)
Theorem strptime_undoes_isoformat (nd : char -> option Z) (d : date) :
  extends_ascii nd -> valid_date d = true ->
  strptime nd (isoformat d) = Ok (mkdatetime d 0).
Proof. apply strptime_isoformat. Qed.

Lemma strptime_undoes_isoformat_witness :
  extends_ascii ascii_decimal
  /\ valid_date (mkdate 2024 2 29) = true
  /\ strptime ascii_decimal (u "2024-02-29") = Ok (mkdatetime (mkdate 2024 2 29) 0).
Proof.
  split; [exact ascii_decimal_extends|]. split; [reflexivity|].
  exact (strptime_undoes_isoformat ascii_decimal (mkdate 2024 2 29)
           ascii_decimal_extends eq_refl).
Defined.

(* ===================================================================== *)
(** * Further properties: the message *)
(* ===================================================================== *)

(** X5.  [round(amount, 3)] never raises, and the text [.3f] shows for the
    rounded amount is the text it shows for the amount itself: the call to
    [round] in [format] has no effect on the message. *)
Theorem round_is_redundant (x : float) :
  exists total,
    round3 (fval x) = Ok total /\ format_3f total = format_3f (fval x).
Proof.
  destruct (round3_total x) as (r & Hr). exists r.
  split; [exact Hr|]. now apply format_3f_round3.
Qed.

(** X6.  [format] returns the empty text in three cases and no other: the
    start date is not read, the end date is not read, or the end date is
    0001-01-01, which has no day before it. *)
Theorem format_empty_iff (nd : char -> option Z) (bi : BillingInfo) :
  format nd bi = Ok []
  <-> (exists e, strptime nd (start bi) = Raise e)
      \/ (exists e, strptime nd (end_ bi) = Raise e)
      \/ (exists dte, strptime nd (end_ bi) = Ok dte /\ dt_date dte = date_min).
Proof.
  split.
  - intros H.
    destruct (strptime nd (start bi)) as [dts|e] eqn:Hs; [|left; eauto].
    destruct (strptime nd (end_ bi)) as [dte|e] eqn:He; [|right; left; eauto].
    destruct (date_eq_dec (dt_date dte) date_min) as [E|E];
      [right; right; eauto|].
    rewrite (format_parsed_text nd bi dts dte Hs He E) in H.
    injection H as H. now apply billing_message_nonempty in H.
  - intros [(e & H)|[(e & H)|(dte & H & Hmin)]].
    + now apply format_unparsed_start with e.
    + now apply format_unparsed_end with e.
    + destruct (strptime nd (start bi)) as [dts|e] eqn:Hs.
      * now apply format_end_min with dts dte.
      * now apply format_unparsed_start with e.
Qed.

(** X7.  [get_date_range] and [format] together: for every amount the
    message made from the range of [today] shows the period from the first
    day of the month of yesterday to yesterday, and is never the empty
    text. *)
Theorem message_of_date_range (nd : char -> option Z) (today : date) (x : float) :
  extends_ascii nd -> valid_date today = true -> today <> date_min ->
  exists start_date end_date,
    get_date_range nd today = Ok (start_date, end_date)
    /\ format nd (mkBillingInfo start_date end_date x)
       = Ok (billing_message (first_of_month (previous_day today))
               (previous_day today) (format_3f (fval x)))
    /\ format nd (mkBillingInfo start_date end_date x) <> Ok [].
Proof.
  intros Hnd Hv Hne.
  exists (isoformat (first_of_month (previous_day today))), (isoformat today).
  pose proof (previous_day_valid today Hv Hne) as Hp.
  pose proof (first_of_month_valid _ Hp) as Hf.
  split; [now apply get_date_range_yesterday|].
  assert (H : format nd (mkBillingInfo
                           (isoformat (first_of_month (previous_day today)))
                           (isoformat today) x)
              = Ok (billing_message (first_of_month (previous_day today))
                      (previous_day today) (format_3f (fval x)))).
  { apply (format_parsed_text nd
             (mkBillingInfo (isoformat (first_of_month (previous_day today)))
                (isoformat today) x)
             (mkdatetime (first_of_month (previous_day today)) 0)
             (mkdatetime today 0)).
    - cbn [start]. now apply strptime_isoformat.
    - cbn [end_]. now apply strptime_isoformat.
    - exact Hne. }
  split; [exact H|]. rewrite H. intros E. injection E as E.
  now apply billing_message_nonempty in E.
Qed.

Lemma message_of_date_range_witness :
  extends_ascii ascii_decimal
  /\ valid_date (mkdate 2026 1 1) = true
  /\ mkdate 2026 1 1 <> date_min
  /\ exists start_date end_date,
       get_date_range ascii_decimal (mkdate 2026 1 1) = Ok (start_date, end_date)
       /\ format ascii_decimal (mkBillingInfo start_date end_date amount_123_456)
          = Ok (billing_message (first_of_month (previous_day (mkdate 2026 1 1)))
                  (previous_day (mkdate 2026 1 1))
                  (format_3f (fval amount_123_456)))
       /\ format ascii_decimal (mkBillingInfo start_date end_date amount_123_456)
          <> Ok [].
Proof.
  split; [exact ascii_decimal_extends|].
  split; [reflexivity|]. split; [discriminate|].
  exact (message_of_date_range ascii_decimal (mkdate 2026 1 1) amount_123_456
           ascii_decimal_extends eq_refl ltac:(discriminate)).
Defined.

(* ===================================================================== *)
(** * Further properties: the texts [strptime] reads *)
(* ===================================================================== *)

Lemma in_chars_between (lo hi x : char) :
  lo <= x <= hi -> In x (chars_between lo hi).
Proof.
  intros H. unfold chars_between. apply in_map_iff.
  exists (Z.to_nat (x - lo)). split; [lia|].
  apply in_seq. lia.
Qed.

Lemma one_char_lang (p : char -> bool) (l : list char) (s : str) (m : str * str) :
  (forall x, p x = true -> In x l) ->
  In m (one_char p s) -> In (fst m) (map (fun c => [c]) l).
Proof.
  intros Hp. destruct s as [|c r]; simpl; [tauto|].
  destruct (p c) eqn:E; simpl; [|tauto].
  intros [<-|[]]. cbn [fst]. apply in_map_iff. exists c.
  split; [reflexivity|]. now apply Hp.
Qed.

(** What the matcher consumes for an expression is one of its texts. *)
Lemma run_lang (r : regex) :
  forall (s : str) (m : str * str),
    In m (run ascii_decimal r s) -> In (fst m) (lang r).
Proof.
  induction r as [c|lo hi| |r1 IH1 r2 IH2|r1 IH1 r2 IH2]; intros s m Hm;
    simpl in Hm.
  - apply (one_char_lang _ [c]) in Hm; [exact Hm|].
    intros x Hx. apply Z.eqb_eq in Hx. now left.
  - apply (one_char_lang _ (chars_between lo hi)) in Hm; [exact Hm|].
    intros x Hx. apply andb_true_iff in Hx as [H1 H2].
    apply in_chars_between. lia.
  - apply (one_char_lang _ (chars_between 48 57)) in Hm; [exact Hm|].
    intros x Hx. apply in_chars_between. unfold ascii_decimal in Hx.
    destruct ((48 <=? x) && (x <=? 57)) eqn:E; [|discriminate].
    apply andb_true_iff in E as [H1 H2]. lia.
  - apply in_flat_map in Hm as [m1 [H1 Hm]].
    apply in_map_iff in Hm as [m2 [<- H2]]. cbn [fst lang].
    apply in_flat_map. exists (fst m1). split; [eauto|].
    apply in_map_iff. exists (fst m2). split; [reflexivity|]. eauto.
  - cbn [lang]. apply in_or_app.
    apply in_app_or in Hm as [Hm|Hm]; eauto.
Qed.

Lemma strptime_match_lang (s gY gm gd rest : str) :
  strptime_match ascii_decimal s = Some (gY, gm, gd, rest) ->
  s = gY ++ [45] ++ gm ++ [45] ++ gd ++ rest
  /\ In gY (lang re_Y) /\ In gm (lang re_m) /\ In gd (lang re_d).
Proof.
  unfold strptime_match. intros H.
  assert (Hin : In (gY, gm, gd, rest)
    (flat_map (fun gY =>
     flat_map (fun sep1 =>
     flat_map (fun gm =>
     flat_map (fun sep2 =>
     map (fun gd => (fst gY, fst gm, fst gd, snd gd))
       (run ascii_decimal re_d (snd sep2)))
       (run ascii_decimal (Chr (ord "-")) (snd gm)))
       (run ascii_decimal re_m (snd sep1)))
       (run ascii_decimal (Chr (ord "-")) (snd gY)))
       (run ascii_decimal re_Y s))).
  { destruct (flat_map _ _) as [|x l]; simpl in H; [discriminate|].
    injection H as ->. now left. }
  clear H.
  apply in_flat_map in Hin as [mY [HY Hin]].
  apply in_flat_map in Hin as [m1 [H1 Hin]].
  apply in_flat_map in Hin as [mm [Hm Hin]].
  apply in_flat_map in Hin as [m2 [H2 Hin]].
  apply in_map_iff in Hin as [md [E Hd]].
  injection E as <- <- <- <-.
  pose proof (run_lang _ _ _ HY) as LY. pose proof (run_lang _ _ _ H1) as L1.
  pose proof (run_lang _ _ _ Hm) as Lm. pose proof (run_lang _ _ _ H2) as L2.
  pose proof (run_lang _ _ _ Hd) as Ld.
  apply run_split in HY, H1, Hm, H2, Hd.
  destruct L1 as [L1|[]]. destruct L2 as [L2|[]].
  split; [|now repeat split].
  rewrite HY at 1. rewrite H1 at 1. rewrite Hm at 1. rewrite H2 at 1.
  rewrite Hd at 1. rewrite <- L1, <- L2. reflexivity.
Qed.

Lemma lang_re_Y (t : str) (k : Z) :
  In t (lang re_Y) -> py_int ascii_decimal t = Ok k ->
  0 <= k < 10000 /\ t = fmt_0d 4 k.
Proof.
  intros Hin Hk.
  assert (Hall : forallb (fun t =>
            match py_int ascii_decimal t with
            | Ok k => (0 <=? k) && (k <? 10000) && str_eqb t (fmt_0d 4 k)
            | Raise _ => false
            end) (lang re_Y) = true) by (vm_compute; reflexivity).
  rewrite forallb_forall in Hall. specialize (Hall t Hin). rewrite Hk in Hall.
  apply andb_true_iff in Hall as [H Ht]. apply andb_true_iff in H as [H1 H2].
  apply str_eqb_eq in Ht. apply Z.leb_le in H1. apply Z.ltb_lt in H2.
  split; [lia|exact Ht].
Qed.

Lemma lang_re_m (t : str) (k : Z) :
  In t (lang re_m) -> py_int ascii_decimal t = Ok k -> In t (month_texts k).
Proof.
  intros Hin Hk.
  assert (Hall : forallb (fun t =>
            match py_int ascii_decimal t with
            | Ok k => existsb (str_eqb t) (month_texts k)
            | Raise _ => false
            end) (lang re_m) = true) by (vm_compute; reflexivity).
  rewrite forallb_forall in Hall. specialize (Hall t Hin). rewrite Hk in Hall.
  apply existsb_exists in Hall as (x & Hx & E). apply str_eqb_eq in E. now subst.
Qed.

Lemma lang_re_d (t : str) (k : Z) :
  In t (lang re_d) -> py_int ascii_decimal t = Ok k -> In t (day_texts k).
Proof.
  intros Hin Hk.
  assert (Hall : forallb (fun t =>
            match py_int ascii_decimal t with
            | Ok k => existsb (str_eqb t) (day_texts k)
            | Raise _ => false
            end) (lang re_d) = true) by (vm_compute; reflexivity).
  rewrite forallb_forall in Hall. specialize (Hall t Hin). rewrite Hk in Hall.
  apply existsb_exists in Hall as (x & Hx & E). apply str_eqb_eq in E. now subst.
Qed.

(** Every text of a month and a day is matched whole, first, and read as
    that month and that day. *)
Lemma md_candidates_texts (m d : Z) (tm td : str) :
  1 <= m <= 12 -> 1 <= d <= 31 ->
  In tm (month_texts m) -> In td (day_texts d) ->
  hd_error (md_candidates ([45] ++ tm ++ [45] ++ td)) = Some (tm, td, [])
  /\ py_int ascii_decimal tm = Ok m /\ py_int ascii_decimal td = Ok d.
Proof.
  intros Hm Hd Htm Htd.
  assert (Hall : below 13 (fun m => below 32 (fun d =>
            (m <? 1) || (d <? 1)
            || forallb (fun tm => forallb (fun td =>
                 match hd_error (md_candidates ([45] ++ tm ++ [45] ++ td)) with
                 | Some (gm, gd, rest) =>
                     str_eqb gm tm && str_eqb gd td && str_eqb rest []
                 | None => false
                 end
                 && result_Z_is (py_int ascii_decimal tm) m
                 && result_Z_is (py_int ascii_decimal td) d)
                 (day_texts d)) (month_texts m))) = true)
    by (vm_compute; reflexivity).
  pose proof (below_spec _ _ Hall m ltac:(simpl; lia)) as H1.
  pose proof (below_spec _ _ H1 d ltac:(simpl; lia)) as H2.
  replace (m <? 1) with false in H2 by (symmetry; apply Z.ltb_ge; lia).
  replace (d <? 1) with false in H2 by (symmetry; apply Z.ltb_ge; lia).
  cbn [orb] in H2. rewrite forallb_forall in H2. specialize (H2 tm Htm).
  rewrite forallb_forall in H2. specialize (H2 td Htd).
  apply andb_true_iff in H2 as [H2 Hpd]. apply andb_true_iff in H2 as [H2 Hpm].
  apply result_Z_is_eq in Hpd, Hpm.
  destruct (hd_error _) as [[[gm gd] rest]|]; [|discriminate].
  apply andb_true_iff in H2 as [H2 Hr]. apply andb_true_iff in H2 as [Hgm Hgd].
  apply str_eqb_eq in Hgm, Hgd, Hr. now subst.
Qed.

Lemma is_ascii_date_texts (d : date) (s : str) :
  valid_date d = true -> In s (date_texts d) -> is_ascii s.
Proof.
  intros Hv Hin.
  pose proof (valid_date_bounds d Hv) as (Hy & Hm & Hd & Hd').
  assert (Hmt : below 13 (fun m => (m <? 1)
            || forallb (forallb (fun c => c <? 128)) (month_texts m)) = true)
    by (vm_compute; reflexivity).
  assert (Hdt : below 32 (fun d => (d <? 1)
            || forallb (forallb (fun c => c <? 128)) (day_texts d)) = true)
    by (vm_compute; reflexivity).
  apply in_flat_map in Hin as (tm & Htm & Hin).
  apply in_map_iff in Hin as (td & <- & Htd).
  pose proof (below_spec _ _ Hmt (month d) ltac:(simpl; lia)) as H1.
  pose proof (below_spec _ _ Hdt (day d) ltac:(simpl; lia)) as H2.
  cbv beta in H1, H2.
  replace (month d <? 1) with false in H1 by (symmetry; apply Z.ltb_ge; lia).
  replace (day d <? 1) with false in H2 by (symmetry; apply Z.ltb_ge; lia).
  cbn [orb] in H1, H2. rewrite forallb_forall in H1, H2.
  specialize (H1 tm Htm). specialize (H2 td Htd).
  rewrite forallb_forall in H1, H2.
  apply is_ascii_app; split; [apply is_ascii_fmt_0d_4; lia|].
  apply is_ascii_app; split; [repeat constructor|].
  apply is_ascii_app; split.
  { apply Forall_forall. intros c Hc. apply Z.ltb_lt. now apply H1. }
  apply is_ascii_app; split; [repeat constructor|].
  apply Forall_forall. intros c Hc. apply Z.ltb_lt. now apply H2.
Qed.

Lemma strptime_date_texts (d : date) (s : str) :
  valid_date d = true -> In s (date_texts d) ->
  strptime ascii_decimal s = Ok (mkdatetime d 0).
Proof.
  intros Hv Hin.
  pose proof (valid_date_bounds d Hv) as (Hy & Hm & Hd & Hd').
  apply in_flat_map in Hin as (tm & Htm & Hin).
  apply in_map_iff in Hin as (td & <- & Htd).
  destruct (md_candidates_texts (month d) (day d) tm td Hm ltac:(lia) Htm Htd)
    as (Hc & Hpm & Hpd).
  unfold strptime. rewrite strptime_match_md.
  rewrite run_re_Y by lia. cbn [flat_map fst snd]. rewrite app_nil_r.
  change (u "-") with [45].
  destruct (md_candidates _) as [|t l] eqn:E; [discriminate|].
  simpl in Hc. injection Hc as ->. cbn [map hd_error fst snd].
  rewrite py_int_fmt_0d_4 by lia. cbn [bind].
  rewrite Hpm, Hpd. cbn [bind].
  rewrite check_date_args_valid by assumption. reflexivity.
Qed.

Lemma strptime_in_date_texts (s : str) (dt : datetime) :
  strptime ascii_decimal s = Ok dt -> In s (date_texts (dt_date dt)).
Proof.
  unfold strptime.
  destruct (strptime_match ascii_decimal s) as [[[[gY gm] gd] rest]|] eqn:E;
    [|discriminate].
  destruct rest; [|discriminate].
  destruct (py_int ascii_decimal gY) as [y|] eqn:Ey; [|discriminate].
  destruct (py_int ascii_decimal gm) as [m|] eqn:Em; [|discriminate].
  destruct (py_int ascii_decimal gd) as [d|] eqn:Ed; [|discriminate].
  cbn [bind]. unfold check_date_args.
  destruct (valid_date (mkdate y m d)); [|discriminate].
  cbn [bind]. intros H. injection H as <-. cbn [dt_date].
  apply strptime_match_lang in E as (-> & LY & Lm & Ld).
  apply (lang_re_Y _ y) in LY as (_ & ->); [|exact Ey].
  apply (lang_re_m _ m) in Lm; [|exact Em].
  apply (lang_re_d _ d) in Ld; [|exact Ed].
  unfold date_texts. cbn [year month day].
  apply in_flat_map. exists gm. split; [exact Lm|].
  apply in_map_iff. exists gd. split; [|exact Ld].
  now rewrite app_nil_r.
Qed.

(** X8.  The ASCII texts [strptime] reads with the format [%Y-%m-%d] are
    the texts of the valid dates: the year in four digits, the month in
    two digits or without its leading zero, the day in two digits, without
    its leading zero, or with a blank for it.  The result is the date at
    midnight. *)
Theorem strptime_reads_exactly (nd : char -> option Z) (s : str) (dt : datetime) :
  extends_ascii nd -> is_ascii s ->
  strptime nd s = Ok dt
  <-> dt_time dt = 0 /\ valid_date (dt_date dt) = true
      /\ In s (date_texts (dt_date dt)).
Proof.
  intros Hnd Hs. rewrite (strptime_ascii nd Hnd s Hs). split.
  - intros H. destruct (strptime_valid _ _ _ H) as (Hv & Ht).
    split; [exact Ht|]. split; [exact Hv|]. now apply strptime_in_date_texts.
  - intros (Ht & Hv & Hin). destruct dt as [d t]. cbn [dt_time dt_date] in *.
    subst t. now apply strptime_date_texts.
Qed.

Lemma strptime_reads_exactly_witness :
  extends_ascii ascii_decimal /\ is_ascii (u "2024-2- 9")
  /\ (strptime ascii_decimal (u "2024-2- 9") = Ok (mkdatetime (mkdate 2024 2 9) 0)
      <-> dt_time (mkdatetime (mkdate 2024 2 9) 0) = 0
          /\ valid_date (dt_date (mkdatetime (mkdate 2024 2 9) 0)) = true
          /\ In (u "2024-2- 9") (date_texts (dt_date (mkdatetime (mkdate 2024 2 9) 0)))).
Proof.
  assert (Hs : is_ascii (u "2024-2- 9")) by (repeat constructor).
  split; [exact ascii_decimal_extends|]. split; [exact Hs|].
  exact (strptime_reads_exactly ascii_decimal (u "2024-2- 9")
           (mkdatetime (mkdate 2024 2 9) 0) ascii_decimal_extends Hs).
Defined.

(* ===================================================================== *)
(** * Further properties: the body of the request *)
(* ===================================================================== *)

Lemma printable_forallb (l : str) :
  forallb (fun c => (32 <=? c) && (c <=? 126)) l = true -> Forall printable l.
Proof.
  intros H. apply Forall_forall. intros c Hc.
  rewrite forallb_forall in H. specialize (H c Hc).
  apply andb_true_iff in H as [H1 H2]. unfold printable. lia.
Qed.

Lemma printable_hex_digit (k : Z) : 0 <= k < 16 -> printable (hex_digit k).
Proof.
  intros H. unfold printable, hex_digit. destruct (k <? 10); lia.
Qed.

Lemma printable_hex4 (n : Z) : Forall printable (hex4 n).
Proof.
  unfold hex4.
  repeat (constructor; [apply printable_hex_digit; apply Z.mod_pos_bound; lia|]).
  constructor.
Qed.

Lemma printable_escape_char (c : char) : Forall printable (escape_char c).
Proof.
  unfold escape_char.
  repeat match goal with
         | |- context [if ?a =? ?b then _ else _] =>
             destruct (Z.eqb_spec a b); [now apply printable_forallb|]
         end.
  destruct ((32 <=? c) && (c <=? 126)) eqn:E.
  { apply printable_forallb. cbn [forallb]. now rewrite E. }
  destruct (c <? 65536).
  - apply Forall_app; split; [now apply printable_forallb|].
    apply printable_hex4.
  - cbv zeta.
    apply Forall_app; split; [now apply printable_forallb|].
    apply Forall_app; split; [apply printable_hex4|].
    apply Forall_app; split; [now apply printable_forallb|].
    apply printable_hex4.
Qed.

Lemma printable_encode_basestring_ascii (s : str) :
  Forall printable (encode_basestring_ascii s).
Proof.
  unfold encode_basestring_ascii.
  apply Forall_app; split; [now apply printable_forallb|].
  apply Forall_app; split; [|now apply printable_forallb].
  induction s as [|c s IH]; [constructor|].
  cbn [flat_map]. apply Forall_app; split; [apply printable_escape_char|exact IH].
Qed.

Lemma printable_dumps : forall v : json, Forall printable (dumps v).
Proof.
  fix IH 1. intros [s|l|members]; cbn [dumps].
  - apply printable_encode_basestring_ascii.
  - apply Forall_app; split; [now apply printable_forallb|].
    apply Forall_app; split; [|now apply printable_forallb].
    induction l as [|x r IHl]; [constructor|].
    destruct r as [|y r']; [apply IH|].
    apply Forall_app; split; [apply IH|].
    apply Forall_app; split; [now apply printable_forallb|].
    exact IHl.
  - apply Forall_app; split; [now apply printable_forallb|].
    apply Forall_app; split; [|now apply printable_forallb].
    induction members as [|kv r IHl]; [constructor|].
    destruct r as [|y r'].
    + apply Forall_app; split; [apply printable_encode_basestring_ascii|].
      apply Forall_app; split; [now apply printable_forallb|].
      apply IH.
    + apply Forall_app; split; [apply printable_encode_basestring_ascii|].
      apply Forall_app; split; [now apply printable_forallb|].
      apply Forall_app; split; [apply IH|].
      apply Forall_app; split; [now apply printable_forallb|].
      exact IHl.
Qed.

Lemma hex_val_hex_digit (k : Z) : 0 <= k < 16 -> hex_val (hex_digit k) = Some k.
Proof.
  intros H.
  assert (Hall : below 16 (fun k =>
            match hex_val (hex_digit k) with Some x => x =? k | None => false end)
          = true) by (vm_compute; reflexivity).
  pose proof (below_spec _ _ Hall k ltac:(simpl; lia)) as Hk. cbv beta in Hk.
  destruct (hex_val (hex_digit k)) as [x|]; [|discriminate].
  apply Z.eqb_eq in Hk. now subst.
Qed.

Lemma read_hex4_hex4 (n : Z) (r : str) :
  0 <= n < 65536 -> read_hex4 (hex4 n ++ r) = Some (n, r).
Proof.
  intros H. unfold hex4. cbn [app read_hex4].
  rewrite !hex_val_hex_digit by (apply Z.mod_pos_bound; lia).
  do 2 f_equal.
  pose proof (Z.div_mod n 16 ltac:(lia)).
  pose proof (Z.div_mod (n / 16) 16 ltac:(lia)).
  pose proof (Z.div_mod (n / 16 / 16) 16 ltac:(lia)).
  assert (E2 : n / 256 = n / 16 / 16)
    by (symmetry; rewrite Z.div_div by lia; reflexivity).
  assert (E3 : n / 4096 = n / 16 / 16 / 16)
    by (symmetry; rewrite !Z.div_div by lia; reflexivity).
  assert (n / 4096 < 16) by (apply Z.div_lt_upper_bound; lia).
  assert (0 <= n / 4096) by (apply Z.div_pos; lia).
  rewrite (Z.mod_small (n / 4096) 16) by lia.
  rewrite E2, E3 in *. lia.
Qed.

Lemma lor_low_bits (a k : Z) :
  0 <= k < 1024 -> a mod 1024 = 0 -> 0 <= a -> Z.lor a k = a + k.
Proof.
  intros Hk Ha Ha0.
  rewrite <- Z.lxor_lor, <- Z.add_nocarry_lxor; try reflexivity;
    apply Z.bits_inj'; intros i Hi; rewrite Z.land_spec, Z.bits_0;
    (destruct (Z.ltb_spec i 10) as [Hlt|Hge];
     [replace (Z.testbit a i) with false; [reflexivity|];
      symmetry; change 1024 with (2 ^ 10) in Ha;
      apply Z.mod_pow2_bits_low with (n := 10) (a := a) in Hlt as Hb;
      rewrite <- Hb, Ha; apply Z.bits_0
     |replace (Z.testbit k i) with false; [apply andb_false_r|];
      symmetry; destruct (Z.eq_dec k 0) as [->|Hne]; [apply Z.bits_0|];
      apply Z.bits_above_log2; [lia|];
      apply Z.lt_le_trans with 10; [|exact Hge];
      apply Z.log2_lt_pow2; [lia|]; change (2 ^ 10) with 1024; lia]).
Qed.

Lemma surrogate_pair (c : char) :
  65536 <= c <= 1114111 ->
  let n := c - 65536 in
  let s1 := Z.lor 55296 (Z.land (Z.shiftr n 10) 1023) in
  let s2 := Z.lor 56320 (Z.land n 1023) in
  55296 <= s1 <= 56319 /\ 56320 <= s2 <= 57343
  /\ 65536 + Z.lor (Z.shiftl (s1 - 55296) 10) (s2 - 56320) = c.
Proof.
  intros H n s1 s2.
  assert (Hn : 0 <= n < 1048576) by (unfold n; lia).
  assert (Eh : Z.land (Z.shiftr n 10) 1023 = n / 1024).
  { change 1023 with (Z.ones 10). rewrite Z.land_ones by lia.
    rewrite Z.shiftr_div_pow2 by lia. change (2 ^ 10) with 1024.
    apply Z.mod_small. split; [apply Z.div_pos; lia|].
    apply Z.div_lt_upper_bound; lia. }
  assert (El : Z.land n 1023 = n mod 1024).
  { change 1023 with (Z.ones 10). now rewrite Z.land_ones by lia. }
  assert (Hh : 0 <= n / 1024 < 1024).
  { split; [apply Z.div_pos; lia|apply Z.div_lt_upper_bound; lia]. }
  pose proof (Z.mod_pos_bound n 1024 ltac:(lia)) as Hl.
  assert (E1 : s1 = 55296 + n / 1024).
  { unfold s1. rewrite Eh. apply lor_low_bits; [lia|reflexivity|lia]. }
  assert (E2 : s2 = 56320 + n mod 1024).
  { unfold s2. rewrite El. apply lor_low_bits; [lia|reflexivity|lia]. }
  rewrite E1, E2. split; [lia|]. split; [lia|].
  replace (55296 + n / 1024 - 55296) with (n / 1024) by lia.
  replace (56320 + n mod 1024 - 56320) with (n mod 1024) by lia.
  rewrite Z.shiftl_mul_pow2 by lia. change (2 ^ 10) with 1024.
  rewrite lor_low_bits; [| lia | | lia].
  - pose proof (Z.div_mod n 1024 ltac:(lia)). unfold n in *. lia.
  - apply Z.mod_mul. lia.
Qed.

Lemma escape_char_length (c : char) : (1 <= List.length (escape_char c))%nat.
Proof.
  unfold escape_char.
  repeat match goal with
         | |- context [if ?b then _ else _] => destruct b
         end; cbn [List.length app hex4]; lia.
Qed.

(** Reading what [encode_basestring_ascii] writes for one character. *)
Lemma scanstring_escape_char (fuel : nat) (c : char) (t rest tail : str) :
  scalar_value c ->
  scanstring fuel tail = Some (t, rest) ->
  scanstring (S fuel) (escape_char c ++ tail) = Some (c :: t, rest).
Proof.
  intros Hc Ht. unfold escape_char.
  destruct (Z.eqb_spec c 34) as [->|N34]; [cbn; now rewrite Ht|].
  destruct (Z.eqb_spec c 92) as [->|N92]; [cbn; now rewrite Ht|].
  destruct (Z.eqb_spec c 10) as [->|N10]; [cbn; now rewrite Ht|].
  destruct (Z.eqb_spec c 13) as [->|N13]; [cbn; now rewrite Ht|].
  destruct (Z.eqb_spec c 9) as [->|N9]; [cbn; now rewrite Ht|].
  destruct (Z.eqb_spec c 8) as [->|N8]; [cbn; now rewrite Ht|].
  destruct (Z.eqb_spec c 12) as [->|N12]; [cbn; now rewrite Ht|].
  destruct ((32 <=? c) && (c <=? 126)) eqn:E.
  { apply andb_true_iff in E as [H1 H2]. apply Z.leb_le in H1, H2.
    cbn [app scanstring].
    replace (c =? 34) with false by (symmetry; apply Z.eqb_neq; lia).
    replace (c =? 92) with false by (symmetry; apply Z.eqb_neq; lia).
    replace (c <? 32) with false by (symmetry; apply Z.ltb_ge; lia).
    now rewrite Ht. }
  destruct (Z.ltb_spec c 65536) as [Hlt|Hge].
  - assert (Hr : 0 <= c < 65536) by (destruct Hc; lia).
    cbn [app scanstring]. cbn [Z.eqb Pos.eqb].
    rewrite read_hex4_hex4 by assumption. rewrite Ht.
    replace ((55296 <=? c) && (c <=? 56319)) with false; [reflexivity|].
    symmetry. apply andb_false_iff.
    destruct Hc as [Hc|Hc]; [left; apply Z.leb_gt; lia|right; apply Z.leb_gt; lia].
  - assert (Hr : 65536 <= c <= 1114111) by (destruct Hc; lia).
    destruct (surrogate_pair c Hr) as (H1 & H2 & H3). cbv zeta in H1, H2, H3 |- *.
    set (s1 := Z.lor 55296 (Z.land (Z.shiftr (c - 65536) 10) 1023)) in *.
    set (s2 := Z.lor 56320 (Z.land (c - 65536) 1023)) in *.
    cbn [app scanstring]. cbn [Z.eqb Pos.eqb].
    rewrite <- app_assoc. rewrite read_hex4_hex4 by lia.
    replace ((55296 <=? s1) && (s1 <=? 56319)) with true
      by (symmetry; apply andb_true_iff; split; apply Z.leb_le; lia).
    cbn [app]. rewrite read_hex4_hex4 by lia.
    replace ((56320 <=? s2) && (s2 <=? 57343)) with true
      by (symmetry; apply andb_true_iff; split; apply Z.leb_le; lia).
    rewrite Ht, H3. reflexivity.
Qed.

Lemma scanstring_escaped (s rest : str) :
  Forall scalar_value s ->
  forall fuel, (List.length s < fuel)%nat ->
    scanstring fuel (flat_map escape_char s ++ 34 :: rest) = Some (s, rest).
Proof.
  induction 1 as [|c s Hc Hs IH]; intros fuel Hf.
  - destruct fuel; [lia|reflexivity].
  - destruct fuel as [|fuel]; [cbn [List.length] in Hf; lia|].
    cbn [flat_map List.length] in *. rewrite <- app_assoc.
    apply scanstring_escape_char; [exact Hc|]. apply IH. lia.
Qed.

Lemma flat_map_escape_length (s : str) :
  (List.length s <= List.length (flat_map escape_char s))%nat.
Proof.
  induction s as [|c s IH]; [reflexivity|].
  cbn [flat_map List.length]. rewrite length_app.
  pose proof (escape_char_length c). lia.
Qed.

(** A string literal written by [encode_basestring_ascii] is read back as
    the string. *)
Lemma read_string_encoded (s rest : str) :
  Forall scalar_value s ->
  read_string (encode_basestring_ascii s ++ rest) = Some (s, rest).
Proof.
  intros Hs. unfold encode_basestring_ascii, read_string.
  cbn [app]. rewrite <- app_assoc. cbn [app].
  apply scanstring_escaped; [exact Hs|].
  pose proof (flat_map_escape_length s) as Hl.
  rewrite length_app. cbn [List.length]. lia.
Qed.

Lemma expect_app (lit rest : str) : expect lit (lit ++ rest) = Some rest.
Proof.
  induction lit as [|x lit IH]; [now destruct rest|].
  cbn [app expect]. now rewrite Z.eqb_refl.
Qed.

Lemma expect_string_encoded (key rest : str) :
  Forall scalar_value key ->
  expect_string key (encode_basestring_ascii key ++ rest) = Some rest.
Proof.
  intros H. unfold expect_string. rewrite read_string_encoded by assumption.
  now rewrite str_eqb_refl.
Qed.

Lemma dumps_line_data (credentials : LineCredentials) (message : str) :
  dumps (line_data credentials message)
  = u "{" ++ encode_basestring_ascii (u "to") ++ u ": "
    ++ encode_basestring_ascii (channel_id credentials) ++ u ", "
    ++ encode_basestring_ascii (u "messages") ++ u ": [{"
    ++ encode_basestring_ascii (u "type") ++ u ": "
    ++ encode_basestring_ascii (u "text") ++ u ", "
    ++ encode_basestring_ascii (u "text") ++ u ": "
    ++ encode_basestring_ascii message ++ u "}]}".
Proof.
  unfold line_data. cbn [dumps fst snd].
  repeat rewrite <- app_assoc. reflexivity.
Qed.

Lemma scalar_value_literal (l : str) :
  forallb (fun c => (0 <=? c) && (c <? 55296)) l = true -> Forall scalar_value l.
Proof.
  intros H. apply Forall_forall. intros c Hc.
  rewrite forallb_forall in H. specialize (H c Hc).
  apply andb_true_iff in H as [H1 H2]. left. lia.
Qed.

Lemma read_text_message_line_data (credentials : LineCredentials) (message : str) :
  Forall scalar_value (channel_id credentials) ->
  Forall scalar_value message ->
  read_text_message (dumps (line_data credentials message))
  = Some (channel_id credentials, message).
Proof.
  intros Hc Hm. rewrite dumps_line_data. unfold read_text_message.
  rewrite expect_app. cbn [obind].
  rewrite expect_string_encoded by now apply scalar_value_literal.
  cbn [obind]. rewrite expect_app. cbn [obind].
  rewrite read_string_encoded by assumption. cbn [obind fst snd].
  rewrite expect_app. cbn [obind].
  rewrite expect_string_encoded by now apply scalar_value_literal.
  cbn [obind]. rewrite expect_app. cbn [obind].
  rewrite expect_string_encoded by now apply scalar_value_literal.
  cbn [obind]. rewrite expect_app. cbn [obind].
  rewrite expect_string_encoded by now apply scalar_value_literal.
  cbn [obind]. rewrite expect_app. cbn [obind].
  rewrite expect_string_encoded by now apply scalar_value_literal.
  cbn [obind]. rewrite expect_app. cbn [obind].
  rewrite <- (app_nil_r (u "}]}")).
  rewrite read_string_encoded by assumption. cbn [obind fst snd].
  rewrite expect_app. reflexivity.
Qed.

(** X9.  The body [send] posts is printable ASCII, whatever the channel
    and the message are: [json.dumps] escapes every other character. *)
Theorem request_body_is_ascii (credentials : LineCredentials)
    (api_url : option str) (message : str) :
  Forall printable (req_data (line_request credentials api_url message)).
Proof. cbn [line_request req_data]. apply printable_dumps. Qed.

(** X10.  The body [send] posts is read back, by a reader of JSON, as the
    channel of the credentials and the message given, when these are
    texts of Unicode scalar values. *)
Theorem request_body_round_trip (credentials : LineCredentials)
    (api_url : option str) (message : str) :
  Forall scalar_value (channel_id credentials) ->
  Forall scalar_value message ->
  read_text_message (req_data (line_request credentials api_url message))
  = Some (channel_id credentials, message).
Proof. cbn [line_request req_data]. apply read_text_message_line_data. Qed.

(** X11.  Requests for different channels or different messages have
    different bodies. *)
Theorem request_body_injective (c1 c2 : LineCredentials) (m1 m2 : str) :
  Forall scalar_value (channel_id c1) -> Forall scalar_value m1 ->
  Forall scalar_value (channel_id c2) -> Forall scalar_value m2 ->
  dumps (line_data c1 m1) = dumps (line_data c2 m2) ->
  channel_id c1 = channel_id c2 /\ m1 = m2.
Proof.
  intros H1 H2 H3 H4 E.
  pose proof (read_text_message_line_data c1 m1 H1 H2) as R1.
  pose proof (read_text_message_line_data c2 m2 H3 H4) as R2.
  rewrite E, R2 in R1. injection R1 as <- <-. now split.
Qed.

Lemma scalar_value_forallb (l : str) :
  forallb (fun c => ((0 <=? c) && (c <? 55296))
                    || ((57344 <=? c) && (c <=? 1114111))) l = true ->
  Forall scalar_value l.
Proof.
  intros H. apply Forall_forall. intros c Hc.
  rewrite forallb_forall in H. specialize (H c Hc).
  apply orb_true_iff in H as [H|H]; apply andb_true_iff in H as [H1 H2];
    [left|right]; lia.
Qed.

Lemma request_body_round_trip_witness :
  Forall scalar_value (channel_id test_credentials)
  /\ Forall scalar_value (u "11/01～11/21の請求額は、123.456 USDです。")
  /\ read_text_message
       (req_data (line_request test_credentials None
                    (u "11/01～11/21の請求額は、123.456 USDです。")))
     = Some (u "test_channel", u "11/01～11/21の請求額は、123.456 USDです。").
Proof.
  assert (H1 : Forall scalar_value (channel_id test_credentials))
    by now apply scalar_value_forallb.
  assert (H2 : Forall scalar_value (u "11/01～11/21の請求額は、123.456 USDです。"))
    by now apply scalar_value_forallb.
  split; [exact H1|]. split; [exact H2|].
  exact (request_body_round_trip test_credentials None _ H1 H2).
Defined.

Lemma request_body_injective_witness :
  Forall scalar_value (channel_id test_credentials)
  /\ Forall scalar_value (u "a\b")
  /\ dumps (line_data test_credentials (u "a\b"))
     = dumps (line_data test_credentials (u "a\b"))
  /\ channel_id test_credentials = channel_id test_credentials
  /\ u "a\b" = u "a\b".
Proof.
  assert (H1 : Forall scalar_value (channel_id test_credentials))
    by now apply scalar_value_forallb.
  assert (H2 : Forall scalar_value (u "a\b")) by now apply scalar_value_forallb.
  split; [exact H1|]. split; [exact H2|]. split; [reflexivity|].
  exact (request_body_injective test_credentials test_credentials _ _
           H1 H2 H1 H2 eq_refl).
Defined.

(** Two lone surrogates and the character they would encode have the same
    escapes: texts with lone surrogates are not told apart. *)
Example lone_surrogates_collide :
  dumps (JStr [55357; 56832]) = dumps (JStr [128512])
  /\ read_string (dumps (JStr [55357; 56832])) = Some ([128512], []).
Proof. split; reflexivity. Qed.

(* ===================================================================== *)
(** * Further properties: from the message to the request *)
(* ===================================================================== *)

Lemma printable_scalar_value (s : str) : Forall printable s -> Forall scalar_value s.
Proof.
  apply Forall_impl. intros c H. unfold printable in H. left. lia.
Qed.

Lemma printable_uint_chars (d : Decimal.uint) : Forall printable (uint_chars d).
Proof.
  induction d; cbn [uint_chars]; constructor; try assumption;
    unfold printable, digit_char; lia.
Qed.

Lemma printable_fmt_d (n : Z) : Forall printable (fmt_d n).
Proof. apply printable_uint_chars. Qed.

Lemma printable_fmt_0d (w : nat) (n : Z) : Forall printable (fmt_0d w n).
Proof.
  unfold fmt_0d. cbv zeta. apply Forall_app; split; [|apply printable_fmt_d].
  apply Forall_forall. intros c Hc. apply repeat_spec in Hc. subst c.
  unfold printable, digit_char. lia.
Qed.

Lemma printable_format_3f (x : spec_float) : Forall printable (format_3f x).
Proof.
  assert (Hs : forall s, Forall printable (sign_chars s))
    by (intros [|]; now apply printable_forallb).
  assert (Hf : forall s n, Forall printable (fixed3 s n)).
  { intros s n. unfold fixed3.
    apply Forall_app; split; [apply Hs|].
    apply Forall_app; split; [apply printable_fmt_d|].
    apply Forall_app; split; [now apply printable_forallb|].
    apply printable_fmt_0d. }
  destruct x as [s|s| |s m e]; cbn [format_3f].
  - apply Hf.
  - apply Forall_app; split; [apply Hs|now apply printable_forallb].
  - now apply printable_forallb.
  - apply Hf.
Qed.

Lemma printable_strftime_md (dt : datetime) : Forall printable (strftime_md dt).
Proof.
  unfold strftime_md.
  apply Forall_app; split; [apply printable_fmt_0d|].
  apply Forall_app; split; [now apply printable_forallb|].
  apply printable_fmt_0d.
Qed.

Lemma Forall_app_intro {A : Type} (P : A -> Prop) (l1 l2 : list A) :
  Forall P l1 -> Forall P l2 -> Forall P (l1 ++ l2).
Proof. intros H1 H2. apply Forall_app. now split. Qed.

(** The messages of [format] hold no surrogate. *)
Lemma format_scalar_value (nd : char -> option Z) (bi : BillingInfo) (message : str) :
  format nd bi = Ok message -> Forall scalar_value message.
Proof.
  unfold format, format_try.
  destruct (strptime nd (start bi)) as [dts|e];
    [|intros H; injection H as <-; constructor].
  cbn [bind].
  destruct (strptime nd (end_ bi)) as [dte|e];
    [|intros H; injection H as <-; constructor].
  cbn [bind].
  destruct (datetime_sub_days dte 1) as [y|e];
    [|intros H; injection H as <-; constructor].
  cbn [bind].
  destruct (round3 (fval (amount bi))) as [total|e];
    [|intros H; injection H as <-; constructor].
  cbn [bind]. intros H. injection H as <-.
  apply (Forall_app_intro _ (strftime_md dts));
    [apply printable_scalar_value, printable_strftime_md|].
  apply (Forall_app_intro _ (u "～")); [now apply scalar_value_forallb|].
  apply (Forall_app_intro _ (strftime_md y));
    [apply printable_scalar_value, printable_strftime_md|].
  apply (Forall_app_intro _ (u "の請求額は、")); [now apply scalar_value_forallb|].
  apply (Forall_app_intro _ (format_3f total));
    [apply printable_scalar_value, printable_format_3f|].
  now apply scalar_value_forallb.
Qed.

(** X12.  [format] and [send] together: the body posted for a message that
    [format] returns is read back as that message, for every billing
    information. *)
Theorem formatted_message_round_trip (nd : char -> option Z) (bi : BillingInfo)
    (message : str) (credentials : LineCredentials) (api_url : option str) :
  format nd bi = Ok message ->
  Forall scalar_value (channel_id credentials) ->
  read_text_message (req_data (line_request credentials api_url message))
  = Some (channel_id credentials, message).
Proof.
  intros Hf Hc. cbn [line_request req_data].
  apply read_text_message_line_data; [exact Hc|].
  now apply format_scalar_value with nd bi.
Qed.

Lemma formatted_message_round_trip_witness :
  format ascii_decimal test_billing_info
  = Ok (u "11/01～11/21の請求額は、123.456 USDです。")
  /\ Forall scalar_value (channel_id test_credentials)
  /\ read_text_message
       (req_data (line_request test_credentials None
                    (u "11/01～11/21の請求額は、123.456 USDです。")))
     = Some (channel_id test_credentials,
             u "11/01～11/21の請求額は、123.456 USDです。").
Proof.
  assert (H1 : format ascii_decimal test_billing_info
               = Ok (u "11/01～11/21の請求額は、123.456 USDです。"))
    by (vm_compute; reflexivity).
  assert (H2 : Forall scalar_value (channel_id test_credentials))
    by now apply scalar_value_forallb.
  split; [exact H1|]. split; [exact H2|].
  exact (formatted_message_round_trip ascii_decimal test_billing_info _
           test_credentials None H1 H2).
Defined.

(* ===================================================================== *)
(** * Further properties: the service *)
(* ===================================================================== *)

Section ServiceRuns.

Context {W : Type}.
Context {cost_calculator : CostCalculatorBase W}.
Context {token_repository : TokenRepositoryBase W}.
Context {message_formatter : MessageFormatterBase W}.
Context {notifier : NotifierBase W}.

(** The runs of [notify]: the result, the world left and the calls made. *)
Lemma notify_runs (w : W) :
  (exists w1,
      notify (w, []) = (false, (w1, [CallGetBillingInfo])))
  \/ (exists bi w2,
      notify (w, []) = (false, (w2, [CallGetBillingInfo; CallFormat bi])))
  \/ (exists bi w3,
      notify (w, [])
      = (false, (w3, [CallGetBillingInfo; CallFormat bi; CallGetCredentials])))
  \/ (exists bi c message success w4,
      message <> []
      /\ notify (w, [])
         = (success, (w4, [CallGetBillingInfo; CallFormat bi;
                           CallGetCredentials; CallSend c message]))).
Proof.
  unfold notify, mbind, perform, ret. cbn [fst snd app].
  destruct (get_billing_info w) as [[bi|] w1]; [|left; eauto].
  cbn [fst snd app].
  destruct (format_message bi w1) as [[|c0 message] w2];
    [right; left; eauto|].
  cbn [fst snd app].
  destruct (get_credentials w2) as [[c|] w3]; [|right; right; left; eauto].
  cbn [fst snd app].
  destruct (send c (c0 :: message) w3) as [success w4].
  right; right; right. exists bi, c, (c0 :: message), success, w4.
  split; [discriminate|reflexivity].
Qed.

(** X13.  [notify] never sends an empty message. *)
Theorem notify_never_sends_empty (w : W) (c : LineCredentials) (message : str) :
  In (CallSend c message) (snd (snd (notify (w, [])))) -> message <> [].
Proof.
  destruct (notify_runs w)
    as [(w1 & E)|[(bi & w2 & E)|[(bi & w3 & E)|(bi & c' & m & b & w4 & Hm & E)]]];
    rewrite E; cbn [snd In]; intros H;
    repeat (destruct H as [H|H]; try discriminate H); try contradiction.
  injection H as <- <-. exact Hm.
Qed.

(** X14.  [notify] returns [True] only after it has sent the message: the
    four calls were made, in order, and the message was sent once. *)
Theorem notify_true_after_send (w : W) :
  fst (notify (w, [])) = true ->
  sends (snd (snd (notify (w, [])))) = 1%nat
  /\ exists bi c message,
       snd (snd (notify (w, [])))
       = [CallGetBillingInfo; CallFormat bi; CallGetCredentials;
          CallSend c message].
Proof.
  destruct (notify_runs w)
    as [(w1 & E)|[(bi & w2 & E)|[(bi & w3 & E)|(bi & c' & m & b & w4 & Hm & E)]]];
    rewrite E; cbn [fst snd]; intros H; try discriminate H.
  split; [reflexivity|]. now exists bi, c', m.
Qed.

End ServiceRuns.

Lemma notify_never_sends_empty_witness :
  In (CallSend test_credentials (u "test"))
    (snd (snd (@notify unit
                 (mock_calculator unit (Some test_billing_info))
                 (mock_repository unit (Some test_credentials))
                 (mock_formatter unit (u "test"))
                 (mock_send unit true) (tt, []))))
  /\ u "test" <> [].
Proof.
  assert (H : In (CallSend test_credentials (u "test"))
    (snd (snd (@notify unit
                 (mock_calculator unit (Some test_billing_info))
                 (mock_repository unit (Some test_credentials))
                 (mock_formatter unit (u "test"))
                 (mock_send unit true) (tt, []))))).
  { cbn. right; right; right; left. reflexivity. }
  split; [exact H|].
  exact (@notify_never_sends_empty unit
           (mock_calculator unit (Some test_billing_info))
           (mock_repository unit (Some test_credentials))
           (mock_formatter unit (u "test"))
           (mock_send unit true) tt test_credentials (u "test") H).
Defined.

Lemma notify_true_after_send_witness :
  fst (@notify unit
         (mock_calculator unit (Some test_billing_info))
         (mock_repository unit (Some test_credentials))
         (mock_formatter unit (u "test"))
         (mock_send unit true) (tt, [])) = true
  /\ sends (snd (snd (@notify unit
         (mock_calculator unit (Some test_billing_info))
         (mock_repository unit (Some test_credentials))
         (mock_formatter unit (u "test"))
         (mock_send unit true) (tt, [])))) = 1%nat.
Proof.
  split; [reflexivity|].
  exact (proj1 (@notify_true_after_send unit
           (mock_calculator unit (Some test_billing_info))
           (mock_repository unit (Some test_credentials))
           (mock_formatter unit (u "test"))
           (mock_send unit true) tt eq_refl)).
Defined.

(** X15.  The service with [BillingMessageFormatter]: when the dates of the
    billing information are read and the end date is not 0001-01-01, and
    the credentials are there, the message sent is the billing message
    for the period up to the day before the end date, and the result is
    the result of [send]. *)
Theorem notify_sends_billing_message
    {W : Type} {cc : CostCalculatorBase W} {tr : TokenRepositoryBase W}
    {nt : NotifierBase W} (nd : char -> option Z) (w w1 w2 : W)
    (bi : BillingInfo) (dts dte : datetime) (c : LineCredentials) :
  get_billing_info w = (Some bi, w1) ->
  strptime nd (start bi) = Ok dts ->
  strptime nd (end_ bi) = Ok dte ->
  dt_date dte <> date_min ->
  get_credentials w1 = (Some c, w2) ->
  let message := billing_message (dt_date dts) (previous_day (dt_date dte))
                   (format_3f (fval (amount bi))) in
  @notify W cc tr (BillingMessageFormatter nd W) nt (w, [])
  = (fst (send c message w2),
     (snd (send c message w2),
      [CallGetBillingInfo; CallFormat bi; CallGetCredentials;
       CallSend c message])).
Proof.
  intros Hb Hs He Hne Hc message.
  unfold notify, mbind, perform, ret. cbn [fst snd app].
  rewrite Hb. cbn [fst snd app format_message BillingMessageFormatter].
  rewrite (format_parsed_text nd bi dts dte Hs He Hne). fold message.
  destruct message as [|c0 m] eqn:Em.
  { exfalso. now apply (billing_message_nonempty _ _ _ Em). }
  cbn [fst snd app]. rewrite Hc. cbn [fst snd app].
  destruct (send c (c0 :: m) w2) as [success w3]. reflexivity.
Qed.

Lemma notify_sends_billing_message_witness :
  @notify unit (mock_calculator unit (Some test_billing_info))
    (mock_repository unit (Some test_credentials))
    (BillingMessageFormatter ascii_decimal unit) (mock_send unit true) (tt, [])
  = (true,
     (tt, [CallGetBillingInfo; CallFormat test_billing_info; CallGetCredentials;
           CallSend test_credentials
             (billing_message (mkdate 2025 11 1) (mkdate 2025 11 21)
                (format_3f (fval amount_123_456)))])).
Proof.
  exact (@notify_sends_billing_message unit
           (mock_calculator unit (Some test_billing_info))
           (mock_repository unit (Some test_credentials))
           (mock_send unit true) ascii_decimal tt tt tt test_billing_info
           (mkdatetime (mkdate 2025 11 1) 0) (mkdatetime (mkdate 2025 11 22) 0)
           test_credentials eq_refl eq_refl eq_refl ltac:(discriminate) eq_refl).
Defined.

(** X16.  The service with [BillingMessageFormatter]: billing information
    whose start date or end date is not read, or whose end date is
    0001-01-01, ends the run with [False] after the formatter: the
    credentials are not fetched and nothing is sent. *)
Theorem notify_stops_without_message
    {W : Type} {cc : CostCalculatorBase W} {tr : TokenRepositoryBase W}
    {nt : NotifierBase W} (nd : char -> option Z) (w w1 : W) (bi : BillingInfo) :
  get_billing_info w = (Some bi, w1) ->
  (exists e, strptime nd (start bi) = Raise e)
  \/ (exists e, strptime nd (end_ bi) = Raise e)
  \/ (exists dte, strptime nd (end_ bi) = Ok dte /\ dt_date dte = date_min) ->
  @notify W cc tr (BillingMessageFormatter nd W) nt (w, [])
  = (false, (w1, [CallGetBillingInfo; CallFormat bi])).
Proof.
  intros Hb Hcause.
  assert (Hf : format nd bi = Ok []).
  { destruct Hcause as [(e & H)|[(e & H)|(dte & H & Hmin)]].
    - now apply format_unparsed_start with e.
    - now apply format_unparsed_end with e.
    - destruct (strptime nd (start bi)) as [dts|e] eqn:Hs.
      + now apply format_end_min with dts dte.
      + now apply format_unparsed_start with e. }
  unfold notify, mbind, perform, ret. cbn [fst snd app].
  rewrite Hb. cbn [fst snd app format_message BillingMessageFormatter].
  rewrite Hf. reflexivity.
Qed.

Lemma notify_stops_without_message_witness :
  @notify unit
    (mock_calculator unit
       (Some (example_period "2025-11-01" "0001-01-01" amount_123_456)))
    (mock_repository unit (Some test_credentials))
    (BillingMessageFormatter ascii_decimal unit) (mock_send unit true) (tt, [])
  = (false,
     (tt, [CallGetBillingInfo;
           CallFormat (example_period "2025-11-01" "0001-01-01" amount_123_456)])).
Proof.
  exact (@notify_stops_without_message unit
           (mock_calculator unit
              (Some (example_period "2025-11-01" "0001-01-01" amount_123_456)))
           (mock_repository unit (Some test_credentials))
           (mock_send unit true) ascii_decimal tt tt
           (example_period "2025-11-01" "0001-01-01" amount_123_456) eq_refl
           (or_intror (or_intror
              (ex_intro _ (mkdatetime date_min 0) (conj eq_refl eq_refl))))).
Defined.

(* ===================================================================== *)
(** * Further properties: the credentials *)
(* ===================================================================== *)

(** [get_credentials] reads the channel id and then the access
    token, the second also when the first is missing, and returns
    credentials exactly when both values are there and not empty; the
    credentials hold these two values. *)
Lemma get_credentials_both_values {W : Type} {client : DynamoDbClient W}
    (table_name : str) (w : W) :
  let first := _get_value table_name (u "line_channel_id") w in
  let second := _get_value table_name (u "line_access_token") (snd first) in
  snd (DynamoDbTokenRepository_get_credentials table_name w) = snd second
  /\ forall c,
       fst (DynamoDbTokenRepository_get_credentials table_name w) = Some c
       <-> (fst first = Some (channel_id c) /\ channel_id c <> []
            /\ fst second = Some (access_token c) /\ access_token c <> []).
Proof.
  intros first second. unfold DynamoDbTokenRepository_get_credentials.
  fold first. destruct first as [v1 w1] eqn:E1. cbn [snd] in second.
  fold second. destruct second as [v2 w2] eqn:E2. cbn [fst snd].
  split.
  - destruct v1 as [[|c1 cs]|]; [reflexivity| |reflexivity].
    now destruct v2 as [[|a ts]|].
  - intros [cid tok]. cbn [channel_id access_token].
    destruct v1 as [[|c1 cs]|]; destruct v2 as [[|a ts]|]; cbn [fst];
      split; try discriminate;
      try (intros (H1 & H2 & H3 & H4); congruence).
    intros H. injection H as <- <-. repeat split; discriminate.
Qed.

(** X17.  The service with [DynamoDbTokenRepository]: whatever the table,
    the calculator, the formatter and the notifier do, a message is only
    sent with a channel id and an access token that are not empty, and is
    not empty itself. *)
Theorem notify_sends_with_credentials
    {W : Type} {cc : CostCalculatorBase W} {mf : MessageFormatterBase W}
    {nt : NotifierBase W} (client : DynamoDbClient W) (table_name : str)
    (w : W) (c : LineCredentials) (message : str) :
  In (CallSend c message)
    (snd (snd (@notify W cc (DynamoDbTokenRepository client table_name) mf nt
                 (w, [])))) ->
  channel_id c <> [] /\ access_token c <> [] /\ message <> [].
Proof.
  unfold notify, mbind, perform, ret. cbn [fst snd app].
  destruct (get_billing_info w) as [[bi|] w1];
    [|cbn [snd In]; intros [H|[]]; discriminate H].
  cbn [fst snd app].
  destruct (format_message bi w1) as [[|c0 m] w2];
    [cbn [snd In]; intros [H|[H|[]]]; discriminate H|].
  cbn [fst snd app get_credentials DynamoDbTokenRepository].
  unfold DynamoDbTokenRepository_get_credentials.
  destruct (_get_value table_name (u "line_channel_id") w2) as [v1 w3].
  destruct (_get_value table_name (u "line_access_token") w3) as [v2 w4].
  assert (Hnone : In (CallSend c message)
            [CallGetBillingInfo; CallFormat bi; CallGetCredentials] ->
          channel_id c <> [] /\ access_token c <> [] /\ message <> []).
  { cbn [In]. intros [H|[H|[H|[]]]]; discriminate H. }
  destruct v1 as [[|c1 cs]|]; [exact Hnone| |exact Hnone].
  destruct v2 as [[|a ts]|]; [exact Hnone| |exact Hnone].
  cbn [fst snd app].
  destruct (send _ (c0 :: m) w4) as [success w5]. cbn [snd In].
  intros [H|[H|[H|[H|[]]]]]; try discriminate H.
  injection H as <- <-. cbn [channel_id access_token].
  repeat split; discriminate.
Qed.

Lemma notify_sends_with_credentials_witness :
  In (CallSend test_credentials (u "11/01～11/21の請求額は、123.456 USDです。"))
    (snd (snd (@notify unit (mock_calculator unit (Some test_billing_info))
                 (DynamoDbTokenRepository (settings_table test_settings)
                    (u "settings"))
                 (BillingMessageFormatter ascii_decimal unit)
                 (mock_send unit true) (tt, []))))
  /\ channel_id test_credentials <> []
  /\ access_token test_credentials <> []
  /\ u "11/01～11/21の請求額は、123.456 USDです。" <> [].
Proof.
  assert (H : In (CallSend test_credentials
                    (u "11/01～11/21の請求額は、123.456 USDです。"))
    (snd (snd (@notify unit (mock_calculator unit (Some test_billing_info))
                 (DynamoDbTokenRepository (settings_table test_settings)
                    (u "settings"))
                 (BillingMessageFormatter ascii_decimal unit)
                 (mock_send unit true) (tt, []))))).
  { vm_compute. do 3 right. left. reflexivity. }
  split; [exact H|].
  exact (@notify_sends_with_credentials unit
           (mock_calculator unit (Some test_billing_info))
           (BillingMessageFormatter ascii_decimal unit) (mock_send unit true)
           (settings_table test_settings) (u "settings") tt test_credentials
           (u "11/01～11/21の請求額は、123.456 USDです。") H).
Defined.
